(** * The PDB Multi-Stream Format archive back end (bfd/pdb.c)

    A shallow embedding of the reader ([pdb_archive_p],
    [pdb_get_elt_at_index], [pdb_openr_next_archived_file]) and of the writer
    ([pdb_allocate_block], [pdb_write_directory], [pdb_write_bitmap],
    [pdb_write_contents]), followed by the properties of the format that the
    specification states.

    Conventions.  [uint32_t] values are integers of [Z] reduced with [u32];
    every C expression of that type is written with its wrap-around.
    [size_t], [symindex] and [ufile_ptr] are 64 bits wide (LP64).  Bytes are
    the 256 constructors of [Byte.byte]. *)

From Stdlib Require Import ZArith Lia Bool String Ascii List.
From Stdlib.Strings Require Import Byte.
Import ListNotations.
Local Open Scope Z_scope.

(* ================================================================= *)
(** ** Machine integers and bytes *)

Definition u32 (z : Z) : Z := z mod 2 ^ 32.
Definition u64 (z : Z) : Z := z mod 2 ^ 64.

Definition Z_of_byte (b : byte) : Z := Z.of_N (Byte.to_N b).

Definition byte_of_Z (z : Z) : byte :=
  match Byte.of_N (Z.to_N (z mod 256)) with
  | Some b => b
  | None => x00
  end.

Definition zlen {A : Type} (l : list A) : Z := Z.of_nat (length l).

(** Modelled from the spec: [bfd_getl32] and [bfd_putl32] live in libbfd.c,
    outside this file; the format fixes all integers as little-endian. *)
Definition bfd_getl32 (p : list byte) : Z :=
  Z_of_byte (nth 0 p x00)
  + Z_of_byte (nth 1 p x00) * 2 ^ 8
  + Z_of_byte (nth 2 p x00) * 2 ^ 16
  + Z_of_byte (nth 3 p x00) * 2 ^ 24.

Definition bfd_putl32 (data : Z) : list byte :=
  [ byte_of_Z data; byte_of_Z (data / 2 ^ 8);
    byte_of_Z (data / 2 ^ 16); byte_of_Z (data / 2 ^ 24) ].

(** [memcmp]: the difference of the first pair of bytes that differ. *)
Fixpoint memcmp (s1 s2 : list byte) (n : nat) : Z :=
  match n with
  | O => 0
  | S n' =>
      let c1 := Z_of_byte (hd x00 s1) in
      let c2 := Z_of_byte (hd x00 s2) in
      if c1 =? c2 then memcmp (tl s1) (tl s2) n' else c1 - c2
  end.

(* ================================================================= *)
(** ** The byte stream behind a [bfd] *)

Inductive bfd_error : Type :=
| bfd_error_no_error
| bfd_error_wrong_format
| bfd_error_malformed_archive
| bfd_error_no_more_archived_files
| bfd_error_invalid_operation
| bfd_error_file_truncated.

Record areltdata : Type := mk_areltdata {
  parsed_size : Z;
  key : Z
}.

(** The part of [struct bfd] this back end touches.  [contents] and [size]
    are the bytes of the underlying stream, [where_] its position.  [reads] is
    a log of the read requests made so far, as (offset, count) pairs; no code
    consults it. *)
Record bfd : Type := mk_bfd {
  filename : string;
  contents : Z -> byte;
  size : Z;
  where_ : Z;
  reads : list (Z * Z);
  arelt_data : option areltdata
}.

Definition peek (abfd : bfd) (off : Z) (n : nat) : list byte :=
  map (fun k => contents abfd (off + Z.of_nat k)) (seq 0 n).

(** All the bytes of a stream, and the stream made of given bytes. *)
Definition bfd_bytes (abfd : bfd) : list byte :=
  peek abfd 0 (Z.to_nat (size abfd)).

Definition bfd_of_bytes (l : list byte) : bfd :=
  {| filename := EmptyString;
     contents := fun o => nth (Z.to_nat o) l x00;
     size := zlen l;
     where_ := 0;
     reads := [];
     arelt_data := None |}.

(** Modelled from the spec: [bfd_get_size] is in bfdio.c, outside this file.
    A stream is a byte buffer of known size; its size is the number of bytes
    it holds, as an [ufile_ptr] of 64 bits. *)
Definition bfd_get_size (abfd : bfd) : Z := u64 (size abfd).

(** Modelled from the spec: [bfd_seek], [bfd_bread] and [bfd_bwrite] are in
    bfdio.c, outside this file.  The host stream supports absolute and
    relative seeks, sequential reads that return the bytes available, and
    sequential writes that may start past the current end (the gap then reads
    as zero bytes).  Seeks and writes do not fail in this model, so the
    branches of the C code that test their status are not taken. *)
Definition bfd_seek_set (abfd : bfd) (position : Z) : bfd :=
  {| filename := filename abfd; contents := contents abfd; size := size abfd;
     where_ := position; reads := reads abfd; arelt_data := arelt_data abfd |}.

Definition bfd_seek_cur (abfd : bfd) (position : Z) : bfd :=
  bfd_seek_set abfd (where_ abfd + position).

Definition bfd_bread (abfd : bfd) (count : Z) : list byte * bfd :=
  let avail := Z.max 0 (Z.min count (size abfd - where_ abfd)) in
  (peek abfd (where_ abfd) (Z.to_nat avail),
   {| filename := filename abfd; contents := contents abfd; size := size abfd;
      where_ := where_ abfd + avail;
      reads := reads abfd ++ [(where_ abfd, count)];
      arelt_data := arelt_data abfd |}).

Definition bfd_bwrite (abfd : bfd) (data : list byte) : bfd :=
  match data with
  | [] => abfd
  | _ =>
      let p := where_ abfd in
      let n := zlen data in
      {| filename := filename abfd;
         contents := fun o =>
           if (p <=? o) && (o <? p + n) then nth (Z.to_nat (o - p)) data x00
           else if size abfd <=? o then x00
           else contents abfd o;
         size := Z.max (size abfd) (p + n);
         where_ := p + n;
         reads := reads abfd;
         arelt_data := arelt_data abfd |}
  end.

(** Scratch memory: a buffer is a map from offsets to bytes; a buffer that
    comes from [bfd_malloc] starts with arbitrary contents. *)
Definition buffer : Type := Z -> byte.

Definition memset (buf : buffer) (off : Z) (c : byte) (n : Z) : buffer :=
  fun o => if (off <=? o) && (o <? off + n) then c else buf o.

Definition buf_store (buf : buffer) (off : Z) (c : byte) : buffer :=
  fun o => if o =? off then c else buf o.

Definition buf_bytes (buf : buffer) (n : Z) : list byte :=
  map (fun k => buf (Z.of_nat k)) (seq 0 (Z.to_nat n)).

(* ================================================================= *)
(** ** A monad for operations on the archive's stream *)

Inductive outcome (A : Type) : Type :=
| Done (a : A) (abfd : bfd)
| Fail (e : bfd_error) (abfd : bfd)
| Diverge.
Arguments Done {A} a abfd.
Arguments Fail {A} e abfd.
Arguments Diverge {A}.

Definition io (A : Type) : Type := bfd -> outcome A.

Definition ret {A : Type} (a : A) : io A := fun abfd => Done a abfd.

Definition bind {A B : Type} (c : io A) (k : A -> io B) : io B :=
  fun abfd =>
    match c abfd with
    | Done a abfd' => k a abfd'
    | Fail e abfd' => Fail e abfd'
    | Diverge => Diverge
    end.

Definition fail {A : Type} (e : bfd_error) : io A := fun abfd => Fail e abfd.

Declare Scope io_scope.
Delimit Scope io_scope with io.
Notation "x <- c ;; k" := (bind c (fun x => k))
  (at level 61, c at next level, right associativity) : io_scope.
Notation "c ;; k" := (bind c (fun _ => k))
  (at level 61, right associativity) : io_scope.
Local Open Scope io_scope.

Definition seek_set (position : Z) : io unit :=
  fun abfd => Done tt (bfd_seek_set abfd position).

Definition seek_cur (position : Z) : io unit :=
  fun abfd => Done tt (bfd_seek_cur abfd position).

Definition bwrite (data : list byte) : io unit :=
  fun abfd => Done tt (bfd_bwrite abfd data).

(** The recurring sequence
    [if (bfd_bread (int_buf, 4, abfd) != 4) { malformed } v = bfd_getl32 (int_buf)]. *)
Definition read_u32 : io Z :=
  fun abfd =>
    let '(int_buf, abfd') := bfd_bread abfd 4 in
    if zlen int_buf =? 4 then Done (bfd_getl32 int_buf) abfd'
    else Fail bfd_error_malformed_archive abfd'.

(* ================================================================= *)
(** ** Reader *)

Definition pdb_magic : list byte :=
  [ x4d; x69; x63; x72; x6f; x73; x6f; x66;
    x74; x20; x43; x2f; x43; x2b; x2b; x20;
    x4d; x53; x46; x20; x37; x2e; x30; x30;
    x0d; x0a; x1a; x44; x53; x00; x00; x00 ].

(** [pdb_archive_p]: the archive probe.  The allocation of the archive's
    [artdata] after a successful match is not represented. *)
Definition pdb_archive_p : io unit :=
  fun abfd =>
    let '(magic, abfd') := bfd_bread abfd 32 in
    if negb (zlen magic =? 32) then Fail bfd_error_wrong_format abfd'
    else if negb (memcmp magic pdb_magic 32 =? 0)
         then Fail bfd_error_wrong_format abfd'
         else Done tt abfd'.

(** The test of lines 87-89; [true] means the block size is refused. *)
Definition block_size_invalid (block_size : Z) : bool :=
  negb (Z.land block_size (u32 (- block_size)) =? block_size)
  || (block_size <? 512)
  || (block_size >? 4096).

(** The block of the directory that holds byte [dir_offset]: the lookup in
    the block map made at lines 142-163 and 271-292. *)
Definition locate_dir_block
    (block_size block_map_addr first_dir_block dir_offset : Z) : io Z :=
  if dir_offset >=? block_size then
    let block_map_addr_off := u32 (dir_offset / block_size * 4) in
    seek_set (u32 (u32 (block_map_addr * block_size) + block_map_addr_off)) ;;
    read_u32
  else ret first_dir_block.

(** [sprintf (name, "%04lx", sym_index)]. *)
Definition hex_digit (d : Z) : ascii :=
  nth (Z.to_nat d) (list_ascii_of_string "0123456789abcdef") "0"%char.

Fixpoint hex_digits (fuel : nat) (z : Z) (acc : string) : string :=
  match fuel with
  | O => acc
  | S fuel' =>
      if z =? 0 then acc
      else hex_digits fuel' (z / 16) (String (hex_digit (z mod 16)) acc)
  end.

Fixpoint pad_zeros (n : nat) (s : string) : string :=
  match n with
  | O => s
  | S n' => String "0"%char (pad_zeros n' s)
  end.

Definition sprintf_04lx (v : Z) : string :=
  let s := hex_digits 16 v EmptyString in
  pad_zeros (4 - String.length s) s.

(** [bfd_create] followed by [bfd_make_writable] and the allocation of the
    element's [areltdata]: a fresh, empty in-memory stream. *)
Definition new_element (name : string) (file_size sym_index : Z) : bfd :=
  {| filename := name;
     contents := fun _ => x00;
     size := 0;
     where_ := 0;
     reads := [];
     arelt_data := Some {| parsed_size := file_size; key := sym_index |} |}.

(** Lines 219-264: the loop that adds up the block counts of the streams
    before [sym_index]; [n] counts the iterations that remain. *)
Fixpoint sum_prev_blocks (n : nat)
    (block_size block_map_addr dir_offset block_off : Z) : io Z :=
  match n with
  | O => ret block_off
  | S n' =>
      (if dir_offset mod block_size =? 0 then
         let block_map_addr_off := u32 (dir_offset / block_size * 4) in
         seek_set (u32 (u32 (block_map_addr * block_size)
                        + block_map_addr_off)) ;;
         block <- read_u32 ;;
         seek_set (u32 (block * block_size))
       else ret tt) ;;
      size <- read_u32 ;;
      let size := if size =? 0xffffffff then 0 else size in
      let num_blocks := u32 (size + block_size - 1) / block_size in
      sum_prev_blocks n' block_size block_map_addr
        (u32 (dir_offset + 4)) (u32 (block_off + num_blocks))
  end.

(** Lines 299-358: the do-while loop that copies the blocks of the stream
    into the new element.  [fuel] bounds the number of iterations. *)
Fixpoint read_blocks (fuel : nat)
    (block_size block_map_addr file_size : Z)
    (left dir_offset block : Z) (file : bfd) : io bfd :=
  match fuel with
  | O => fun _ => Diverge
  | S fuel' =>
      block <- (if (dir_offset mod block_size =? 0)
                   && negb (left =? file_size) then
                  let block_map_addr_off :=
                    u32 (dir_offset / block_size * 4) in
                  seek_set (u32 (u32 (block_map_addr * block_size)
                                 + block_map_addr_off)) ;;
                  read_u32
                else ret block) ;;
      seek_set (u32 (u32 (block * block_size) + dir_offset mod block_size)) ;;
      file_block <- read_u32 ;;
      seek_set (u32 (file_block * block_size)) ;;
      let to_read := if left >? block_size then block_size else left in
      fun abfd =>
        let '(buf, abfd') := bfd_bread abfd to_read in
        if negb (zlen buf =? to_read)
        then Fail bfd_error_malformed_archive abfd'
        else
          let file := bfd_bwrite file buf in
          if left >? block_size then
            read_blocks fuel' block_size block_map_addr file_size
              (u32 (left - block_size)) (u32 (dir_offset + 4)) block file
              abfd'
          else Done file abfd'
  end.

Definition pdb_get_elt_at_index (sym_index : Z) : io bfd :=
  (* Get block_size.  *)
  seek_set 32 ;;
  block_size <- read_u32 ;;
  if block_size_invalid block_size then fail bfd_error_malformed_archive
  else
  (* Get block_map_addr.  *)
  seek_cur (4 * 4) ;;
  block_map_addr <- read_u32 ;;
  (* Get num_files.  *)
  seek_set (u32 (block_map_addr * block_size)) ;;
  first_dir_block <- read_u32 ;;
  seek_set (u32 (first_dir_block * block_size)) ;;
  num_files <- read_u32 ;;
  if sym_index >=? num_files then fail bfd_error_no_more_archived_files
  else
  (* Read file size.  *)
  let dir_offset := u32 (4 * u64 (sym_index + 1)) in
  block <- locate_dir_block block_size block_map_addr first_dir_block
             dir_offset ;;
  seek_set (u32 (u32 (block * block_size) + dir_offset mod block_size)) ;;
  file_size <- read_u32 ;;
  let file_size := if file_size =? 0xffffffff then 0 else file_size in
  (* Create BFD.  *)
  let file := new_element (sprintf_04lx sym_index) file_size sym_index in
  if file_size =? 0 then ret file
  else
  (* Sum number of blocks in previous files.  *)
  block_off <-
    (if negb (sym_index =? 0) then
       seek_set (u32 (first_dir_block * block_size) + 4) ;;
       sum_prev_blocks (Z.to_nat sym_index) block_size block_map_addr 4 0
     else ret 0) ;;
  (* Read blocks, and write into new BFD.  *)
  let dir_offset := u32 (4 * u32 (num_files + block_off + 1)) in
  block <- locate_dir_block block_size block_map_addr first_dir_block
             dir_offset ;;
  read_blocks (S (Z.to_nat (file_size / block_size)))
    block_size block_map_addr file_size file_size dir_offset block file.

(** The macro [arch_eltdata].  Every element the reader hands out carries
    its [areltdata]; for a [bfd] without one (a null pointer in C) the model
    reads zeros. *)
Definition arch_eltdata (abfd : bfd) : areltdata :=
  match arelt_data abfd with
  | Some d => d
  | None => {| parsed_size := 0; key := 0 |}
  end.

Definition pdb_openr_next_archived_file (last_file : option bfd) : io bfd :=
  match last_file with
  | None => pdb_get_elt_at_index 0
  | Some last => pdb_get_elt_at_index (u64 (key (arch_eltdata last) + 1))
  end.

(** The fields of [struct stat] that [pdb_generic_stat_arch_elt] sets.  The
    other fields of the caller's structure are left as they are and are not
    represented. *)
Record stat : Type := mk_stat {
  st_mtime : Z;
  st_uid : Z;
  st_gid : Z;
  st_mode : Z;
  st_size : Z
}.

(** [pdb_generic_stat_arch_elt]: the structure is passed and returned
    instead of being filled through a pointer; the result is (status,
    filled structure).  [0644] is octal. *)
Definition pdb_generic_stat_arch_elt (abfd : bfd) (buf : stat) : Z * stat :=
  let buf := {| st_mtime := 0; st_uid := st_uid buf; st_gid := st_gid buf;
                st_mode := st_mode buf; st_size := st_size buf |} in
  let buf := {| st_mtime := st_mtime buf; st_uid := 0; st_gid := st_gid buf;
                st_mode := st_mode buf; st_size := st_size buf |} in
  let buf := {| st_mtime := st_mtime buf; st_uid := st_uid buf; st_gid := 0;
                st_mode := st_mode buf; st_size := st_size buf |} in
  let buf := {| st_mtime := st_mtime buf; st_uid := st_uid buf;
                st_gid := st_gid buf; st_mode := 6 * 64 + 4 * 8 + 4;
                st_size := st_size buf |} in
  let buf := {| st_mtime := st_mtime buf; st_uid := st_uid buf;
                st_gid := st_gid buf; st_mode := st_mode buf;
                st_size := parsed_size (arch_eltdata abfd) |} in
  (0, buf).

(* ================================================================= *)
(** ** Writer *)

(** [pdb_allocate_block]: the counter is passed and returned instead of
    being updated through a pointer; the result is (block, new counter). *)
Definition pdb_allocate_block (num_blocks block_size : Z) : Z * Z :=
  let block := num_blocks in
  let num_blocks := u32 (num_blocks + 1) in
  (* If new interval, skip two blocks for free space map.  *)
  if block mod block_size =? 1 then (u32 (block + 2), u32 (num_blocks + 2))
  else (block, num_blocks).

(** The local variables of [pdb_write_directory] that its loops update,
    with the counter [*num_blocks]. *)
Record dirstate : Type := mk_dirstate {
  d_block : Z;
  d_left : Z;
  d_block_map_off : Z;
  d_num_blocks : Z
}.

(** Lines 456-480, repeated at lines 514-550: when the current directory
    block is full, allocate the next one and enter it in the block map. *)
Definition next_dir_block (block_size block_map_addr : Z) (st : dirstate)
  : io dirstate :=
  if d_left st =? 0 then
    if d_block_map_off st =? block_size (* Too many blocks.  *)
    then fail bfd_error_invalid_operation
    else
      let '(block, num_blocks) :=
        pdb_allocate_block (d_num_blocks st) block_size in
      seek_set (u32 (u32 (block_map_addr * block_size)
                     + d_block_map_off st)) ;;
      bwrite (bfd_putl32 block) ;;
      seek_set (u32 (block * block_size)) ;;
      ret {| d_block := block;
             d_left := block_size;
             d_block_map_off := u32 (d_block_map_off st + 4);
             d_num_blocks := num_blocks |}
  else ret st.

(** Lines 453-490: write file sizes. *)
Fixpoint write_sizes (block_size block_map_addr : Z) (arelts : list bfd)
    (st : dirstate) : io dirstate :=
  match arelts with
  | [] => ret st
  | arelt :: rest =>
      st <- next_dir_block block_size block_map_addr st ;;
      bwrite (bfd_putl32 (bfd_get_size arelt)) ;;
      write_sizes block_size block_map_addr rest
        {| d_block := d_block st;
           d_left := u32 (d_left st - 4);
           d_block_map_off := d_block_map_off st;
           d_num_blocks := d_num_blocks st |}
  end.

(** Lines 510-601: the blocks of one stream; [n] counts the iterations that
    remain, [size] the bytes of [arelt] not yet copied. *)
Fixpoint write_file_blocks (n : nat) (block_size block_map_addr : Z)
    (arelt : bfd) (size : Z) (st : dirstate) : io dirstate :=
  match n with
  | O => ret st
  | S n' =>
      st <- next_dir_block block_size block_map_addr st ;;
      (* Allocate block and write number into directory.  *)
      let '(file_block, num_blocks) :=
        pdb_allocate_block (d_num_blocks st) block_size in
      bwrite (bfd_putl32 file_block) ;;
      let left := u32 (d_left st - 4) in
      (* Read file contents into buffer.  *)
      let to_read := if size >? block_size then block_size else size in
      let '(data, arelt) := bfd_bread arelt to_read in
      if negb (zlen data =? to_read) then fail bfd_error_file_truncated
      else
        let size := size - to_read in
        let buf := data ++ repeat x00 (Z.to_nat (block_size - to_read)) in
        seek_set (u32 (file_block * block_size)) ;;
        (* Write file contents into allocated block.  *)
        bwrite buf ;;
        seek_set (u32 (u32 (u32 (d_block st * block_size) + block_size)
                       - left)) ;;
        write_file_blocks n' block_size block_map_addr arelt size
          {| d_block := d_block st;
             d_left := left;
             d_block_map_off := d_block_map_off st;
             d_num_blocks := num_blocks |}
  end.

(** Lines 498-604: write blocks. *)
Fixpoint write_blocks (block_size block_map_addr : Z) (arelts : list bfd)
    (st : dirstate) : io dirstate :=
  match arelts with
  | [] => ret st
  | arelt :: rest =>
      let size := bfd_get_size arelt in
      let req_blocks := u32 (u64 (size + block_size - 1) / block_size) in
      let arelt := bfd_seek_set arelt 0 in
      st <- write_file_blocks (Z.to_nat req_blocks) block_size block_map_addr
              arelt size st ;;
      write_blocks block_size block_map_addr rest st
  end.

(** [pdb_write_directory]; returns the final value of [*num_blocks]. *)
Definition pdb_write_directory (archive_head : list bfd)
    (block_size num_files block_map_addr num_blocks : Z) : io Z :=
  (* Allocate first block for directory.  *)
  let '(block, num_blocks) := pdb_allocate_block num_blocks block_size in
  let left := block_size in
  (* Write allocated block no. at beginning of block map.  *)
  seek_set (u32 (block_map_addr * block_size)) ;;
  bwrite (bfd_putl32 block) ;;
  let block_map_off := 4 in
  (* Write num_files at beginning of directory.  *)
  seek_set (u32 (block * block_size)) ;;
  bwrite (bfd_putl32 num_files) ;;
  let left := u32 (left - 4) in
  (* Write file sizes.  *)
  st <- write_sizes block_size block_map_addr archive_head
          {| d_block := block; d_left := left;
             d_block_map_off := block_map_off;
             d_num_blocks := num_blocks |} ;;
  (* Write blocks.  *)
  st <- write_blocks block_size block_map_addr archive_head st ;;
  bwrite (repeat x00 (Z.to_nat (d_left st))) ;;
  ret (d_num_blocks st).

(** Lines 642-659: one block of the free block map, built in [buf];
    [num_blocks] is the number of used bits still to be written. *)
Definition bitmap_fill (buf : buffer) (block_size num_blocks : Z) : buffer :=
  let buf :=
    if num_blocks >=? 8 then
      memset buf 0 x00
        (if num_blocks / 8 >? block_size then block_size else num_blocks / 8)
    else buf in
  if num_blocks <? u32 (block_size * 8) then
    let off := num_blocks / 8 in
    let '(buf, off) :=
      if negb (num_blocks mod 8 =? 0) then
        (buf_store buf off
           (byte_of_Z (Z.shiftl 1 (8 - num_blocks mod 8) - 1)),
         off + 1)
      else (buf, off) in
    if off <? block_size then memset buf off xff (block_size - off) else buf
  else buf.

(** Lines 661-664. *)
Definition bitmap_rest (block_size num_blocks : Z) : Z :=
  if num_blocks <? u32 (block_size * 8) then 0
  else u32 (num_blocks - u32 (block_size * 8)).

(** Lines 631-668: [n] counts the iterations that remain, [i] is the loop
    index. *)
Fixpoint write_bitmap_blocks (n : nat) (i : Z) (buf : buffer)
    (block_size num_blocks : Z) : io unit :=
  match n with
  | O => ret tt
  | S n' =>
      seek_set (u32 (u32 (u32 (i * block_size) + 1) * block_size)) ;;
      (* All of our blocks are contiguous, making our free block map simple.
         0 = used, 1 = free.  *)
      let buf := bitmap_fill buf block_size num_blocks in
      let num_blocks := bitmap_rest block_size num_blocks in
      bwrite (buf_bytes buf block_size) ;;
      write_bitmap_blocks n' (u32 (i + 1)) buf block_size num_blocks
  end.

(** [pdb_write_bitmap]; [junk] is the initial content of the buffer that
    [bfd_malloc] returns. *)
Definition pdb_write_bitmap (junk : buffer) (block_size num_blocks : Z)
  : io unit :=
  let num_intervals := u32 (num_blocks + block_size - 1) / block_size in
  let num_blocks := u32 (num_blocks - 1) in (* Superblock not included.  *)
  write_bitmap_blocks (Z.to_nat num_intervals) 0 junk block_size num_blocks.

(** Lines 699-712: count the streams and the bytes of the directory. *)
Fixpoint count_directory (arelts : list bfd) (block_size : Z)
    (num_files num_directory_bytes : Z) : Z * Z :=
  match arelts with
  | [] => (num_files, num_directory_bytes)
  | arelt :: rest =>
      let blocks_required :=
        u32 (u64 (bfd_get_size arelt + block_size - 1) / block_size) in
      let num_directory_bytes := u32 (num_directory_bytes + 4) in
      let num_directory_bytes :=
        u32 (num_directory_bytes + blocks_required * 4) in
      count_directory rest block_size (u32 (num_files + 1))
        num_directory_bytes
  end.

(** [pdb_write_contents]; [archive_head] is the list of the archive's
    elements, [Done] stands for [true] and [Fail] for [false]. *)
Definition pdb_write_contents (junk : buffer) (archive_head : list bfd)
  : io unit :=
  let block_size := 0x400 in
  bwrite pdb_magic ;;
  bwrite (bfd_putl32 block_size) ;;
  bwrite (bfd_putl32 1) ;; (* Free block map block (always either 1 or 2).  *)
  let '(num_files, num_directory_bytes) :=
    count_directory archive_head block_size 0 4 in
  (* Superblock plus two bitmap blocks.  *)
  let num_blocks := 3 in
  (* Skip num_blocks for now.  *)
  seek_cur 4 ;;
  bwrite (bfd_putl32 num_directory_bytes) ;;
  (* Skip unknown uint32_t (always 0?).  *)
  seek_cur 4 ;;
  let '(block_map_addr, num_blocks) :=
    pdb_allocate_block num_blocks block_size in
  bwrite (bfd_putl32 block_map_addr) ;;
  num_blocks <- pdb_write_directory archive_head block_size num_files
                  block_map_addr num_blocks ;;
  pdb_write_bitmap junk block_size num_blocks ;;
  (* Write num_blocks now we know it.  *)
  seek_set (32 + 4 + 4) ;;
  bwrite (bfd_putl32 num_blocks).

(* ================================================================= *)
(** ** Whole-archive operations used in the statements *)

Definition empty_bfd : bfd := bfd_of_bytes [].

(** The payload of stream [i], when the reader delivers it. *)
Definition stream_payload (archive : bfd) (i : Z) : option (list byte) :=
  match pdb_get_elt_at_index i archive with
  | Done file _ => Some (bfd_bytes file)
  | _ => None
  end.

(** The payloads of the streams [0 .. n - 1]. *)
Definition extract_all (archive : bfd) (n : nat) : list (option (list byte)) :=
  map (fun i => stream_payload archive (Z.of_nat i)) (seq 0 n).

(** The archive written from the payloads [S] to an empty file. *)
Definition write_msf (junk : buffer) (S : list (list byte)) : outcome unit :=
  pdb_write_contents junk (map bfd_of_bytes S) empty_bfd.

(* ================================================================= *)
(** * Specification vocabulary *)

(** A header of 34 bytes that differs from the magic in its last byte only. *)
Definition almost_magic : list byte :=
  firstn 31 pdb_magic ++ [x01; x41; x42].

(** [has f o l]: the stream holds the bytes [l] at offset [o]. *)
Definition has (f : bfd) (o : Z) (l : list byte) : Prop :=
  0 <= o /\ o + zlen l <= size f /\ peek f o (length l) = l.

(** The 32-bit little-endian value at offset [o] of the stream. *)
Definition word_at (f : bfd) (o : Z) : Z := bfd_getl32 (peek f o 4).

(** [has_word f o v]: the stream holds the 32-bit value [v] at offset [o]. *)
Definition has_word (f : bfd) (o v : Z) : Prop :=
  0 <= o /\ o + 4 <= size f /\ word_at f o = v.

(** Two states of a stream with the same bytes. *)
Definition same_bytes (f g : bfd) : Prop :=
  contents f = contents g /\ size f = size g.

(** [z] is a power of two. *)
Definition power_of_two (z : Z) : Prop := exists k, 0 <= k /\ z = 2 ^ k.

(** The block sizes the format allows: a power of two within [512, 4096]. *)
Definition valid_block_size (bs : Z) : Prop :=
  power_of_two bs /\ 512 <= bs <= 4096.

(** The four block sizes that lines 87-89 let through. *)
Definition valid4 (bs : Z) : bool :=
  (bs =? 512) || (bs =? 1024) || (bs =? 2048) || (bs =? 4096).

(** A file made of the magic and a block size of 768. *)
Definition bad_header : bfd :=
  bfd_of_bytes (pdb_magic ++ bfd_putl32 768).

(** The blocks returned by [n] successive calls of [pdb_allocate_block]. *)
Fixpoint alloc_seq (n : nat) (num_blocks block_size : Z) : list Z :=
  match n with
  | O => []
  | S n' =>
      let '(block, num_blocks) := pdb_allocate_block num_blocks block_size in
      block :: alloc_seq n' num_blocks block_size
  end.

(** The two slots of every interval of 1024 blocks that hold the free block
    map. *)
Definition reserved_slot (b : Z) : Prop :=
  1 <= b /\ (b mod 1024 = 1 \/ b mod 1024 = 2).

(** Bit [p] of a byte, the most significant bit first. *)
Definition bit_of_byte (b : byte) (p : Z) : bool :=
  Z.testbit (Z_of_byte b) (7 - p).

(** Bit [k] of the bytes that start at offset [off] of a stream. *)
Definition bit_at (f : bfd) (off k : Z) : bool :=
  bit_of_byte (contents f (off + k / 8)) (k mod 8).

(** The number of used bits still to be written after [i] intervals. *)
Fixpoint bitmap_rest_iter (i : nat) (block_size num_blocks : Z) : Z :=
  match i with
  | O => num_blocks
  | S i' => bitmap_rest_iter i' block_size (bitmap_rest block_size num_blocks)
  end.

(** The offset of the first free-map block of interval [i]. *)
Definition fpm_offset (bs i : Z) : Z := (i * bs + 1) * bs.

(** The streams produced by the "next after last" protocol, starting after
    [last_file], with the error that ends the enumeration ([None] when the
    bound [fuel] on the number of streams is reached). *)
Fixpoint enumerate (fuel : nat) (last_file : option bfd) (archive : bfd)
  : list bfd * option bfd_error :=
  match fuel with
  | O => ([], None)
  | S fuel' =>
      match pdb_openr_next_archived_file last_file archive with
      | Done file archive' =>
          let '(l, e) := enumerate fuel' (Some file) archive' in
          (file :: l, e)
      | Fail e _ => ([], Some e)
      | Diverge => ([], None)
      end
  end.

(** The streams at indices [i], [i + 1], ... obtained by indexed access. *)
Fixpoint get_from (fuel : nat) (i : Z) (archive : bfd)
  : list bfd * option bfd_error :=
  match fuel with
  | O => ([], None)
  | S fuel' =>
      match pdb_get_elt_at_index i archive with
      | Done file archive' =>
          let '(l, e) := get_from fuel' (i + 1) archive' in
          (file :: l, e)
      | Fail e _ => ([], Some e)
      | Diverge => ([], None)
      end
  end.

(** [post c Q]: every result that [c] delivers satisfies [Q]. *)
Definition post {A} (c : io A) (Q : A -> Prop) : Prop :=
  forall f a f', c f = Done a f' -> Q a.

(** Entry [k] of a list of words, 0 out of range. *)
Definition znth (l : list Z) (k : Z) : Z := nth (Z.to_nat k) l 0.

(** The size entry [0xffffffff] stands for 0. *)
Definition norm_size (z : Z) : Z := if z =? 0xffffffff then 0 else z.

(** The number of blocks the reader attributes to a stream that precedes
    the one it extracts (line 260). *)
Definition reader_blocks (bs size : Z) : Z := u32 (size + bs - 1) / bs.

(** The blocks the reader attributes to the streams with the size entries
    [raw_sizes]. *)
Definition sum_blocks (bs : Z) (raw_sizes : list Z) : Z :=
  fold_right (fun s acc => reader_blocks bs (norm_size s) + acc) 0 raw_sizes.

(** [dir_layout f bs bma Ds W]: the superblock of [f] gives the block size
    [bs] and the address [bma] of the block map; the block map lists the
    directory blocks [Ds]; read through them, the directory is the
    sequence of 32-bit words [W]. *)
Record dir_layout (f : bfd) (bs bma : Z) (Ds W : list Z) : Prop := {
  lay_bs : has_word f 32 bs;
  lay_valid : valid_block_size bs;
  lay_bma : has_word f 52 bma;
  lay_bma_range : 0 <= bma /\ bma * bs + bs <= 2 ^ 32;
  lay_fit : 4 * zlen Ds <= bs;
  lay_cap : 4 * zlen W <= bs * zlen Ds;
  lay_Ds : forall k, 0 <= k < zlen Ds ->
             0 <= znth Ds k /\ znth Ds k * bs + bs <= 2 ^ 32
             /\ has_word f (bma * bs + 4 * k) (znth Ds k);
  lay_W : forall x, 0 <= x < zlen W ->
            has_word f (znth Ds (4 * x / bs) * bs + (4 * x) mod bs)
                     (znth W x)
}.

(** The data blocks of a stream: with the stream's block list starting at
    word [base] of the directory, block [k] of [payload] is at the block
    that word [base + k] names. *)
Definition stream_data (f : bfd) (bs : Z) (W : list Z) (base : Z)
    (payload : list byte) : Prop :=
  forall k, 0 <= k -> k * bs < zlen payload ->
    base + k < zlen W
    /\ 0 <= znth W (base + k)
    /\ znth W (base + k) * bs + bs <= 2 ^ 32
    /\ has f (znth W (base + k) * bs)
             (firstn (Z.to_nat bs) (skipn (Z.to_nat (k * bs)) payload)).

(** [dir_inv f0 st f Ds Wd Data]: while [pdb_write_directory] runs on a
    stream that was [f0] when it started, with [block_size = 1024] and the
    block map at block 3: [Ds] are the directory blocks entered in the block
    map so far, [Wd] the words written to the directory so far, and [Data]
    the data blocks written so far, each with its 1024 bytes. *)
Record dir_inv (f0 : bfd) (st : dirstate) (f : bfd) (Ds Wd : list Z)
    (Data : list (Z * list byte)) : Prop := {
  inv_low : forall o l, has f0 o l -> o + zlen l <= 1024 -> has f o l;
  inv_Ds_len : 1 <= zlen Ds <= 256;
  inv_bmo : d_block_map_off st = 4 * zlen Ds;
  inv_left : 0 <= d_left st <= 1024
             /\ 4 * zlen Wd = 1024 * zlen Ds - d_left st;
  inv_block : d_block st = znth Ds (zlen Ds - 1);
  inv_pos : where_ f = d_block st * 1024 + 1024 - d_left st;
  inv_nb : 5 <= d_num_blocks st
           /\ d_num_blocks st <= 3 * (2 + zlen Ds + zlen Wd)
           /\ d_num_blocks st mod 1024 <> 2;
  inv_map : forall k, 0 <= k < zlen Ds ->
              4 <= znth Ds k < d_num_blocks st
              /\ ~ reserved_slot (znth Ds k)
              /\ has_word f (3072 + 4 * k) (znth Ds k);
  inv_Ds_distinct : forall k, 0 <= k < zlen Ds - 1 ->
                      znth Ds k <> d_block st;
  inv_words : forall x, 0 <= x < zlen Wd ->
                has_word f (znth Ds (4 * x / 1024) * 1024 + (4 * x) mod 1024)
                         (znth Wd x);
  inv_data : forall B c, In (B, c) Data ->
               4 <= B < d_num_blocks st /\ B <> d_block st
               /\ ~ reserved_slot B /\ zlen c = 1024
               /\ has f (B * 1024) c
}.

(** The number of blocks the writer gives to a payload (line 502). *)
Definition req_blocks (p : list byte) : Z :=
  u32 (u64 (u64 (zlen p) + 1024 - 1) / 1024).

(** The content of block [k] of the payload [p]: its bytes, then zeros up
    to the end of the block. *)
Definition wchunk (p : list byte) (k : Z) : list byte :=
  let to_read := Z.min 1024 (u64 (zlen p) - 1024 * k) in
  firstn (Z.to_nat to_read) (skipn (Z.to_nat (1024 * k)) p)
  ++ repeat x00 (Z.to_nat (1024 - to_read)).

(** The [n] blocks of [p] from block [k] on. *)
Definition wchunks (p : list byte) (k : Z) (n : nat) : list (list byte) :=
  map (fun t => wchunk p (k + Z.of_nat t)) (seq 0 n).

(** The blocks given to the payloads before index [i]. *)
Definition blocks_before (S : list (list byte)) (i : nat) : Z :=
  fold_right Z.add 0 (map req_blocks (firstn i S)).

(** [dir_facts f nb Ds Wd Data]: the stream holds a block map at block 3
    that lists the directory blocks [Ds], a directory made of the words
    [Wd], and the data blocks [Data]; all these blocks are below [nb] and
    outside the slots of the free block map. *)
Record dir_facts (f : bfd) (nb : Z) (Ds Wd : list Z)
    (Data : list (Z * list byte)) : Prop := {
  fin_Ds_len : 1 <= zlen Ds <= 256;
  fin_cap : 4 * zlen Wd <= 1024 * zlen Ds;
  fin_nb : 5 <= nb <= 2 ^ 21 /\ nb mod 1024 <> 2;
  fin_map : forall k, 0 <= k < zlen Ds ->
              4 <= znth Ds k < nb /\ ~ reserved_slot (znth Ds k)
              /\ has_word f (3072 + 4 * k) (znth Ds k);
  fin_words : forall x, 0 <= x < zlen Wd ->
                has_word f (znth Ds (4 * x / 1024) * 1024 + (4 * x) mod 1024)
                         (znth Wd x);
  fin_data : forall B c, In (B, c) Data ->
               4 <= B < nb /\ ~ reserved_slot B /\ zlen c = 1024
               /\ has f (B * 1024) c
}.

(** The superblock and the directory of a written archive. *)
Record archive_facts (out : bfd) (S : list (list byte)) (nb : Z)
    (Ds Bl : list Z) (Data : list (Z * list byte)) : Prop := {
  arc_magic : has out 0 pdb_magic;
  arc_block_size : has_word out 32 1024;
  arc_free_map : has_word out 36 1;
  arc_num_blocks : has_word out 40 nb;
  arc_dir_bytes :
    has_word out 44 (u32 (4 + 4 * zlen S + 4 * blocks_before S (length S)));
  arc_map_addr : has_word out 52 3;
  arc_dir : dir_facts out nb Ds
              (u32 (zlen S) :: map (fun p => u32 (u64 (zlen p))) S ++ Bl)
              Data;
  arc_blocks_len : zlen Bl = blocks_before S (length S);
  arc_blocks : forall i p t, nth_error S i = Some p ->
                 0 <= t < req_blocks p ->
                 In (znth Bl (blocks_before S i + t), wchunk p t) Data;
  arc_blocks_data : forall x, 0 <= x < zlen Bl ->
                      exists c, In (znth Bl x, c) Data
}.

(** The quotient of [a] by [b] rounded up. *)
Definition ceil_div (a b : Z) : Z := (a + b - 1) / b.

(** The byte length of the directory of an archive of the payloads [S]:
    the stream count, one size per stream, one block index per block. *)
Definition directory_size (S : list (list byte)) : Z :=
  4 + 4 * zlen S
  + 4 * fold_right Z.add 0 (map (fun s => ceil_div (zlen s) 1024) S).

(** A directory of [D] bytes fits one block-map page when the indices of
    its blocks, four bytes each, fit one block of 1024 bytes. *)
Definition fits_block_map_page (D : Z) : Prop :=
  4 * ceil_div D 1024 <= 1024.

(** Five payloads, one of them empty and one of two blocks. *)
Definition sample_payloads : list (list byte) :=
  [[x41]; [x42; x42]; repeat x43 1500; []; [x44; x45; x46]].

(** A payload of 4 TiB: its block count, [2 ^ 32], does not fit the
    [uint32_t] that receives it at line 703. *)
Definition huge_payloads : list (list byte) :=
  [repeat x00 (Z.to_nat (2 ^ 42))].

(** Block counts added up without the special case for [0xffffffff]. *)
Definition plain_blocks (bs : Z) (sizes : list Z) : Z :=
  fold_right (fun s acc => reader_blocks bs s + acc) 0 sizes.

(** The reads that take the reader from the superblock to the size entry
    of stream [i]: block size, block map address, first entry of the block
    map, stream count, the entry of the block map for the directory block
    of the size entry when it is not the first, and the size entry. *)
Definition size_entry_reads (bs bma : Z) (Ds : list Z) (i : Z)
  : list (Z * Z) :=
  [(32, 4); (52, 4); (bma * bs, 4); (znth Ds 0 * bs, 4)]
  ++ (if 4 * (i + 1) >=? bs
      then [(bma * bs + 4 * (4 * (i + 1) / bs), 4)] else [])
  ++ [(znth Ds (4 * (i + 1) / bs) * bs + (4 * (i + 1)) mod bs, 4)].

(** An archive of three streams in which the size entry of the second,
    empty, stream has been overwritten with [0xffffffff]. *)
Definition sentinel_archive : bfd :=
  match write_msf (fun _ => x00) [[x41]; []; [x42; x43]] with
  | Done _ out =>
      bfd_bwrite (bfd_seek_set out (4096 + 8)) [xff; xff; xff; xff]
  | _ => empty_bfd
  end.

(** The directory of [sentinel_archive], word by word. *)
Definition sentinel_words : list Z := [3; 1; 0xffffffff; 2; 5; 6].

(** [quiet c E]: on every stream, [c] returns, leaves the bytes of the
    stream as they are, and when it fails the error is one of [E]. *)
Definition quiet {A} (c : io A) (E : bfd_error -> Prop) : Prop :=
  forall f,
    match c f with
    | Done _ f' => same_bytes f f'
    | Fail e f' => same_bytes f f' /\ E e
    | Diverge => False
    end.

(** The errors [pdb_get_elt_at_index] sets. *)
Definition reader_error (e : bfd_error) : Prop :=
  e = bfd_error_malformed_archive \/ e = bfd_error_no_more_archived_files.

(** The offset in the file of word [x] of the directory, when the block map
    lists the directory blocks [Ds] and blocks are 1024 bytes long. *)
Definition dir_word_offset (Ds : list Z) (x : Z) : Z :=
  znth Ds (4 * x / 1024) * 1024 + (4 * x) mod 1024.

(** The value of a hexadecimal digit, and of a string of such digits read
    from the left after the digits that gave [acc]. *)
Definition hex_digit_value (c : ascii) : Z :=
  let n := Z.of_N (N_of_ascii c) in
  if (48 <=? n) && (n <=? 57) then n - 48
  else if (97 <=? n) && (n <=? 102) then n - 87
  else 0.

Fixpoint hex_value_from (acc : Z) (s : string) : Z :=
  match s with
  | EmptyString => acc
  | String c s' => hex_value_from (16 * acc + hex_digit_value c) s'
  end.

Definition hex_value (s : string) : Z := hex_value_from 0 s.

(** Two elements that hold the same bytes, whatever their names, positions
    and histories. *)
Definition same_data (a a' : bfd) : Prop :=
  size a = size a'
  /\ forall o, 0 <= o < size a -> contents a o = contents a' o.

(* ================================================================= *)
(** ** Bytes and little-endian words *)

Lemma Z_of_byte_range (b : byte) : 0 <= Z_of_byte b < 256.
Proof.
  unfold Z_of_byte. pose proof (Byte.to_N_bounded b). lia.
Qed.

Lemma Z_of_byte_of_Z (z : Z) : Z_of_byte (byte_of_Z z) = z mod 256.
Proof.
  unfold Z_of_byte, byte_of_Z.
  assert (Hr : 0 <= z mod 256 < 256) by (apply Z.mod_pos_bound; lia).
  destruct (Byte.of_N (Z.to_N (z mod 256))) as [b|] eqn:E.
  - apply Byte.to_of_N in E. rewrite E. lia.
  - apply Byte.of_N_None_iff in E. lia.
Qed.

Lemma byte_of_Z_of_byte (b : byte) : byte_of_Z (Z_of_byte b) = b.
Proof.
  unfold byte_of_Z, Z_of_byte.
  pose proof (Byte.to_N_bounded b).
  rewrite Z.mod_small by lia.
  rewrite N2Z.id, Byte.of_to_N. reflexivity.
Qed.

Lemma Z_of_byte_inj (a b : byte) : Z_of_byte a = Z_of_byte b -> a = b.
Proof.
  intros H. rewrite <- (byte_of_Z_of_byte a), <- (byte_of_Z_of_byte b).
  now rewrite H.
Qed.

Lemma bfd_getl32_putl32 (x : Z) : bfd_getl32 (bfd_putl32 x) = u32 x.
Proof.
  unfold bfd_getl32, bfd_putl32, u32. cbn [nth].
  rewrite !Z_of_byte_of_Z.
  change (2 ^ 8) with 256. change (2 ^ 16) with 65536.
  change (2 ^ 24) with 16777216. change (2 ^ 32) with 4294967296.
  Z.div_mod_to_equations. lia.
Qed.

Lemma bfd_getl32_range (p : list byte) : 0 <= bfd_getl32 p < 2 ^ 32.
Proof.
  unfold bfd_getl32.
  pose proof (Z_of_byte_range (nth 0 p x00)).
  pose proof (Z_of_byte_range (nth 1 p x00)).
  pose proof (Z_of_byte_range (nth 2 p x00)).
  pose proof (Z_of_byte_range (nth 3 p x00)).
  change (2 ^ 8) with 256. change (2 ^ 16) with 65536.
  change (2 ^ 24) with 16777216. change (2 ^ 32) with 4294967296.
  lia.
Qed.

(* ================================================================= *)
(** ** Streams: what reads return *)

Lemma peek_length (f : bfd) (o : Z) (n : nat) : length (peek f o n) = n.
Proof. unfold peek. now rewrite length_map, length_seq. Qed.

Lemma nth_peek (f : bfd) (o : Z) (n k : nat) (d : byte) :
  (k < n)%nat -> nth k (peek f o n) d = contents f (o + Z.of_nat k).
Proof.
  intros Hk. unfold peek.
  rewrite (nth_indep _ d (contents f (o + Z.of_nat 0)))
    by now rewrite length_map, length_seq.
  rewrite (map_nth (fun k => contents f (o + Z.of_nat k))).
  now rewrite seq_nth.
Qed.

Lemma peek_ext (f g : bfd) (o : Z) (n : nat) :
  (forall k, 0 <= k < Z.of_nat n -> contents f (o + k) = contents g (o + k)) ->
  peek f o n = peek g o n.
Proof.
  intros H. unfold peek. apply map_ext_in. intros k Hk.
  apply in_seq in Hk. apply H. lia.
Qed.

Lemma peek_of_bytes (l : list byte) (n : nat) :
  (n <= length l)%nat -> peek (bfd_of_bytes l) 0 n = firstn n l.
Proof.
  intros Hn. apply (nth_ext _ _ x00 x00).
  - rewrite peek_length, length_firstn. lia.
  - intros k Hk. rewrite peek_length in Hk.
    rewrite nth_peek by assumption. cbn [bfd_of_bytes contents].
    rewrite Z.add_0_l, Nat2Z.id, nth_firstn.
    destruct (Nat.ltb_spec k n); [reflexivity | lia].
Qed.

Lemma memcmp_zero_iff (n : nat) : forall s1 s2 : list byte,
  length s1 = n -> length s2 = n -> (memcmp s1 s2 n = 0 <-> s1 = s2).
Proof.
  induction n as [|n IH]; intros s1 s2 H1 H2.
  - destruct s1, s2; try discriminate. cbn. tauto.
  - destruct s1 as [|a s1], s2 as [|b s2]; try discriminate.
    cbn [memcmp hd tl]. injection H1 as H1. injection H2 as H2.
    destruct (Z.eqb_spec (Z_of_byte a) (Z_of_byte b)) as [E|E].
    + apply Z_of_byte_inj in E. subst b. rewrite (IH s1 s2 H1 H2).
      split; [intros -> | intros [= ->]]; reflexivity.
    + split; [lia | intros [= -> _]; congruence].
Qed.

Lemma bfd_bread_length (f : bfd) (count : Z) :
  zlen (fst (bfd_bread f count))
  = Z.max 0 (Z.min count (size f - where_ f)).
Proof. unfold bfd_bread, zlen. cbn [fst]. rewrite peek_length. lia. Qed.

(** A stream with fewer than 32 bytes left is refused as "wrong format". *)
Lemma pdb_archive_p_short (abfd : bfd) :
  size abfd - where_ abfd < 32 ->
  pdb_archive_p abfd
  = Fail bfd_error_wrong_format (snd (bfd_bread abfd 32)).
Proof.
  intros H. unfold pdb_archive_p.
  pose proof (bfd_bread_length abfd 32) as L.
  destruct (bfd_bread abfd 32) as [magic abfd'] eqn:E. cbn [fst snd] in *.
  destruct (Z.eqb_spec (zlen magic) 32); [lia | reflexivity].
Qed.

(** With 32 bytes available, the probe accepts exactly the magic. *)
Lemma pdb_archive_p_full (b : list byte) :
  (32 <= length b)%nat ->
  pdb_archive_p (bfd_of_bytes b)
  = if list_eq_dec byte_eq_dec (firstn 32 b) pdb_magic
    then Done tt (snd (bfd_bread (bfd_of_bytes b) 32))
    else Fail bfd_error_wrong_format (snd (bfd_bread (bfd_of_bytes b) 32)).
Proof.
  intros H. unfold pdb_archive_p.
  pose proof (bfd_bread_length (bfd_of_bytes b) 32) as L.
  assert (Hm : fst (bfd_bread (bfd_of_bytes b) 32) = firstn 32 b).
  { unfold bfd_bread. cbn [fst bfd_of_bytes where_ size].
    unfold zlen. rewrite Z.sub_0_r.
    replace (Z.to_nat (Z.max 0 (Z.min 32 (Z.of_nat (length b))))) with 32%nat
      by lia.
    now apply peek_of_bytes. }
  destruct (bfd_bread (bfd_of_bytes b) 32) as [magic abfd'] eqn:E.
  cbn [fst snd] in *. subst magic.
  cbn [bfd_of_bytes size where_] in L. unfold zlen in L at 2.
  destruct (Z.eqb_spec (zlen (firstn 32 b)) 32) as [_|N]; [|lia].
  cbn [negb].
  pose proof (memcmp_zero_iff 32 (firstn 32 b) pdb_magic) as M.
  rewrite length_firstn in M. specialize (M ltac:(lia) eq_refl).
  destruct (list_eq_dec byte_eq_dec (firstn 32 b) pdb_magic) as [Q|Q].
  - apply M in Q. rewrite Q. reflexivity.
  - destruct (Z.eqb_spec (memcmp (firstn 32 b) pdb_magic 32) 0) as [Z0|Z0];
      [apply M in Z0; contradiction | reflexivity].
Qed.

(* ================================================================= *)
(** ** The archive probe *)

(** C10.  A stream that holds fewer than 32 bytes is refused by the probe
    with [bfd_error_wrong_format], the same error as a magic mismatch, and
    with no other error. *)
Theorem probe_truncated_wrong_format (b : list byte) :
  (length b < 32)%nat ->
  pdb_archive_p (bfd_of_bytes b)
  = Fail bfd_error_wrong_format (snd (bfd_bread (bfd_of_bytes b) 32)).
Proof.
  intros H. apply pdb_archive_p_short.
  cbn [bfd_of_bytes size where_]. unfold zlen. lia.
Qed.

Lemma probe_truncated_wrong_format_witness :
  (length [x4d; x69; x63] < 32)%nat
  /\ pdb_archive_p (bfd_of_bytes [x4d; x69; x63])
     = Fail bfd_error_wrong_format
         (snd (bfd_bread (bfd_of_bytes [x4d; x69; x63]) 32)).
Proof.
  split.
  - cbn [length]. lia.
  - apply (probe_truncated_wrong_format [x4d; x69; x63]). cbn [length]. lia.
Defined.

(** C2.  When the first 32 bytes of the stream are not the magic, the probe
    fails with [bfd_error_wrong_format]; it has made one read request, for 32
    bytes at offset 0, and the position it leaves is the number of bytes it
    consumed: 32, or the length of a shorter stream. *)
Theorem probe_magic_discrimination (b : list byte) :
  firstn 32 b <> pdb_magic ->
  exists abfd',
    pdb_archive_p (bfd_of_bytes b) = Fail bfd_error_wrong_format abfd'
    /\ reads abfd' = [(0, 32)]
    /\ where_ abfd' = Z.min 32 (zlen b)
    /\ where_ abfd' <= 32.
Proof.
  intros Hne. exists (snd (bfd_bread (bfd_of_bytes b) 32)).
  assert (Hst : reads (snd (bfd_bread (bfd_of_bytes b) 32)) = [(0, 32)]
                /\ where_ (snd (bfd_bread (bfd_of_bytes b) 32))
                   = Z.min 32 (zlen b)).
  { unfold bfd_bread. cbn [snd bfd_of_bytes reads where_ size app].
    split; [reflexivity | unfold zlen; lia]. }
  destruct Hst as [Hr Hw]. rewrite Hw.
  repeat split; try assumption; try lia.
  destruct (Nat.lt_ge_cases (length b) 32) as [Hs|Hl].
  - apply pdb_archive_p_short.
    cbn [bfd_of_bytes size where_]. unfold zlen. lia.
  - rewrite pdb_archive_p_full by assumption.
    destruct (list_eq_dec byte_eq_dec (firstn 32 b) pdb_magic);
      [contradiction | reflexivity].
Qed.

Lemma probe_magic_discrimination_witness :
  firstn 32 almost_magic <> pdb_magic
  /\ exists abfd',
       pdb_archive_p (bfd_of_bytes almost_magic)
       = Fail bfd_error_wrong_format abfd'
       /\ reads abfd' = [(0, 32)]
       /\ where_ abfd' = Z.min 32 (zlen almost_magic)
       /\ where_ abfd' <= 32.
Proof.
  assert (H : firstn 32 almost_magic <> pdb_magic) by (cbv; discriminate).
  split; [exact H | exact (probe_magic_discrimination almost_magic H)].
Defined.

(* ================================================================= *)
(** ** Facts about the bytes of a stream *)

Lemma same_bytes_refl f : same_bytes f f.
Proof. split; reflexivity. Qed.

Lemma same_bytes_trans f g h :
  same_bytes f g -> same_bytes g h -> same_bytes f h.
Proof. intros [A B] [C D]. split; congruence. Qed.

Lemma same_bytes_seek_set f p : same_bytes f (bfd_seek_set f p).
Proof. split; reflexivity. Qed.

Lemma same_bytes_seek_cur f p : same_bytes f (bfd_seek_cur f p).
Proof. split; reflexivity. Qed.

Lemma same_bytes_bread f n : same_bytes f (snd (bfd_bread f n)).
Proof. split; reflexivity. Qed.

Lemma peek_same f g o n : same_bytes f g -> peek f o n = peek g o n.
Proof. intros [E _]. unfold peek. now rewrite E. Qed.

Lemma has_same f g o l : same_bytes f g -> has f o l -> has g o l.
Proof.
  intros S (A & B & C). pose proof S as [_ Es].
  repeat split; [assumption | lia | now rewrite <- (peek_same f g)].
Qed.

Lemma has_word_same f g o v :
  same_bytes f g -> has_word f o v -> has_word g o v.
Proof.
  intros S (A & B & C). pose proof S as [_ Es].
  repeat split; [assumption | lia |].
  unfold word_at in *. now rewrite <- (peek_same f g).
Qed.

Lemma has_word_range f o v : has_word f o v -> 0 <= v < 2 ^ 32.
Proof. intros (_ & _ & <-). apply bfd_getl32_range. Qed.

Lemma has_word_fun f o v w : has_word f o v -> has_word f o w -> v = w.
Proof. intros (_ & _ & A) (_ & _ & B). congruence. Qed.

(** Reading a word that is there. *)
Lemma read_u32_ok f o v :
  has_word f o v -> where_ f = o ->
  read_u32 f = Done v (snd (bfd_bread f 4)).
Proof.
  intros (A & B & C) W. unfold read_u32, bfd_bread. cbn [snd].
  rewrite W.
  replace (Z.to_nat (Z.max 0 (Z.min 4 (size f - o)))) with 4%nat by lia.
  unfold zlen. rewrite peek_length. cbn [Z.of_nat Z.eqb Pos.of_succ_nat Pos.succ Pos.eqb].
  unfold word_at in C. now rewrite C.
Qed.

Lemma where_bread f n :
  0 <= n -> where_ f + n <= size f -> where_ (snd (bfd_bread f n)) = where_ f + n.
Proof. intros. unfold bfd_bread. cbn [snd where_]. lia. Qed.

Lemma bind_Done {A B} (c : io A) (k : A -> io B) f a f' :
  c f = Done a f' -> bind c k f = k a f'.
Proof. intros E. unfold bind. now rewrite E. Qed.

Lemma bind_Fail {A B} (c : io A) (k : A -> io B) f e f' :
  c f = Fail e f' -> bind c k f = Fail e f'.
Proof. intros E. unfold bind. now rewrite E. Qed.

(** Reading the word at the current position, inside a sequence. *)
Lemma bind_read_u32 {B} (k : Z -> io B) f v :
  has_word f (where_ f) v ->
  bind read_u32 k f = k v (snd (bfd_bread f 4)).
Proof. intros H. apply bind_Done. now apply read_u32_ok with (o := where_ f). Qed.

(* ================================================================= *)
(** ** Block-size validation *)

Lemma valid4_spec bs : valid4 bs = true <-> valid_block_size bs.
Proof.
  unfold valid4, valid_block_size, power_of_two. split.
  - intros H. repeat (apply orb_true_iff in H; destruct H as [H|H]);
      apply Z.eqb_eq in H; subst bs.
    + split; [exists 9; split; [lia | reflexivity] | lia].
    + split; [exists 10; split; [lia | reflexivity] | lia].
    + split; [exists 11; split; [lia | reflexivity] | lia].
    + split; [exists 12; split; [lia | reflexivity] | lia].
  - intros [(k & Hk & ->) [Lo Hi]].
    assert (9 <= k).
    { destruct (Z_lt_le_dec k 9) as [L|L]; [|assumption].
      assert (2 ^ k <= 2 ^ 8) by (apply Z.pow_le_mono_r; lia).
      change (2 ^ 8) with 256 in *. lia. }
    assert (k <= 12).
    { destruct (Z_lt_le_dec 12 k) as [L|L]; [|assumption].
      assert (2 ^ 13 <= 2 ^ k) by (apply Z.pow_le_mono_r; lia).
      change (2 ^ 13) with 8192 in *. lia. }
    assert (C : k = 9 \/ k = 10 \/ k = 11 \/ k = 12) by lia.
    destruct C as [-> | [-> | [-> | ->]]]; reflexivity.
Qed.

Lemma block_size_invalid_table :
  forallb (fun n => Bool.eqb (block_size_invalid (Z.of_nat n))
                             (negb (valid4 (Z.of_nat n))))
          (seq 512 3585) = true.
Proof. vm_compute. reflexivity. Qed.

Lemma block_size_invalid_valid4 bs :
  block_size_invalid bs = negb (valid4 bs).
Proof.
  destruct (Z_lt_le_dec bs 512) as [L|L].
  - assert (V : valid4 bs = false).
    { unfold valid4. now rewrite !(proj2 (Z.eqb_neq bs _)) by lia. }
    rewrite V. unfold block_size_invalid.
    destruct (Z.ltb_spec bs 512); [|lia].
    now rewrite orb_true_r.
  - destruct (Z_lt_le_dec 4096 bs) as [G|G].
    + assert (V : valid4 bs = false).
      { unfold valid4. now rewrite !(proj2 (Z.eqb_neq bs _)) by lia. }
      rewrite V. unfold block_size_invalid.
      destruct (Z.gtb_spec bs 4096); [|lia].
      now rewrite orb_true_r.
    + pose proof block_size_invalid_table as T.
      rewrite forallb_forall in T.
      specialize (T (Z.to_nat bs)).
      rewrite Z2Nat.id in T by lia.
      apply eqb_prop. apply T. apply in_seq. lia.
Qed.

Lemma block_size_invalid_spec bs :
  block_size_invalid bs = false <-> valid_block_size bs.
Proof.
  rewrite block_size_invalid_valid4, <- valid4_spec.
  destruct (valid4 bs); cbn; split; congruence.
Qed.

(** The reader up to the block-size check. *)
Lemma pdb_get_elt_at_index_bad_block_size abfd bs i :
  has_word abfd 32 bs -> block_size_invalid bs = true ->
  pdb_get_elt_at_index i abfd
  = Fail bfd_error_malformed_archive
      (snd (bfd_bread (bfd_seek_set abfd 32) 4)).
Proof.
  intros H Hb. unfold pdb_get_elt_at_index.
  unfold bind at 1. cbn [seek_set].
  rewrite (bind_read_u32 _ _ bs)
    by (apply (has_word_same abfd); [apply same_bytes_seek_set | exact H]).
  rewrite Hb. reflexivity.
Qed.

(** C3.  When the [block_size] field read from the superblock is not a power
    of two within [512, 4096], indexed access fails with
    [bfd_error_malformed_archive]; this covers 0, 256, 768, 1000 and 8192;
    the powers of two from 512 to 4096 pass the check. *)
Theorem block_size_validation (abfd : bfd) (bs i : Z) :
  has_word abfd 32 bs ->
  (~ valid_block_size bs ->
     exists abfd',
       pdb_get_elt_at_index i abfd = Fail bfd_error_malformed_archive abfd')
  /\ (In bs [0; 256; 768; 1000; 8192] -> ~ valid_block_size bs)
  /\ (valid_block_size bs -> block_size_invalid bs = false).
Proof.
  intros H. split; [|split].
  - intros Hn. eexists. apply (pdb_get_elt_at_index_bad_block_size abfd bs i H).
    destruct (block_size_invalid bs) eqn:E; [reflexivity|].
    apply block_size_invalid_spec in E. contradiction.
  - intros Hin Hv. apply valid4_spec in Hv.
    cbn [In] in Hin.
    repeat (destruct Hin as [<- | Hin]; [discriminate Hv|]). exact Hin.
  - apply block_size_invalid_spec.
Qed.

Lemma block_size_validation_witness :
  has_word bad_header 32 768
  /\ (~ valid_block_size 768 ->
        exists abfd',
          pdb_get_elt_at_index 0 bad_header
          = Fail bfd_error_malformed_archive abfd')
  /\ (In 768 [0; 256; 768; 1000; 8192] -> ~ valid_block_size 768)
  /\ (valid_block_size 768 -> block_size_invalid 768 = false).
Proof.
  assert (H : has_word bad_header 32 768).
  { unfold has_word. split; [lia | split; [cbn; lia | vm_compute; reflexivity]]. }
  split; [exact H | exact (block_size_validation bad_header 768 0 H)].
Defined.

(* ================================================================= *)
(** ** The block allocator *)

Ltac u32_lia :=
  unfold u32, u64 in *;
  change (2 ^ 32) with 4294967296 in *;
  change (2 ^ 64) with 18446744073709551616 in *;
  Z.div_mod_to_equations; lia.

Lemma pdb_allocate_block_step (nb : Z) :
  0 <= nb < 2 ^ 32 -> nb mod 1024 <> 2 ->
  ~ reserved_slot (fst (pdb_allocate_block nb 1024))
  /\ 0 <= snd (pdb_allocate_block nb 1024) < 2 ^ 32
  /\ snd (pdb_allocate_block nb 1024) mod 1024 <> 2.
Proof.
  intros R M. unfold pdb_allocate_block, reserved_slot.
  destruct (Z.eqb_spec (nb mod 1024) 1) as [E|E]; cbn [fst snd].
  - split; [|split]; u32_lia.
  - split; [|split]; u32_lia.
Qed.

Lemma alloc_seq_not_reserved (n : nat) : forall nb b,
  0 <= nb < 2 ^ 32 -> nb mod 1024 <> 2 ->
  In b (alloc_seq n nb 1024) -> ~ reserved_slot b.
Proof.
  induction n as [|n IH]; intros nb b R M Hin; [contradiction|].
  cbn [alloc_seq] in Hin.
  pose proof (pdb_allocate_block_step nb R M) as (A & B & C).
  destruct (pdb_allocate_block nb 1024) as [blk nb']. cbn [fst snd] in *.
  destruct Hin as [<- | Hin]; [exact A | exact (IH nb' b B C Hin)].
Qed.

(* ================================================================= *)
(** ** The free block map *)

Ltac break_tests :=
  repeat match goal with
    | |- context [?a <? ?b] => destruct (Z.ltb_spec a b)
    | |- context [?a <=? ?b] => destruct (Z.leb_spec a b)
    | |- context [?a >? ?b] => destruct (Z.gtb_spec a b)
    | |- context [?a >=? ?b] => destruct (Z.geb_spec a b)
    | |- context [?a =? ?b] => destruct (Z.eqb_spec a b)
    end.

Lemma partial_byte_bits (m p : Z) :
  1 <= m <= 7 -> 0 <= p <= 7 ->
  bit_of_byte (byte_of_Z (Z.shiftl 1 (8 - m) - 1)) p = (m <=? p).
Proof.
  intros Hm Hp.
  assert (Cm : m = 1 \/ m = 2 \/ m = 3 \/ m = 4 \/ m = 5 \/ m = 6 \/ m = 7)
    by lia.
  assert (Cp : p = 0 \/ p = 1 \/ p = 2 \/ p = 3 \/ p = 4 \/ p = 5 \/ p = 6
               \/ p = 7) by lia.
  repeat (destruct Cm as [-> | Cm]); try subst m;
    repeat (destruct Cp as [-> | Cp]); try subst p; reflexivity.
Qed.

Lemma bit_of_byte_xff (p : Z) : 0 <= p <= 7 -> bit_of_byte xff p = true.
Proof.
  intros Hp.
  assert (Cp : p = 0 \/ p = 1 \/ p = 2 \/ p = 3 \/ p = 4 \/ p = 5 \/ p = 6
               \/ p = 7) by lia.
  repeat (destruct Cp as [-> | Cp]); try subst p; reflexivity.
Qed.

Lemma bit_of_byte_x00 (p : Z) : bit_of_byte x00 p = false.
Proof. unfold bit_of_byte. apply Z.testbit_0_l. Qed.

(** The bits of one block of the map: the first [r] are 0, the others 1. *)
Lemma bitmap_fill_bits (buf : buffer) (bs r k : Z) :
  0 < bs -> 8 * bs < 2 ^ 32 -> 0 <= r -> 0 <= k < 8 * bs ->
  bit_of_byte (bitmap_fill buf bs r (k / 8)) (k mod 8) = (r <=? k).
Proof.
  intros Hbs Hbs8 Hr Hk.
  assert (U : u32 (bs * 8) = bs * 8) by (unfold u32; apply Z.mod_small; lia).
  pose proof (Z.div_mod k 8 ltac:(lia)) as Ek.
  pose proof (Z.mod_pos_bound k 8 ltac:(lia)) as Bk.
  pose proof (Z.div_mod r 8 ltac:(lia)) as Er.
  pose proof (Z.mod_pos_bound r 8 ltac:(lia)) as Br.
  set (j := k / 8) in *. set (p := k mod 8) in *.
  set (a := r / 8) in *. set (m := r mod 8) in *.
  unfold bitmap_fill. rewrite U. fold a. fold m.
  unfold memset, buf_store.
  repeat (break_tests; cbn [andb negb]; cbv beta iota; try lia);
    first [ rewrite bit_of_byte_xff by lia
          | rewrite bit_of_byte_x00
          | rewrite partial_byte_bits by lia ];
    break_tests; try reflexivity; lia.
Qed.

(* ================================================================= *)
(** ** Writes and what they leave in place *)

Lemma zlen_nonneg {A} (l : list A) : 0 <= zlen l.
Proof. unfold zlen. lia. Qed.

Lemma zlen_app {A} (l1 l2 : list A) : zlen (l1 ++ l2) = zlen l1 + zlen l2.
Proof. unfold zlen. rewrite length_app. lia. Qed.

Lemma zlen_putl32 x : zlen (bfd_putl32 x) = 4.
Proof. reflexivity. Qed.

Lemma where_bwrite f d : where_ (bfd_bwrite f d) = where_ f + zlen d.
Proof. destruct d; cbn; [lia | reflexivity]. Qed.

Lemma size_bwrite_le f d : size f <= size (bfd_bwrite f d).
Proof. destruct d; cbn [bfd_bwrite size]; lia. Qed.

Lemma size_bwrite f d :
  d <> [] -> size (bfd_bwrite f d) = Z.max (size f) (where_ f + zlen d).
Proof. destruct d; [congruence | reflexivity]. Qed.

Lemma contents_bwrite f d o :
  d <> [] ->
  contents (bfd_bwrite f d) o
  = if (where_ f <=? o) && (o <? where_ f + zlen d)
    then nth (Z.to_nat (o - where_ f)) d x00
    else if size f <=? o then x00 else contents f o.
Proof. destruct d; [congruence | reflexivity]. Qed.

(** A write leaves its bytes at the position where it started. *)
Lemma has_bwrite_here f d :
  0 <= where_ f -> d <> [] -> has (bfd_bwrite f d) (where_ f) d.
Proof.
  intros Hw Hd. split; [assumption | split].
  - rewrite size_bwrite by assumption. lia.
  - apply (nth_ext _ _ x00 x00); [apply peek_length|].
    intros k Hk. rewrite peek_length in Hk.
    rewrite nth_peek by assumption.
    rewrite contents_bwrite by assumption.
    unfold zlen.
    destruct (Z.leb_spec (where_ f) (where_ f + Z.of_nat k)); [|lia].
    destruct (Z.ltb_spec (where_ f + Z.of_nat k)
                (where_ f + Z.of_nat (length d))); [|lia].
    cbn [andb]. f_equal. lia.
Qed.

(** A write leaves the bytes outside its range as they were. *)
Lemma has_bwrite_frame f d o l :
  has f o l -> o + zlen l <= where_ f \/ where_ f + zlen d <= o ->
  has (bfd_bwrite f d) o l.
Proof.
  intros (A & B & C) Hdis.
  destruct d as [|b d']; [repeat split; assumption|].
  set (d := b :: d') in *.
  assert (Hd : d <> []) by discriminate.
  split; [assumption | split].
  - pose proof (size_bwrite_le f d). lia.
  - rewrite <- C at 2. apply peek_ext. intros k Hk.
    rewrite contents_bwrite by assumption.
    unfold zlen in *.
    destruct (Z.leb_spec (where_ f) (o + k)),
             (Z.ltb_spec (o + k) (where_ f + Z.of_nat (length d)));
      cbn [andb]; try lia;
      destruct (Z.leb_spec (size f) (o + k)); try lia; reflexivity.
Qed.

Lemma zlen_peek f o n : zlen (peek f o n) = Z.of_nat n.
Proof. unfold zlen. now rewrite peek_length. Qed.

Lemma has_word_bwrite_frame f d o v :
  has_word f o v -> o + 4 <= where_ f \/ where_ f + zlen d <= o ->
  has_word (bfd_bwrite f d) o v.
Proof.
  intros (A & B & C) Hdis.
  assert (H : has f o (peek f o 4)).
  { split; [assumption | split];
      [rewrite zlen_peek; lia | now rewrite peek_length]. }
  apply (has_bwrite_frame f d) in H; [|rewrite zlen_peek; lia].
  destruct H as (A' & B' & C'). rewrite peek_length in C'.
  rewrite zlen_peek in B'.
  split; [assumption | split; [lia|]].
  unfold word_at in *. now rewrite C'.
Qed.

(** A word that was written reads back as its low 32 bits. *)
Lemma has_word_of_has f o x : has f o (bfd_putl32 x) -> has_word f o (u32 x).
Proof.
  intros (A & B & C). split; [assumption | split; [exact B|]].
  unfold word_at. change (length (bfd_putl32 x)) with 4%nat in C.
  rewrite C. apply bfd_getl32_putl32.
Qed.

Lemma has_app f o l1 l2 :
  has f o (l1 ++ l2) -> has f o l1 /\ has f (o + zlen l1) l2.
Proof.
  intros (A & B & C). rewrite zlen_app in B.
  pose proof (zlen_nonneg l1). pose proof (zlen_nonneg l2).
  split; (split; [lia | split; [lia|]]).
  - apply (nth_ext _ _ x00 x00); [apply peek_length|].
    intros k Hk. rewrite peek_length in Hk.
    rewrite nth_peek by assumption.
    rewrite <- (app_nth1 l1 l2 x00 Hk). rewrite <- C.
    rewrite nth_peek; [reflexivity | rewrite length_app; lia].
  - apply (nth_ext _ _ x00 x00); [apply peek_length|].
    intros k Hk. rewrite peek_length in Hk.
    rewrite nth_peek by assumption.
    replace (nth k l2 x00) with (nth (length l1 + k) (l1 ++ l2) x00)
      by (rewrite app_nth2_plus; reflexivity).
    rewrite <- C.
    rewrite nth_peek by (rewrite length_app; lia).
    f_equal. unfold zlen. lia.
Qed.

Lemma has_nth f o l k :
  has f o l -> 0 <= k < zlen l -> contents f (o + k) = nth (Z.to_nat k) l x00.
Proof.
  intros (A & B & C) Hk. rewrite <- C. unfold zlen in Hk.
  rewrite nth_peek by lia. f_equal. lia.
Qed.

Lemma buf_bytes_length buf n : 0 <= n -> zlen (buf_bytes buf n) = n.
Proof.
  intros H. unfold zlen, buf_bytes. rewrite length_map, length_seq. lia.
Qed.

Lemma nth_buf_bytes buf n k :
  0 <= k < n -> nth (Z.to_nat k) (buf_bytes buf n) x00 = buf k.
Proof.
  intros H. unfold buf_bytes.
  rewrite (nth_indep _ x00 (buf (Z.of_nat 0)))
    by (rewrite length_map, length_seq; lia).
  rewrite (map_nth (fun k => buf (Z.of_nat k))).
  rewrite seq_nth by lia. f_equal. lia.
Qed.

Lemma buf_bytes_nonempty buf n : 0 < n -> buf_bytes buf n <> [].
Proof.
  intros H E. apply (f_equal zlen) in E.
  rewrite buf_bytes_length in E by lia. cbn in E. lia.
Qed.

(* ================================================================= *)
(** ** The blocks of the free block map in the stream *)

Section Bitmap.

Variable bs : Z.
Hypothesis bs_pos : 0 < bs.
Hypothesis bs_small : 8 * bs < 2 ^ 32.

Lemma fpm_offset_mono i j : 0 <= i < j -> fpm_offset bs i + bs <= fpm_offset bs j.
Proof. unfold fpm_offset. nia. Qed.

Lemma fpm_offset_u32 i :
  0 <= i -> fpm_offset bs i + bs <= 2 ^ 32 ->
  u32 (u32 (u32 (i * bs) + 1) * bs) = fpm_offset bs i /\ i + 1 < 2 ^ 32.
Proof.
  unfold fpm_offset. intros Hi Hb.
  assert (0 <= i * bs) by nia.
  assert (i * bs + 1 < 2 ^ 32) by nia.
  assert (i + 1 < 2 ^ 32) by nia.
  split; [|assumption].
  unfold u32. rewrite (Z.mod_small (i * bs)) by lia.
  rewrite (Z.mod_small (i * bs + 1)) by lia.
  apply Z.mod_small. nia.
Qed.

Lemma bitmap_rest_iter_eq (j : nat) : forall r,
  0 <= r < 2 ^ 32 ->
  bitmap_rest_iter j bs r = Z.max 0 (r - Z.of_nat j * (8 * bs)).
Proof.
  assert (U : u32 (bs * 8) = bs * 8) by (unfold u32; apply Z.mod_small; lia).
  induction j as [|j IH]; intros r Hr; [cbn; lia|].
  cbn [bitmap_rest_iter].
  assert (Hrest : bitmap_rest bs r = Z.max 0 (r - 8 * bs)).
  { unfold bitmap_rest. rewrite U.
    destruct (Z.ltb_spec r (bs * 8)); [lia|].
    unfold u32. rewrite Z.mod_small; lia. }
  rewrite Hrest, IH by lia. lia.
Qed.

Lemma write_bitmap_blocks_spec (n : nat) : forall i buf r f,
  0 <= i -> 0 <= r < 2 ^ 32 ->
  (forall j, (j < n)%nat -> fpm_offset bs (i + Z.of_nat j) + bs <= 2 ^ 32) ->
  exists out,
    write_bitmap_blocks n i buf bs r f = Done tt out
    /\ (forall j k, (j < n)%nat -> 0 <= k < 8 * bs ->
          bit_at out (fpm_offset bs (i + Z.of_nat j)) k
          = (bitmap_rest_iter j bs r <=? k))
    /\ (forall j, (j < n)%nat ->
          fpm_offset bs (i + Z.of_nat j) + bs <= size out)
    /\ (forall o l, has f o l ->
          (forall j, (j < n)%nat ->
             o + zlen l <= fpm_offset bs (i + Z.of_nat j)
             \/ fpm_offset bs (i + Z.of_nat j) + bs <= o) ->
          has out o l)
    /\ size f <= size out.
Proof.
  assert (U : u32 (bs * 8) = bs * 8) by (unfold u32; apply Z.mod_small; lia).
  induction n as [|n IH]; intros i buf r f Hi Hr Hb.
  - exists f. cbn [write_bitmap_blocks ret].
    split; [reflexivity|].
    split; [intros; lia|]. split; [intros; lia|].
    split; [intros; assumption | lia].
  - cbn [write_bitmap_blocks].
    unfold bind at 1. cbn [seek_set].
    unfold bind at 1. cbn [bwrite].
    pose proof (Hb 0%nat ltac:(lia)) as Hb0.
    rewrite Z.add_0_r in Hb0.
    destruct (fpm_offset_u32 i Hi Hb0) as [Eo Ei]. rewrite Eo.
    set (buf1 := bitmap_fill buf bs r).
    set (f1 := bfd_bwrite (bfd_seek_set f (fpm_offset bs i))
                 (buf_bytes buf1 bs)).
    assert (Hr1 : 0 <= bitmap_rest bs r < 2 ^ 32).
    { unfold bitmap_rest. rewrite U.
      destruct (Z.ltb_spec r (bs * 8)); [lia|].
      unfold u32. rewrite Z.mod_small; lia. }
    assert (Hhere : has f1 (fpm_offset bs i) (buf_bytes buf1 bs)).
    { apply (has_bwrite_here (bfd_seek_set f (fpm_offset bs i))).
      - cbn [bfd_seek_set where_]. unfold fpm_offset. nia.
      - apply buf_bytes_nonempty. assumption. }
    assert (Ei' : u32 (i + 1) = i + 1)
      by (unfold u32; apply Z.mod_small; lia).
    rewrite Ei'.
    destruct (IH (i + 1) buf1 (bitmap_rest bs r) f1 ltac:(lia) Hr1)
      as (out & Erun & Hbits & Hsize & Hframe & Hmono).
    { intros j Hj. replace (i + 1 + Z.of_nat j) with (i + Z.of_nat (S j))
        by lia. apply Hb. lia. }
    exists out. split; [exact Erun|].
    assert (Hblock0 : has out (fpm_offset bs i) (buf_bytes buf1 bs)).
    { apply Hframe; [exact Hhere|]. intros j Hj. left.
      rewrite buf_bytes_length by lia. apply fpm_offset_mono. lia. }
    split; [|split; [|split]].
    + intros j k Hj Hk. destruct j as [|j].
      * rewrite Z.add_0_r. cbn [bitmap_rest_iter]. unfold bit_at.
        assert (Hk8 : 0 <= k / 8 < bs) by (Z.div_mod_to_equations; lia).
        rewrite (has_nth out (fpm_offset bs i) (buf_bytes buf1 bs) (k / 8))
          by (try assumption; rewrite buf_bytes_length; lia).
        rewrite nth_buf_bytes by assumption.
        apply bitmap_fill_bits; lia.
      * replace (i + Z.of_nat (S j)) with (i + 1 + Z.of_nat j) by lia.
        cbn [bitmap_rest_iter]. apply Hbits; [lia | assumption].
    + intros j Hj. destruct j as [|j].
      * rewrite Z.add_0_r. destruct Hblock0 as (_ & B & _).
        rewrite buf_bytes_length in B; lia.
      * replace (i + Z.of_nat (S j)) with (i + 1 + Z.of_nat j) by lia.
        apply Hsize. lia.
    + intros o l Hh Hdis. apply Hframe.
      * apply has_bwrite_frame.
        -- apply (has_same f); [apply same_bytes_seek_set | exact Hh].
        -- cbn [bfd_seek_set where_]. rewrite buf_bytes_length by lia.
           specialize (Hdis 0%nat ltac:(lia)). rewrite Z.add_0_r in Hdis.
           exact Hdis.
      * intros j Hj.
        replace (i + 1 + Z.of_nat j) with (i + Z.of_nat (S j)) by lia.
        apply Hdis. lia.
    + pose proof (size_bwrite_le (bfd_seek_set f (fpm_offset bs i))
                    (buf_bytes buf1 bs)) as Hs.
      cbn [bfd_seek_set size] in Hs. fold f1 in Hs. lia.
Qed.

End Bitmap.

(** C9.  In the free block map that [pdb_write_bitmap] emits, read as a
    sequence of bits (most significant bit of each byte first, the blocks in
    the order of their intervals) with 0 for used and 1 for free, the first
    [num_blocks - 1] bits are 0 and every other bit of the blocks written is
    1; the count of used bits still to write goes down by [8 * block_size]
    per interval and stops at zero. *)
Theorem free_map_bits (junk : buffer) (f : bfd) (bs nb : Z) :
  0 < bs -> 8 * bs < 2 ^ 32 -> 1 <= nb -> nb + bs - 1 < 2 ^ 32 ->
  fpm_offset bs ((nb + bs - 1) / bs - 1) + bs <= 2 ^ 32 ->
  exists out,
    pdb_write_bitmap junk bs nb f = Done tt out
    /\ (forall i k, 0 <= i < (nb + bs - 1) / bs -> 0 <= k < 8 * bs ->
          fpm_offset bs i + bs <= size out
          /\ bit_at out (fpm_offset bs i) k
             = negb (i * (8 * bs) + k <? nb - 1))
    /\ (forall i : nat,
          bitmap_rest_iter i bs (nb - 1)
          = Z.max 0 (nb - 1 - Z.of_nat i * (8 * bs))).
Proof.
  intros Hbs H8 Hnb Hwrap Hlast.
  unfold pdb_write_bitmap.
  assert (U1 : u32 (nb + bs - 1) = nb + bs - 1)
    by (unfold u32; apply Z.mod_small; lia).
  assert (U2 : u32 (nb - 1) = nb - 1)
    by (unfold u32; apply Z.mod_small; lia).
  rewrite U1, U2.
  set (n := (nb + bs - 1) / bs) in *.
  assert (Hn : 1 <= n).
  { unfold n. apply Z.div_le_lower_bound; lia. }
  destruct (write_bitmap_blocks_spec bs Hbs H8 (Z.to_nat n) 0 junk (nb - 1) f)
    as (out & Erun & Hbits & Hsize & _ & _); [lia | lia | |].
  { intros j Hj. rewrite Z.add_0_l.
    destruct (Z.eq_dec (Z.of_nat j) (n - 1)) as [E|E]; [now rewrite E|].
    pose proof (fpm_offset_mono bs Hbs (Z.of_nat j) (n - 1) ltac:(lia)).
    assert (0 < bs * 1) by lia. lia. }
  exists out. split; [exact Erun|]. split.
  - intros i k Hi Hk.
    specialize (Hbits (Z.to_nat i) k ltac:(lia) Hk).
    specialize (Hsize (Z.to_nat i) ltac:(lia)).
    rewrite Z.add_0_l, Z2Nat.id in Hbits, Hsize by lia.
    split; [exact Hsize|]. rewrite Hbits.
    rewrite (bitmap_rest_iter_eq bs Hbs H8) by lia.
    rewrite Z2Nat.id by lia.
    destruct (Z.leb_spec (Z.max 0 (nb - 1 - i * (8 * bs))) k),
             (Z.ltb_spec (i * (8 * bs) + k) (nb - 1)); cbn [negb];
      try reflexivity; lia.
  - intros i. apply (bitmap_rest_iter_eq bs Hbs H8). lia.
Qed.

Lemma free_map_bits_witness :
  exists out,
    pdb_write_bitmap (fun _ => xaa) 1024 11 empty_bfd = Done tt out
    /\ (forall i k, 0 <= i < (11 + 1024 - 1) / 1024 -> 0 <= k < 8 * 1024 ->
          fpm_offset 1024 i + 1024 <= size out
          /\ bit_at out (fpm_offset 1024 i) k
             = negb (i * (8 * 1024) + k <? 11 - 1))
    /\ (forall i : nat,
          bitmap_rest_iter i 1024 (11 - 1)
          = Z.max 0 (11 - 1 - Z.of_nat i * (8 * 1024))).
Proof.
  apply (free_map_bits (fun _ => xaa) empty_bfd 1024 11).
  - lia.
  - reflexivity.
  - lia.
  - reflexivity.
  - vm_compute. discriminate.
Defined.

(* ================================================================= *)
(** ** The reader always returns *)

Lemma bind_returns {A B} (c : io A) (k : A -> io B) f :
  c f <> Diverge ->
  (forall a f', c f = Done a f' -> k a f' <> Diverge) ->
  bind c k f <> Diverge.
Proof.
  unfold bind. intros Hc Hk.
  destruct (c f) as [a f'| |]; [now apply Hk | discriminate | contradiction].
Qed.

Lemma seek_set_returns p f : seek_set p f <> Diverge.
Proof. discriminate. Qed.

Lemma seek_cur_returns p f : seek_cur p f <> Diverge.
Proof. discriminate. Qed.

Lemma read_u32_returns f : read_u32 f <> Diverge.
Proof.
  unfold read_u32. destruct (bfd_bread f 4) as [b f'].
  destruct (zlen b =? 4); discriminate.
Qed.

Lemma read_u32_range f v f' : read_u32 f = Done v f' -> 0 <= v < 2 ^ 32.
Proof.
  unfold read_u32. destruct (bfd_bread f 4) as [b g].
  destruct (zlen b =? 4); [|discriminate].
  intros E. injection E as <- _. apply bfd_getl32_range.
Qed.

Lemma locate_dir_block_returns bs bma fdb d f :
  locate_dir_block bs bma fdb d f <> Diverge.
Proof.
  unfold locate_dir_block. destruct (d >=? bs); [|discriminate].
  apply bind_returns; [apply seek_set_returns|].
  intros _ f' _. apply read_u32_returns.
Qed.

Lemma sum_prev_blocks_returns n bs bma d off f :
  sum_prev_blocks n bs bma d off f <> Diverge.
Proof.
  revert d off f. induction n as [|n IH]; intros d off f;
    cbn [sum_prev_blocks]; [discriminate|].
  apply bind_returns.
  - destruct (d mod bs =? 0); [|discriminate].
    apply bind_returns; [apply seek_set_returns|]. intros _ f1 _.
    apply bind_returns; [apply read_u32_returns|]. intros b f2 _.
    apply seek_set_returns.
  - intros _ f1 _.
    apply bind_returns; [apply read_u32_returns|]. intros s f2 _.
    apply IH.
Qed.

Lemma read_blocks_returns fuel bs bma fs left d block file f :
  0 < bs -> 0 <= left < 2 ^ 32 -> left / bs < Z.of_nat fuel ->
  read_blocks fuel bs bma fs left d block file f <> Diverge.
Proof.
  intros Hbs. revert left d block file f.
  induction fuel as [|fuel IH]; intros left d block file f Hl Hf.
  - pose proof (Z.div_pos left bs). lia.
  - cbn [read_blocks].
    apply bind_returns.
    { destruct ((d mod bs =? 0) && negb (left =? fs)); [|discriminate].
      apply bind_returns; [apply seek_set_returns|]. intros _ f1 _.
      apply read_u32_returns. }
    intros b f1 _.
    apply bind_returns; [apply seek_set_returns|]. intros _ f2 _.
    apply bind_returns; [apply read_u32_returns|]. intros fb f3 _.
    apply bind_returns; [apply seek_set_returns|]. intros _ f4 _.
    destruct (bfd_bread f4 (if left >? bs then bs else left)) as [buf f5].
    destruct (negb (zlen buf =? (if left >? bs then bs else left)));
      [discriminate|].
    destruct (Z.gtb_spec left bs) as [G|G]; [|discriminate].
    assert (U : u32 (left - bs) = left - bs).
    { unfold u32. apply Z.mod_small. lia. }
    rewrite U. apply IH; [lia|].
    replace left with ((left - bs) + 1 * bs) in Hf by lia.
    rewrite Z.div_add in Hf by lia. lia.
Qed.

(** Whatever the file holds, and for every index, [pdb_get_elt_at_index]
    returns: the bound on the iterations of its last loop is never
    reached. *)
Lemma pdb_get_elt_at_index_returns i f :
  pdb_get_elt_at_index i f <> Diverge.
Proof.
  unfold pdb_get_elt_at_index.
  apply bind_returns; [apply seek_set_returns|]. intros _ f1 _.
  apply bind_returns; [apply read_u32_returns|]. intros bs f2 _.
  destruct (block_size_invalid bs) eqn:V; [discriminate|].
  apply block_size_invalid_spec in V. destruct V as [_ Hbs].
  apply bind_returns; [apply seek_cur_returns|]. intros _ f3 _.
  apply bind_returns; [apply read_u32_returns|]. intros bma f4 _.
  apply bind_returns; [apply seek_set_returns|]. intros _ f5 _.
  apply bind_returns; [apply read_u32_returns|]. intros fdb f6 _.
  apply bind_returns; [apply seek_set_returns|]. intros _ f7 _.
  apply bind_returns; [apply read_u32_returns|]. intros nf f8 _.
  destruct (i >=? nf); [discriminate|].
  apply bind_returns; [apply locate_dir_block_returns|]. intros b f9 _.
  apply bind_returns; [apply seek_set_returns|]. intros _ f10 _.
  apply bind_returns; [apply read_u32_returns|]. intros fs f11 Hfs.
  apply read_u32_range in Hfs.
  set (fs' := if fs =? 0xffffffff then 0 else fs).
  assert (Hfs' : 0 <= fs' < 2 ^ 32).
  { subst fs'. destruct (fs =? 0xffffffff); [|assumption].
    change (2 ^ 32) with 4294967296. lia. }
  destruct (fs' =? 0); [discriminate|].
  apply bind_returns.
  { destruct (negb (i =? 0)); [|discriminate].
    apply bind_returns; [apply seek_set_returns|]. intros _ f12 _.
    apply sum_prev_blocks_returns. }
  intros off f12 _.
  apply bind_returns; [apply locate_dir_block_returns|]. intros b' f13 _.
  apply read_blocks_returns; [lia | assumption |].
  assert (0 <= fs' / bs) by (apply Z.div_pos; lia).
  rewrite Nat2Z.inj_succ, Z2Nat.id by assumption. lia.
Qed.

(** Hence an enumeration ends on an error as soon as the bound on the
    number of streams is not reached. *)
Lemma pdb_openr_next_archived_file_returns last f :
  pdb_openr_next_archived_file last f <> Diverge.
Proof.
  destruct last as [s|]; cbn [pdb_openr_next_archived_file];
    apply pdb_get_elt_at_index_returns.
Qed.

(* ================================================================= *)
(** ** Enumeration of the streams *)

Lemma post_bind {A B} (c : io A) (k : A -> io B) (P : A -> Prop)
    (Q : B -> Prop) :
  post c P -> (forall x, P x -> post (k x) Q) -> post (bind c k) Q.
Proof.
  intros Hc Hk f b f'' E. unfold bind in E.
  destruct (c f) as [a f'| |] eqn:Ec; try discriminate.
  exact (Hk a (Hc f a f' Ec) f' b f'' E).
Qed.

Lemma post_any {A} (c : io A) : post c (fun _ => True).
Proof. intros f a f' _. exact I. Qed.

Lemma post_ret {A} (a : A) (Q : A -> Prop) : Q a -> post (ret a) Q.
Proof. intros H f b f' [= <- _]. exact H. Qed.

Lemma post_fail {A} e (Q : A -> Prop) : post (fail e) Q.
Proof. intros f b f' E. discriminate E. Qed.

Lemma post_read_u32 : post read_u32 (fun v => 0 <= v < 2 ^ 32).
Proof.
  intros f v f' E. unfold read_u32 in E.
  destruct (bfd_bread f 4) as [buf g].
  destruct (zlen buf =? 4); [|discriminate].
  injection E as <- _. apply bfd_getl32_range.
Qed.

Lemma arelt_data_bwrite f d : arelt_data (bfd_bwrite f d) = arelt_data f.
Proof. destruct d; reflexivity. Qed.

Lemma filename_bwrite f d : filename (bfd_bwrite f d) = filename f.
Proof. destruct d; reflexivity. Qed.

Lemma post_read_blocks (fuel : nat) :
  forall bs bma fsz left d blk file,
    post (read_blocks fuel bs bma fsz left d blk file)
         (fun r => arelt_data r = arelt_data file
                   /\ filename r = filename file).
Proof.
  induction fuel as [|fuel IH]; intros bs bma fsz left d blk file.
  - intros f a f' E. discriminate E.
  - cbn [read_blocks].
    eapply post_bind; [apply post_any|]. intros blk' _.
    eapply post_bind; [apply post_any|]. intros _ _.
    eapply post_bind; [apply post_any|]. intros fb _.
    eapply post_bind; [apply post_any|]. intros _ _.
    intros f r f' E.
    destruct (bfd_bread f (if left >? bs then bs else left)) as [buf g].
    destruct (negb (zlen buf =? (if left >? bs then bs else left)));
      [discriminate|].
    destruct (left >? bs).
    + apply IH in E. rewrite arelt_data_bwrite, filename_bwrite in E.
      exact E.
    + injection E as <- _.
      now rewrite arelt_data_bwrite, filename_bwrite.
Qed.

(** What indexed access returns: the element records its index, has the
    name made from it, and the index is below the stream count. *)
Lemma post_pdb_get_elt_at_index (i : Z) :
  post (pdb_get_elt_at_index i)
       (fun file => key (arch_eltdata file) = i
                    /\ filename file = sprintf_04lx i
                    /\ i < 2 ^ 32).
Proof.
  unfold pdb_get_elt_at_index.
  eapply post_bind; [apply post_any|]. intros _ _.
  eapply post_bind; [apply post_any|]. intros bs _.
  destruct (block_size_invalid bs); [apply post_fail|].
  eapply post_bind; [apply post_any|]. intros _ _.
  eapply post_bind; [apply post_any|]. intros bma _.
  eapply post_bind; [apply post_any|]. intros _ _.
  eapply post_bind; [apply post_any|]. intros fdb _.
  eapply post_bind; [apply post_any|]. intros _ _.
  eapply post_bind; [apply post_read_u32|]. intros nf Hnf. cbv beta in Hnf.
  destruct (Z.geb_spec i nf); [apply post_fail|].
  eapply post_bind; [apply post_any|]. intros blk _.
  eapply post_bind; [apply post_any|]. intros _ _.
  eapply post_bind; [apply post_any|]. intros fs _.
  cbv zeta.
  destruct ((if fs =? 4294967295 then 0 else fs) =? 0).
  - apply post_ret. split; [reflexivity | split; [reflexivity | lia]].
  - eapply post_bind; [apply post_any|]. intros boff _.
    eapply post_bind; [apply post_any|]. intros blk2 _.
    intros f r f' E. apply post_read_blocks in E. destruct E as [E1 E2].
    unfold arch_eltdata. rewrite E1, E2.
    split; [reflexivity | split; [reflexivity | lia]].
Qed.

Lemma enumerate_get_from (fuel : nat) : forall i last archive,
  0 <= i -> i < 2 ^ 32 -> key (arch_eltdata last) = i ->
  enumerate fuel (Some last) archive = get_from fuel (i + 1) archive.
Proof.
  induction fuel as [|fuel IH]; intros i last archive Hi Hlt Hk;
    [reflexivity|].
  cbn [enumerate get_from pdb_openr_next_archived_file].
  rewrite Hk.
  replace (u64 (i + 1)) with (i + 1)
    by (unfold u64; rewrite Z.mod_small; [reflexivity|];
        change (2 ^ 32) with 4294967296 in Hlt;
        change (2 ^ 64) with 18446744073709551616; lia).
  destruct (pdb_get_elt_at_index (i + 1) archive) as [file a'| |] eqn:E;
    try reflexivity.
  apply post_pdb_get_elt_at_index in E. destruct E as (Ek & _ & Elt).
  now rewrite (IH (i + 1) file a') by lia.
Qed.

(** C7.  Enumerating with the "next after last" protocol gives the same
    streams, and ends on the same error, as indexed access at 0, 1, 2, ...;
    the first step is indexed access at 0, and the step after a stream [s]
    is indexed access at the index stored in [s] plus one, where the index
    stored at extraction is the index that was asked for. *)
Theorem enumeration_is_indexed_access (fuel : nat) (archive : bfd) :
  enumerate fuel None archive = get_from fuel 0 archive
  /\ pdb_openr_next_archived_file None archive
     = pdb_get_elt_at_index 0 archive
  /\ (forall i s archive', 0 <= i ->
        pdb_get_elt_at_index i archive = Done s archive' ->
        key (arch_eltdata s) = i
        /\ forall a, pdb_openr_next_archived_file (Some s) a
                     = pdb_get_elt_at_index (i + 1) a).
Proof.
  split; [|split].
  - destruct fuel as [|fuel]; [reflexivity|].
    cbn [enumerate get_from pdb_openr_next_archived_file].
    destruct (pdb_get_elt_at_index 0 archive) as [file a'| |] eqn:E;
      try reflexivity.
    apply post_pdb_get_elt_at_index in E. destruct E as (Ek & _ & Elt).
    now rewrite (enumerate_get_from fuel 0 file a') by lia.
  - reflexivity.
  - intros i s a' Hi E.
    apply post_pdb_get_elt_at_index in E. destruct E as (Ek & _ & Elt).
    split; [exact Ek|]. intros a.
    cbn [pdb_openr_next_archived_file]. rewrite Ek.
    replace (u64 (i + 1)) with (i + 1); [reflexivity|].
    unfold u64. rewrite Z.mod_small; [reflexivity|].
    change (2 ^ 32) with 4294967296 in Elt.
    change (2 ^ 64) with 18446744073709551616. lia.
Qed.

(* ================================================================= *)
(** ** The directory as the reader sees it *)

Lemma valid_block_size_cases bs :
  valid_block_size bs -> bs = 512 \/ bs = 1024 \/ bs = 2048 \/ bs = 4096.
Proof.
  intros H. apply valid4_spec in H. unfold valid4 in H.
  repeat (apply orb_true_iff in H; destruct H as [H|H]);
    apply Z.eqb_eq in H; auto.
Qed.

Lemma reader_blocks_nonneg bs s : 0 < bs -> 0 <= reader_blocks bs s.
Proof.
  intros H. unfold reader_blocks, u32. apply Z.div_pos; [|assumption].
  apply Z.mod_pos_bound. reflexivity.
Qed.

Lemma sum_blocks_nonneg bs l : 0 < bs -> 0 <= sum_blocks bs l.
Proof.
  intros H. unfold sum_blocks.
  induction l as [|s l IH]; cbn [fold_right]; [lia|].
  pose proof (reader_blocks_nonneg bs (norm_size s) H). lia.
Qed.

Lemma sum_blocks_app bs l1 l2 :
  sum_blocks bs (l1 ++ l2) = sum_blocks bs l1 + sum_blocks bs l2.
Proof.
  unfold sum_blocks.
  induction l1 as [|s l1 IH]; cbn [fold_right app]; [lia|].
  rewrite IH. lia.
Qed.

(** Reading bytes that are there. *)
Lemma bfd_bread_has g o l :
  has g o l -> where_ g = o ->
  fst (bfd_bread g (zlen l)) = l
  /\ same_bytes g (snd (bfd_bread g (zlen l))).
Proof.
  intros (A & B & C) W. split; [|apply same_bytes_bread].
  unfold bfd_bread. cbn [fst]. rewrite W.
  replace (Z.to_nat (Z.max 0 (Z.min (zlen l) (size g - o)))) with (length l)
    by (unfold zlen in *; lia).
  exact C.
Qed.

(** Appending to an in-memory stream whose position is at its end. *)
Lemma bfd_bytes_bwrite file buf :
  where_ file = size file -> 0 <= size file ->
  bfd_bytes (bfd_bwrite file buf) = bfd_bytes file ++ buf
  /\ where_ (bfd_bwrite file buf) = size (bfd_bwrite file buf)
  /\ size (bfd_bwrite file buf) = size file + zlen buf.
Proof.
  intros Hw Hs. destruct buf as [|b buf'].
  - cbn [bfd_bwrite]. rewrite app_nil_r.
    split; [reflexivity | split; [assumption | unfold zlen; cbn [length]; lia]].
  - set (buf := b :: buf') in *.
    assert (Hne : buf <> []) by discriminate.
    assert (Hsz : size (bfd_bwrite file buf) = size file + zlen buf).
    { rewrite size_bwrite by assumption. pose proof (zlen_nonneg buf). lia. }
    split; [|split; [rewrite where_bwrite; lia | exact Hsz]].
    unfold bfd_bytes. rewrite Hsz.
    apply (nth_ext _ _ x00 x00).
    + rewrite peek_length, length_app, peek_length. unfold zlen. lia.
    + intros k Hk. rewrite peek_length in Hk.
      rewrite nth_peek by assumption.
      rewrite contents_bwrite by assumption. rewrite Hw, Z.add_0_l.
      unfold zlen in *.
      destruct (Z.leb_spec (size file) (Z.of_nat k)) as [Ge|Lt].
      * destruct (Z.ltb_spec (Z.of_nat k)
                    (size file + Z.of_nat (length buf))); [|lia].
        cbn [andb]. rewrite app_nth2 by (rewrite peek_length; lia).
        rewrite peek_length. f_equal. lia.
      * cbn [andb].
        destruct (Z.leb_spec (size file) (Z.of_nat k)); [lia|].
        rewrite app_nth1 by (rewrite peek_length; lia).
        rewrite nth_peek by lia. now rewrite Z.add_0_l.
Qed.

Lemma firstn_skipn_step {A} (l : list A) (a b : nat) :
  firstn a l ++ firstn b (skipn a l) = firstn (a + b) l.
Proof.
  revert l. induction a as [|a IH]; intros l; [reflexivity|].
  destruct l as [|x l]; cbn [firstn skipn app Nat.add].
  - now rewrite firstn_nil.
  - now rewrite IH.
Qed.

(* ================================================================= *)
(** ** The reader on a laid-out directory *)

Lemma seek_read_state f g o v :
  has_word f o v -> same_bytes f g ->
  has_word (bfd_seek_set g o) (where_ (bfd_seek_set g o)) v
  /\ same_bytes f (snd (bfd_bread (bfd_seek_set g o) 4))
  /\ where_ (snd (bfd_bread (bfd_seek_set g o) 4)) = o + 4.
Proof.
  intros H S.
  assert (S1 : same_bytes f (bfd_seek_set g o))
    by (eapply same_bytes_trans; [exact S | apply same_bytes_seek_set]).
  split; [|split].
  - cbn [bfd_seek_set where_]. exact (has_word_same _ _ _ _ S1 H).
  - eapply same_bytes_trans; [exact S1 | apply same_bytes_bread].
  - destruct H as (A & B & _). destruct S as [_ Es].
    unfold bfd_bread. cbn [snd where_ bfd_seek_set size]. lia.
Qed.

(** Seek to a word and read it, inside a sequence. *)
Lemma run_seek_read {B} f g o o' v (k : Z -> io B) :
  has_word f o v -> same_bytes f g -> o' = o ->
  bind (seek_set o') (fun _ => bind read_u32 k) g
  = k v (snd (bfd_bread (bfd_seek_set g o) 4)).
Proof.
  intros H S ->. unfold bind at 1. cbn [seek_set].
  destruct (seek_read_state f g o v H S) as (H1 & _ & _).
  now rewrite (bind_read_u32 k _ v H1).
Qed.

Lemma seek_read_Done f g o o' v :
  has_word f o v -> same_bytes f g -> o' = o ->
  bind (seek_set o') (fun _ => read_u32) g
  = Done v (snd (bfd_bread (bfd_seek_set g o) 4)).
Proof.
  intros H S ->. unfold bind. cbn [seek_set].
  destruct (seek_read_state f g o v H S) as (H1 & _ & _).
  now apply read_u32_ok with (o := where_ (bfd_seek_set g o)).
Qed.

(** Read the word at the current position, inside a sequence. *)
Lemma run_read {B} f g o v (k : Z -> io B) :
  has_word f o v -> same_bytes f g -> where_ g = o ->
  bind read_u32 k g = k v (snd (bfd_bread g 4))
  /\ same_bytes f (snd (bfd_bread g 4))
  /\ where_ (snd (bfd_bread g 4)) = o + 4.
Proof.
  intros H S Wg.
  assert (H1 : has_word g (where_ g) v)
    by (rewrite Wg; exact (has_word_same _ _ _ _ S H)).
  split; [now apply bind_read_u32|].
  split; [eapply same_bytes_trans; [exact S | apply same_bytes_bread]|].
  destruct H1 as (A & B' & _).
  unfold bfd_bread. cbn [snd where_]. lia.
Qed.

Section Reader.

Variables (f : bfd) (bs bma : Z) (Ds W : list Z).
Hypothesis L : dir_layout f bs bma Ds W.

Lemma layout_bs_cases : bs = 512 \/ bs = 1024 \/ bs = 2048 \/ bs = 4096.
Proof. apply valid_block_size_cases. apply (lay_valid _ _ _ _ _ L). Qed.

Lemma layout_W_small : 4 * zlen W <= 2 ^ 22.
Proof.
  pose proof (lay_fit _ _ _ _ _ L). pose proof (lay_cap _ _ _ _ _ L).
  pose proof (zlen_nonneg Ds). change (2 ^ 22) with 4194304.
  destruct layout_bs_cases as [E | [E | [E | E]]]; rewrite E in *; lia.
Qed.

Lemma layout_dir_index x :
  0 <= x < zlen W -> 0 <= 4 * x / bs < zlen Ds.
Proof.
  intros Hx. pose proof (lay_cap _ _ _ _ _ L).
  destruct layout_bs_cases as [E | [E | [E | E]]]; rewrite E in *;
    Z.div_mod_to_equations; lia.
Qed.

(** The lookup of the directory block that holds word [x]. *)
Lemma run_locate_dir_block x g :
  0 <= x < zlen W -> same_bytes f g ->
  exists g',
    same_bytes f g'
    /\ reads g'
       = reads g ++ (if 4 * x >=? bs
                     then [(bma * bs + 4 * (4 * x / bs), 4)] else [])
    /\ forall B (k : Z -> io B),
         bind (locate_dir_block bs bma (znth Ds 0) (4 * x)) k g
         = k (znth Ds (4 * x / bs)) g'.
Proof.
  intros Hx S. unfold locate_dir_block.
  pose proof (layout_dir_index x Hx) as Hk.
  pose proof (lay_bma_range _ _ _ _ _ L) as [Hb0 Hb1].
  pose proof (lay_fit _ _ _ _ _ L) as Hfit.
  pose proof layout_W_small as Hsm.
  destruct (lay_Ds _ _ _ _ _ L (4 * x / bs) Hk) as (_ & _ & Hw).
  destruct (Z.geb_spec (4 * x) bs) as [Ge|Lt].
  - eexists. split; [apply (seek_read_state f g _ _ Hw S)|].
    split; [reflexivity|].
    intros B k. apply bind_Done.
    apply (seek_read_Done f g _ _ _ Hw S).
    change (2 ^ 22) with 4194304 in Hsm.
    change (2 ^ 32) with 4294967296 in Hb1.
    destruct layout_bs_cases as [E | [E | [E | E]]]; rewrite E in *;
      u32_lia.
  - exists g. split; [exact S|].
    split; [now rewrite app_nil_r|]. intros B k.
    replace (4 * x / bs) with 0; [reflexivity|].
    symmetry. apply Z.div_small. lia.
Qed.

(** Reading word [x] of the directory once its block is known. *)
Lemma run_read_dir_word x g :
  0 <= x < zlen W -> same_bytes f g ->
  exists g',
    same_bytes f g'
    /\ where_ g' = znth Ds (4 * x / bs) * bs + (4 * x) mod bs + 4
    /\ reads g'
       = reads g ++ [(znth Ds (4 * x / bs) * bs + (4 * x) mod bs, 4)]
    /\ forall B (k : Z -> io B),
         bind (seek_set (u32 (u32 (znth Ds (4 * x / bs) * bs)
                              + (4 * x) mod bs)))
              (fun _ => bind read_u32 k) g
         = k (znth W x) g'.
Proof.
  intros Hx S.
  pose proof (layout_dir_index x Hx) as Hk.
  destruct (lay_Ds _ _ _ _ _ L (4 * x / bs) Hk) as (D0 & D1 & _).
  pose proof (lay_W _ _ _ _ _ L x Hx) as Hw.
  destruct (seek_read_state f g _ _ Hw S) as (_ & S' & W').
  eexists. split; [exact S' | split; [exact W' | split; [reflexivity|]]].
  intros B k. eapply run_seek_read; [exact Hw | exact S |].
  change (2 ^ 32) with 4294967296 in D1.
  destruct layout_bs_cases as [E | [E | [E | E]]]; rewrite E in *; u32_lia.
Qed.

Ltac bs_cases :=
  let Ebs := fresh "Ebs" in
  destruct layout_bs_cases as [Ebs | [Ebs | [Ebs | Ebs]]]; rewrite Ebs in *.

(** The loop that adds up the blocks of the streams before the one
    extracted: [l] holds the size entries still to visit, which follow
    word [j] of the directory. *)
Lemma sum_prev_blocks_ok (l : list Z) : forall j boff g,
  same_bytes f g -> 0 <= j -> j + zlen l + 1 <= zlen W ->
  (forall t, 0 <= t < zlen l -> znth l t = znth W (j + 1 + t)) ->
  ((4 * (j + 1)) mod bs <> 0 ->
     where_ g = znth Ds (4 * (j + 1) / bs) * bs + (4 * (j + 1)) mod bs) ->
  0 <= boff -> boff + sum_blocks bs l < 2 ^ 32 ->
  exists g',
    sum_prev_blocks (length l) bs bma (4 * (j + 1)) boff g
    = Done (boff + sum_blocks bs l) g'
    /\ same_bytes f g'.
Proof.
  pose proof layout_W_small as Hsm. change (2 ^ 22) with 4194304 in Hsm.
  pose proof (lay_bma_range _ _ _ _ _ L) as [Hb0 Hb1].
  pose proof (lay_fit _ _ _ _ _ L) as Hfit.
  assert (Hbs : 0 < bs) by (bs_cases; lia).
  induction l as [|s l IH]; intros j boff g S Hj Hlen Hl Hpos Hboff Hsum.
  - exists g. cbn [length sum_prev_blocks sum_blocks fold_right ret].
    rewrite Z.add_0_r. split; [reflexivity | exact S].
  - assert (Hzl : zlen (s :: l) = zlen l + 1)
      by (unfold zlen; cbn [length]; lia).
    pose proof (zlen_nonneg l) as Hl0.
    assert (Hx : 0 <= j + 1 < zlen W) by lia.
    pose proof (layout_dir_index (j + 1) Hx) as Hk.
    destruct (lay_Ds _ _ _ _ _ L (4 * (j + 1) / bs) Hk) as (D0 & D1 & Hmw).
    pose proof (lay_W _ _ _ _ _ L (j + 1) Hx) as Hw.
    assert (Hs : znth W (j + 1) = s).
    { specialize (Hl 0 ltac:(lia)). rewrite Z.add_0_r in Hl.
      rewrite <- Hl. reflexivity. }
    rewrite Hs in Hw.
    cbn [length sum_prev_blocks].
    (* the state after the optional lookup in the block map *)
    assert (Hstep : exists g1,
      same_bytes f g1
      /\ where_ g1 = znth Ds (4 * (j + 1) / bs) * bs + (4 * (j + 1)) mod bs
      /\ forall B (k : unit -> io B),
           bind (if (4 * (j + 1)) mod bs =? 0
                 then
                   bind (seek_set
                           (u32 (u32 (bma * bs)
                                 + u32 (4 * (j + 1) / bs * 4))))
                     (fun _ => bind read_u32
                        (fun block => seek_set (u32 (block * bs))))
                 else ret tt) k g
           = k tt g1).
    { destruct (Z.eqb_spec ((4 * (j + 1)) mod bs) 0) as [E0|E0].
      - destruct (seek_read_state f g _ _ Hmw S) as (_ & S1 & _).
        exists (bfd_seek_set
                  (snd (bfd_bread
                          (bfd_seek_set g
                             (bma * bs + 4 * (4 * (j + 1) / bs))) 4))
                  (znth Ds (4 * (j + 1) / bs) * bs)).
        split; [|split].
        + eapply same_bytes_trans; [exact S1 | apply same_bytes_seek_set].
        + cbn [bfd_seek_set where_]. rewrite E0. lia.
        + intros B k. unfold bind at 1.
          rewrite (run_seek_read f g (bma * bs + 4 * (4 * (j + 1) / bs)) _
                     (znth Ds (4 * (j + 1) / bs)) _ Hmw S).
          * cbn [seek_set]. f_equal. f_equal.
            change (2 ^ 32) with 4294967296 in D1.
            unfold u32. rewrite Z.mod_small; lia.
          * change (2 ^ 32) with 4294967296 in Hb1.
            bs_cases; u32_lia.
      - exists g. split; [exact S | split; [exact (Hpos E0)|]].
        intros B k. reflexivity. }
    destruct Hstep as (g1 & S1 & W1 & Hrun). rewrite Hrun.
    destruct (run_read f g1 _ s
                (fun size =>
                   sum_prev_blocks (length l) bs bma (u32 (4 * (j + 1) + 4))
                     (u32 (boff
                           + u32 ((if size =? 4294967295 then 0 else size)
                                  + bs - 1) / bs))) Hw S1 W1)
      as (Erun & S2 & W2).
    rewrite Erun. clear Erun Hrun.
    fold (norm_size s). fold (reader_blocks bs (norm_size s)).
    pose proof (reader_blocks_nonneg bs (norm_size s) Hbs) as Hrb.
    pose proof (sum_blocks_nonneg bs l Hbs) as Hsb.
    assert (Hsplit : sum_blocks bs (s :: l)
                     = reader_blocks bs (norm_size s) + sum_blocks bs l)
      by reflexivity.
    rewrite Hsplit in *.
    replace (u32 (4 * (j + 1) + 4)) with (4 * (j + 1 + 1))
      by (unfold u32; rewrite Z.mod_small; lia).
    replace (u32 (boff + reader_blocks bs (norm_size s)))
      with (boff + reader_blocks bs (norm_size s))
      by (unfold u32; rewrite Z.mod_small; lia).
    destruct (IH (j + 1) (boff + reader_blocks bs (norm_size s))
                (snd (bfd_bread g1 4)) S2 ltac:(lia) ltac:(lia))
      as (g' & Eg & Sg); try lia.
    + intros t Ht.
      replace (j + 1 + 1 + t) with (j + 1 + (t + 1)) by lia.
      rewrite <- Hl by lia. unfold znth.
      replace (Z.to_nat (t + 1)) with (Datatypes.S (Z.to_nat t)) by lia. reflexivity.
    + intros Hne. rewrite W2.
      assert (Q : 4 * (j + 1 + 1) / bs = 4 * (j + 1) / bs
                  /\ (4 * (j + 1 + 1)) mod bs = (4 * (j + 1)) mod bs + 4)
        by (clear - Hne L; bs_cases; Z.div_mod_to_equations; lia).
      destruct Q as [Q1 Q2]. rewrite Q1, Q2. lia.
    + exists g'. split; [|exact Sg]. rewrite Eg. f_equal. lia.
Qed.

(** The loop that copies the blocks of the stream: [k] blocks are done,
    [file] holds their bytes. *)
Lemma read_blocks_ok (base fs : Z) (payload : list byte) :
  stream_data f bs W base payload -> zlen payload = fs -> fs < 2 ^ 32 ->
  0 <= base ->
  forall fuel k left blk file g,
    same_bytes f g -> 0 <= k -> left = fs - k * bs -> 0 < left ->
    (Z.to_nat ((left - 1) / bs) < fuel)%nat ->
    (k = 0 \/ (4 * (base + k)) mod bs <> 0 ->
       blk = znth Ds (4 * (base + k) / bs)) ->
    where_ file = size file -> size file = k * bs ->
    bfd_bytes file = firstn (Z.to_nat (k * bs)) payload ->
    exists file' g',
      read_blocks fuel bs bma fs left (4 * (base + k)) blk file g
      = Done file' g'
      /\ same_bytes f g' /\ bfd_bytes file' = payload
      /\ arelt_data file' = arelt_data file
      /\ filename file' = filename file.
Proof.
  intros SD Hfs Hfs32 Hbase.
  pose proof layout_W_small as Hsm. change (2 ^ 22) with 4194304 in Hsm.
  pose proof (lay_bma_range _ _ _ _ _ L) as [Hb0 Hb1].
  pose proof (lay_fit _ _ _ _ _ L) as Hfit.
  assert (Hbs : 0 < bs) by (bs_cases; lia).
  induction fuel as [|fuel IH];
    intros k left blk file g Sg Hk Hleft Hpos Hfuel Hblk Hwf Hsf Hbytes;
    [lia|].
  assert (Hkfs : k * bs < zlen payload) by lia.
  destruct (SD k Hk Hkfs) as (Hx & HB0 & HB1 & Hdata).
  set (x := base + k) in *.
  assert (Hx' : 0 <= x < zlen W) by lia.
  pose proof (layout_dir_index x Hx') as Hdi.
  destruct (lay_Ds _ _ _ _ _ L (4 * x / bs) Hdi) as (D0 & D1 & Hmw).
  cbn [read_blocks].
  (* the directory block in use *)
  assert (Hstep : exists g1,
    same_bytes f g1
    /\ forall B (c : Z -> io B),
         bind (if ((4 * x) mod bs =? 0) && negb (left =? fs)
               then
                 bind (seek_set (u32 (u32 (bma * bs)
                                      + u32 (4 * x / bs * 4))))
                   (fun _ => read_u32)
               else ret blk) c g
         = c (znth Ds (4 * x / bs)) g1).
  { destruct (Z.eqb_spec ((4 * x) mod bs) 0) as [E0|E0];
      destruct (Z.eqb_spec left fs) as [E1|E1]; cbn [andb negb].
    - exists g. split; [exact Sg|]. intros B c.
      rewrite Hblk by (left; nia). reflexivity.
    - destruct (seek_read_state f g _ _ Hmw Sg) as (_ & S1 & _).
      eexists. split; [exact S1|]. intros B c.
      apply bind_Done.
      apply (seek_read_Done f g (bma * bs + 4 * (4 * x / bs)) _
               (znth Ds (4 * x / bs)) Hmw Sg).
      change (2 ^ 32) with 4294967296 in Hb1. bs_cases; u32_lia.
    - exists g. split; [exact Sg|]. intros B c.
      rewrite Hblk by (right; exact E0). reflexivity.
    - exists g. split; [exact Sg|]. intros B c.
      rewrite Hblk by (right; exact E0). reflexivity. }
  destruct Hstep as (g1 & S1 & Hrun). rewrite Hrun. clear Hrun.
  destruct (run_read_dir_word x g1 Hx' S1) as (g2 & S2 & _ & _ & Erun).
  rewrite Erun. clear Erun.
  set (B := znth W x) in *.
  unfold bind at 1. cbn [seek_set].
  replace (u32 (B * bs)) with (B * bs)
    by (unfold u32; rewrite Z.mod_small; lia).
  set (chunk := firstn (Z.to_nat bs) (skipn (Z.to_nat (k * bs)) payload))
    in *.
  assert (Hchunk : zlen chunk = if left >? bs then bs else left).
  { unfold chunk, zlen. rewrite length_firstn, length_skipn.
    unfold zlen in Hfs. destruct (Z.gtb_spec left bs); lia. }
  rewrite <- Hchunk.
  assert (S3 : same_bytes f (bfd_seek_set g2 (B * bs)))
    by (eapply same_bytes_trans; [exact S2 | apply same_bytes_seek_set]).
  destruct (bfd_bread_has (bfd_seek_set g2 (B * bs)) (B * bs) chunk
              (has_same _ _ _ _ S3 Hdata) eq_refl) as (Ebuf & S4).
  destruct (bfd_bread (bfd_seek_set g2 (B * bs)) (zlen chunk))
    as [buf g4] eqn:Ebread.
  cbn [fst snd] in Ebuf, S4. subst buf.
  rewrite Z.eqb_refl. cbn [negb].
  assert (S5 : same_bytes f g4)
    by (eapply same_bytes_trans; [exact S3 | exact S4]).
  assert (Hsz0 : 0 <= size file) by nia.
  destruct (bfd_bytes_bwrite file chunk Hwf Hsz0) as (Hb1' & Hb2 & Hb3).
  rewrite Hbytes in Hb1'. unfold chunk in Hb1'.
  rewrite firstn_skipn_step in Hb1'. fold chunk in Hb1'.
  destruct (Z.gtb_spec left bs) as [Gt|Le].
  - (* more blocks follow *)
    assert (Hk1 : (k + 1) * bs < zlen payload) by lia.
    destruct (SD (k + 1) ltac:(lia) Hk1) as (Hx1 & _).
    replace (u32 (left - bs)) with (fs - (k + 1) * bs)
      by (unfold u32; rewrite Z.mod_small; lia).
    replace (u32 (4 * x + 4)) with (4 * (base + (k + 1)))
      by (unfold u32, x; rewrite Z.mod_small; lia).
    destruct (IH (k + 1) (fs - (k + 1) * bs) (znth Ds (4 * x / bs))
                (bfd_bwrite file chunk) g4 S5 ltac:(lia) eq_refl ltac:(lia))
      as (file' & g' & Erun & Sg' & Hpay & Had & Hfn).
    + clear - Hfuel Gt Hleft Hbs L.
      assert ((fs - (k + 1) * bs - 1) / bs + 1 = (left - 1) / bs).
      { subst left.
        replace (fs - k * bs - 1) with (fs - (k + 1) * bs - 1 + 1 * bs)
          by lia.
        rewrite Z.div_add by lia. reflexivity. }
      assert (0 <= (fs - (k + 1) * bs - 1) / bs)
        by (apply Z.div_pos; lia).
      lia.
    + intros [E|E]; [lia|].
      f_equal. clear - E L. unfold x in *.
      bs_cases; Z.div_mod_to_equations; lia.
    + exact Hb2.
    + rewrite Hb3, Hsf, Hchunk.
      destruct (Z.gtb_spec left bs); lia.
    + rewrite Hb1'. f_equal. lia.
    + exists file', g'. rewrite Erun.
      rewrite arelt_data_bwrite in Had. rewrite filename_bwrite in Hfn.
      split; [reflexivity|].
      split; [exact Sg' | split; [exact Hpay | split; [exact Had | exact Hfn]]].
  - (* the last block *)
    exists (bfd_bwrite file chunk), g4.
    split; [reflexivity | split; [exact S5 | split]].
    + rewrite Hb1'. apply firstn_all2. unfold zlen in Hfs. lia.
    + split; [apply arelt_data_bwrite | apply filename_bwrite].
Qed.

Lemma znth_firstn_tl (i t : Z) :
  0 <= t < i -> i + 1 <= zlen W ->
  znth (firstn (Z.to_nat i) (tl W)) t = znth W (1 + t).
Proof.
  intros Ht Hi. unfold znth. rewrite nth_firstn.
  destruct (Nat.ltb_spec (Z.to_nat t) (Z.to_nat i)); [|lia].
  destruct W as [|w W']; [unfold zlen in Hi; cbn in Hi; lia|].
  cbn [tl]. replace (Z.to_nat (1 + t)) with (Datatypes.S (Z.to_nat t)) by lia.
  reflexivity.
Qed.

(** Indexed access on a laid-out archive: stream [i] is delivered with the
    bytes its blocks hold, the size from the directory (with the entry
    [0xffffffff] counted as 0, for this stream and for those before it),
    its index as key and its four-digit name. *)
Theorem pdb_get_elt_at_index_ok (i : Z) (payload : list byte) :
  0 <= i < znth W 0 -> i + 1 < zlen W ->
  zlen payload = norm_size (znth W (i + 1)) ->
  stream_data f bs W
    (znth W 0 + 1 + sum_blocks bs (firstn (Z.to_nat i) (tl W))) payload ->
  forall g, same_bytes f g ->
  exists file g',
    pdb_get_elt_at_index i g = Done file g'
    /\ same_bytes f g'
    /\ bfd_bytes file = payload
    /\ arelt_data file = Some {| parsed_size := zlen payload; key := i |}
    /\ filename file = sprintf_04lx i.
Proof.
  intros Hi Hi1 Hlen SD g Sg.
  pose proof layout_W_small as Hsm. change (2 ^ 22) with 4194304 in Hsm.
  pose proof (lay_bma_range _ _ _ _ _ L) as [Hb0 Hb1].
  pose proof (lay_fit _ _ _ _ _ L) as Hfit.
  pose proof (lay_cap _ _ _ _ _ L) as Hcap.
  assert (Hbs : 0 < bs) by (bs_cases; lia).
  assert (HDs : 0 <= 0 < zlen Ds) by (split; [lia | nia]).
  destruct (lay_Ds _ _ _ _ _ L 0 HDs) as (D0 & D1 & Hmw0).
  assert (Hnf : has_word f (znth Ds 0 * bs) (znth W 0)).
  { pose proof (lay_W _ _ _ _ _ L 0 ltac:(lia)) as H.
    replace (4 * 0 / bs) with 0 in H by reflexivity.
    replace ((4 * 0) mod bs) with 0 in H by reflexivity.
    now rewrite Z.add_0_r in H. }
  pose proof (has_word_range _ _ _ Hnf) as Rnf.
  set (nf := znth W 0) in *.
  unfold pdb_get_elt_at_index.
  (* Get block_size.  *)
  rewrite (run_seek_read f g 32 32 bs _ (lay_bs _ _ _ _ _ L) Sg eq_refl).
  destruct (seek_read_state f g 32 bs (lay_bs _ _ _ _ _ L) Sg)
    as (_ & S1 & W1).
  set (g1 := snd (bfd_bread (bfd_seek_set g 32) 4)) in *. clearbody g1.
  rewrite (proj2 (block_size_invalid_spec bs) (lay_valid _ _ _ _ _ L)).
  (* Get block_map_addr.  *)
  unfold bind at 1. cbn [seek_cur].
  assert (S1' : same_bytes f (bfd_seek_cur g1 (4 * 4)))
    by (eapply same_bytes_trans; [exact S1 | apply same_bytes_seek_cur]).
  assert (W1' : where_ (bfd_seek_cur g1 (4 * 4)) = 52)
    by (cbn [bfd_seek_cur bfd_seek_set where_]; lia).
  rewrite (bind_read_u32 _ (bfd_seek_cur g1 (4 * 4)) bma)
    by (rewrite W1'; exact (has_word_same _ _ _ _ S1' (lay_bma _ _ _ _ _ L))).
  assert (S2 : same_bytes f (snd (bfd_bread (bfd_seek_cur g1 (4 * 4)) 4)))
    by (eapply same_bytes_trans; [exact S1' | apply same_bytes_bread]).
  set (g2 := snd (bfd_bread (bfd_seek_cur g1 (4 * 4)) 4)) in *.
  clearbody g2. clear S1' W1 W1' S1 g1.
  (* Get num_files.  *)
  rewrite (run_seek_read f g2 (bma * bs + 4 * 0) _ (znth Ds 0) _ Hmw0 S2)
    by (unfold u32; rewrite Z.mod_small; lia).
  destruct (seek_read_state f g2 _ _ Hmw0 S2) as (_ & S3 & _).
  set (g3 := snd (bfd_bread (bfd_seek_set g2 (bma * bs + 4 * 0)) 4)) in *.
  clearbody g3. clear S2 g2.
  rewrite (run_seek_read f g3 (znth Ds 0 * bs) _ nf _ Hnf S3)
    by (unfold u32; rewrite Z.mod_small; lia).
  destruct (seek_read_state f g3 _ _ Hnf S3) as (_ & S4 & _).
  set (g4 := snd (bfd_bread (bfd_seek_set g3 (znth Ds 0 * bs)) 4)) in *.
  clearbody g4. clear S3 g3.
  destruct (Z.geb_spec i nf) as [Ge|_]; [lia|].
  (* Read file size.  *)
  replace (u32 (4 * u64 (i + 1))) with (4 * (i + 1))
    by (unfold u32, u64;
        rewrite (Z.mod_small (i + 1))
          by (change (2 ^ 64) with 18446744073709551616; lia);
        rewrite Z.mod_small; lia).
  destruct (run_locate_dir_block (i + 1) g4 ltac:(lia) S4)
    as (g5 & S5 & _ & Erun).
  rewrite Erun. clear Erun S4 g4.
  destruct (run_read_dir_word (i + 1) g5 ltac:(lia) S5)
    as (g6 & S6 & _ & _ & Erun).
  rewrite Erun. clear Erun S5 g5.
  fold (norm_size (znth W (i + 1))). rewrite <- Hlen.
  set (fs := zlen payload) in *.
  pose proof (has_word_range _ _ _ (lay_W _ _ _ _ _ L (i + 1) ltac:(lia)))
    as Rraw.
  assert (Rfs : 0 <= fs < 2 ^ 32).
  { rewrite Hlen. unfold norm_size.
    destruct (znth W (i + 1) =? 4294967295); lia. }
  destruct (Z.eqb_spec fs 0) as [E0|N0].
  - (* an empty stream *)
    exists (new_element (sprintf_04lx i) fs i), g6.
    split; [reflexivity | split; [exact S6 | split]].
    + unfold fs, zlen in E0. destruct payload; [reflexivity | cbn in E0; lia].
    + split; reflexivity.
  - (* Sum number of blocks in previous files.  *)
    set (l := firstn (Z.to_nat i) (tl W)) in *.
    set (base := nf + 1 + sum_blocks bs l) in *.
    destruct (SD 0 ltac:(lia) ltac:(fold fs; lia)) as (Hbase & _).
    pose proof (sum_blocks_nonneg bs l Hbs) as Hsb.
    assert (Hll : length l = Z.to_nat i).
    { unfold l. rewrite length_firstn.
      assert (length (tl W) = (length W - 1)%nat) by (destruct W; cbn; lia).
      unfold zlen in Hi1. lia. }
    assert (Hsum : exists g7,
      same_bytes f g7
      /\ forall B (c : Z -> io B),
           bind (if negb (i =? 0)
                 then
                   bind (seek_set (u32 (znth Ds 0 * bs) + 4))
                     (fun _ => sum_prev_blocks (Z.to_nat i) bs bma 4 0)
                 else ret 0) c g6
           = c (sum_blocks bs l) g7).
    { destruct (Z.eqb_spec i 0) as [I0|I0]; cbn [negb].
      - exists g6. split; [exact S6|]. intros B c.
        assert (El : l = []) by (unfold l; rewrite I0; reflexivity).
        rewrite El. reflexivity.
      - destruct (sum_prev_blocks_ok l 0 0
                    (bfd_seek_set g6 (u32 (znth Ds 0 * bs) + 4)))
          as (g7 & Erun & S7).
        + eapply same_bytes_trans; [exact S6 | apply same_bytes_seek_set].
        + lia.
        + unfold zlen at 1. rewrite Hll. lia.
        + intros t Ht. unfold zlen in Ht. rewrite Hll in Ht.
          rewrite Z.add_0_l. apply znth_firstn_tl; lia.
        + intros _. cbn [bfd_seek_set where_].
          replace (4 * (0 + 1) / bs) with 0
            by (clear - L; bs_cases; reflexivity).
          replace ((4 * (0 + 1)) mod bs) with 4
            by (clear - L; bs_cases; reflexivity).
          unfold u32. rewrite Z.mod_small; lia.
        + lia.
        + lia.
        + exists g7. split; [exact S7|]. intros B c.
          apply bind_Done. unfold bind. cbn [seek_set].
          rewrite Hll in Erun. rewrite Z.add_0_l in Erun. exact Erun. }
    destruct Hsum as (g7 & S7 & Erun). rewrite Erun. clear Erun S6 g6.
    (* Read blocks, and write into new BFD.  *)
    replace (u32 (4 * u32 (nf + sum_blocks bs l + 1))) with (4 * base)
      by (unfold u32, base;
          rewrite (Z.mod_small (nf + sum_blocks bs l + 1)) by lia;
          rewrite Z.mod_small; lia).
    destruct (run_locate_dir_block base g7 ltac:(lia) S7)
      as (g8 & S8 & _ & Erun).
    rewrite Erun. clear Erun S7 g7.
    destruct (read_blocks_ok base fs payload SD eq_refl ltac:(lia)
                ltac:(lia) (Datatypes.S (Z.to_nat (fs / bs))) 0 fs
                (znth Ds (4 * base / bs))
                (new_element (sprintf_04lx i) fs i) g8 S8 ltac:(lia)
                ltac:(lia) ltac:(lia))
      as (file' & g' & Erun & Sg' & Hpay & Had & Hfn).
    + assert ((fs - 1) / bs <= fs / bs)
        by (apply Z.div_le_mono; lia).
      assert (0 <= (fs - 1) / bs) by (apply Z.div_pos; lia).
      lia.
    + intros _. now rewrite Z.add_0_r.
    + reflexivity.
    + reflexivity.
    + reflexivity.
    + rewrite Z.add_0_r in Erun.
      exists file', g'.
      split; [exact Erun | split; [exact Sg' | split; [exact Hpay|]]].
      split; [rewrite Had; reflexivity | rewrite Hfn; reflexivity].
Qed.

End Reader.

(* ================================================================= *)
(** ** The writer: what the directory loops maintain *)

Lemma znth_app_l (l1 l2 : list Z) k :
  0 <= k < zlen l1 -> znth (l1 ++ l2) k = znth l1 k.
Proof. intros H. unfold znth, zlen in *. apply app_nth1. lia. Qed.

Lemma znth_app_r (l1 l2 : list Z) k :
  zlen l1 <= k -> znth (l1 ++ l2) k = znth l2 (k - zlen l1).
Proof.
  intros H. unfold znth, zlen in *. rewrite app_nth2 by lia.
  f_equal. lia.
Qed.

Lemma znth_snoc (l : list Z) v : znth (l ++ [v]) (zlen l) = v.
Proof.
  rewrite znth_app_r by lia. rewrite Z.sub_diag. reflexivity.
Qed.

Lemma zlen_snoc {A} (l : list A) v : zlen (l ++ [v]) = zlen l + 1.
Proof. rewrite zlen_app. reflexivity. Qed.

Lemma has_word_of_peek f o v :
  has_word f o v -> has f o (peek f o 4) /\ bfd_getl32 (peek f o 4) = v.
Proof.
  intros (A & B & C). split; [|exact C].
  split; [assumption | split; [rewrite zlen_peek; lia|]].
  now rewrite peek_length.
Qed.

Lemma has_word_of_bytes f o l v :
  has f o l -> length l = 4%nat -> bfd_getl32 l = v -> has_word f o v.
Proof.
  intros (A & B & C) Hl Hv. unfold zlen in B. rewrite Hl in *.
  split; [assumption | split; [lia|]]. unfold word_at. now rewrite C.
Qed.

(** What one call of the allocator does to a counter of the writer. *)
Lemma pdb_allocate_block_writer nb :
  3 <= nb <= 2 ^ 22 -> nb mod 1024 <> 2 ->
  let '(b, nb') := pdb_allocate_block nb 1024 in
  nb <= b < nb' /\ nb' <= nb + 3 /\ nb' mod 1024 <> 2 /\ ~ reserved_slot b.
Proof.
  intros R M. unfold pdb_allocate_block, reserved_slot.
  change (2 ^ 22) with 4194304 in R.
  destruct (Z.eqb_spec (nb mod 1024) 1) as [E|E]; u32_lia.
Qed.

Lemma has_word_transfer f f' o v :
  has_word f o v ->
  (forall l, has f o l -> zlen l = 4 -> has f' o l) ->
  has_word f' o v.
Proof.
  intros H T. destruct (has_word_of_peek f o v H) as [Hp Hv].
  apply T in Hp; [|now rewrite zlen_peek].
  apply (has_word_of_bytes f' o (peek f o 4)); [exact Hp| |exact Hv].
  apply peek_length.
Qed.

Lemma has_seek_set f p o l : has f o l -> has (bfd_seek_set f p) o l.
Proof. apply has_same. apply same_bytes_seek_set. Qed.

Section DirectorySteps.

Variables (f0 : bfd) (st : dirstate) (f : bfd) (Ds Wd : list Z)
  (Data : list (Z * list byte)).
Hypothesis I : dir_inv f0 st f Ds Wd Data.

Lemma dir_inv_block_range :
  4 <= d_block st < d_num_blocks st /\ d_num_blocks st <= 2 ^ 21.
Proof.
  destruct I. change (2 ^ 21) with 2097152.
  pose proof (inv_map0 (zlen Ds - 1) ltac:(lia)) as (A & _).
  rewrite <- inv_block0 in A. split; [exact A|].
  pose proof (zlen_nonneg Wd). lia.
Qed.

Lemma dir_inv_word_index x :
  0 <= x < zlen Wd -> 0 <= 4 * x / 1024 < zlen Ds.
Proof.
  intros Hx. destruct I. Z.div_mod_to_equations. lia.
Qed.

(** Lines 456-480: making room for one more word of the directory. *)
Lemma dir_inv_next_dir_block :
  zlen Wd < 65536 ->
  exists st1 f1 Ds1,
    next_dir_block 1024 3 st f = Done st1 f1
    /\ dir_inv f0 st1 f1 Ds1 Wd Data
    /\ 4 <= d_left st1
    /\ d_num_blocks st <= d_num_blocks st1.
Proof.
  intros Hroom. pose proof dir_inv_block_range as (Hblk & Hnb21).
  change (2 ^ 21) with 2097152 in Hnb21.
  destruct I. unfold next_dir_block.
  destruct (Z.eqb_spec (d_left st) 0) as [E0|N0].
  - assert (HDs : zlen Ds < 256) by lia.
    destruct (Z.eqb_spec (d_block_map_off st) 1024) as [E1|_]; [lia|].
    pose proof (pdb_allocate_block_writer (d_num_blocks st)) as Ha.
    destruct (pdb_allocate_block (d_num_blocks st) 1024) as [b nb'].
    destruct Ha as (Hb & Hnb' & Hmod & Hres);
      [change (2 ^ 22) with 4194304; lia | lia |].
    unfold bind, seek_set, bwrite, ret.
    replace (u32 (u32 (3 * 1024) + d_block_map_off st))
      with (3072 + 4 * zlen Ds) by (rewrite inv_bmo0; u32_lia).
    replace (u32 (b * 1024)) with (b * 1024) by u32_lia.
    set (f1 := bfd_bwrite (bfd_seek_set f (3072 + 4 * zlen Ds))
                 (bfd_putl32 b)).
    assert (Hfr : forall o l, has f o l ->
              o + zlen l <= 3072 + 4 * zlen Ds
              \/ 3072 + 4 * zlen Ds + 4 <= o -> has f1 o l).
    { intros o l Hh Hd. apply has_bwrite_frame;
        [apply has_seek_set; exact Hh|].
      cbn [bfd_seek_set where_]. rewrite zlen_putl32. exact Hd. }
    assert (Hfrw : forall o v, has_word f o v ->
              o + 4 <= 3072 + 4 * zlen Ds
              \/ 3072 + 4 * zlen Ds + 4 <= o -> has_word f1 o v).
    { intros o v Hh Hd. apply (has_word_transfer f); [exact Hh|].
      intros l Hl Hl4. apply Hfr; [exact Hl | lia]. }
    assert (Hnew : has_word f1 (3072 + 4 * zlen Ds) b).
    { assert (Hb32 : u32 b = b) by u32_lia.
      rewrite <- Hb32. apply has_word_of_has.
      apply (has_bwrite_here (bfd_seek_set f (3072 + 4 * zlen Ds)));
        [cbn [bfd_seek_set where_]; lia | discriminate]. }
    eexists _, (bfd_seek_set f1 (b * 1024)), (Ds ++ [b]).
    split; [reflexivity|].
    split; [|cbn [d_left d_num_blocks]; lia].
    constructor; cbn [d_block d_left d_block_map_off d_num_blocks];
      rewrite ?zlen_snoc.
    + intros o l Hh Hl. apply has_seek_set, Hfr; [now apply inv_low0 | lia].
    + lia.
    + rewrite inv_bmo0. u32_lia.
    + lia.
    + replace (zlen Ds + 1 - 1) with (zlen Ds) by lia.
      now rewrite znth_snoc.
    + cbn [bfd_seek_set where_]. lia.
    + lia.
    + intros k Hk. destruct (Z.eq_dec k (zlen Ds)) as [->|Hne].
      * rewrite znth_snoc. split; [lia | split; [exact Hres|]].
        apply (has_word_same f1); [apply same_bytes_seek_set | exact Hnew].
      * rewrite znth_app_l by lia.
        destruct (inv_map0 k ltac:(lia)) as (A & B & C).
        split; [lia | split; [exact B|]].
        apply (has_word_same f1); [apply same_bytes_seek_set|].
        apply Hfrw; [exact C | lia].
    + intros k Hk. rewrite znth_app_l by lia.
      destruct (inv_map0 k ltac:(lia)) as (A & _). lia.
    + intros x Hx. pose proof (dir_inv_word_index x Hx) as Hi.
      rewrite znth_app_l by lia.
      destruct (inv_map0 (4 * x / 1024) Hi) as (A & _).
      apply (has_word_same f1); [apply same_bytes_seek_set|].
      apply Hfrw; [now apply inv_words0|].
      right. Z.div_mod_to_equations. lia.
    + intros B c Hin. destruct (inv_data0 B c Hin) as (A & B' & C & D & E).
      split; [lia | split; [lia | split; [exact C | split; [exact D|]]]].
      apply has_seek_set, Hfr; [exact E | lia].
  - exists st, f, Ds. split; [reflexivity|].
    split; [constructor; assumption|]. split; [|lia].
    Z.div_mod_to_equations. lia.
Qed.

(** Writing the next word of the directory at the current position;
    [nb'] is the value of the block counter afterwards. *)
Lemma dir_inv_write_word (v nb' : Z) :
  4 <= d_left st ->
  d_num_blocks st <= nb' <= d_num_blocks st + 3 -> nb' mod 1024 <> 2 ->
  dir_inv f0
    {| d_block := d_block st; d_left := u32 (d_left st - 4);
       d_block_map_off := d_block_map_off st; d_num_blocks := nb' |}
    (bfd_bwrite f (bfd_putl32 v)) Ds (Wd ++ [u32 v]) Data.
Proof.
  intros Hleft Hnb Hmod. pose proof dir_inv_block_range as (Hblk & Hnb21).
  change (2 ^ 21) with 2097152 in Hnb21.
  pose proof dir_inv_word_index as Hwi.
  destruct I.
  set (p := d_block st * 1024 + 1024 - d_left st) in *.
  assert (Hfr : forall o l, has f o l ->
            o + zlen l <= p \/ p + 4 <= o ->
            has (bfd_bwrite f (bfd_putl32 v)) o l).
  { intros o l Hh Hd. apply has_bwrite_frame; [exact Hh|].
    rewrite inv_pos0, zlen_putl32. exact Hd. }
  assert (Hfrw : forall o w, has_word f o w ->
            o + 4 <= p \/ p + 4 <= o ->
            has_word (bfd_bwrite f (bfd_putl32 v)) o w).
  { intros o w Hh Hd. apply (has_word_transfer f); [exact Hh|].
    intros l Hl Hl4. apply Hfr; [exact Hl | lia]. }
  constructor; cbn [d_block d_left d_block_map_off d_num_blocks];
    rewrite ?zlen_snoc.
  - intros o l Hh Hl. apply Hfr; [now apply inv_low0 | lia].
  - assumption.
  - assumption.
  - u32_lia.
  - assumption.
  - rewrite where_bwrite, inv_pos0, zlen_putl32. u32_lia.
  - lia.
  - intros k Hk. destruct (inv_map0 k Hk) as (A & B & C).
    split; [lia | split; [exact B|]]. apply Hfrw; [exact C | lia].
  - assumption.
  - intros x Hx. destruct (Z.eq_dec x (zlen Wd)) as [->|Hne].
    + rewrite znth_snoc.
      assert (Q : 4 * zlen Wd / 1024 = zlen Ds - 1
                  /\ (4 * zlen Wd) mod 1024 = 1024 - d_left st)
        by (Z.div_mod_to_equations; lia).
      destruct Q as [Q1 Q2]. rewrite Q1, Q2, <- inv_block0.
      replace (d_block st * 1024 + (1024 - d_left st)) with (where_ f)
        by lia.
      apply has_word_of_has. apply has_bwrite_here; [lia | discriminate].
    + rewrite znth_app_l by lia.
      assert (Hx' : 0 <= x < zlen Wd) by lia.
      specialize (Hwi x Hx').
      apply Hfrw; [now apply inv_words0|].
      destruct (Z.eq_dec (4 * x / 1024) (zlen Ds - 1)) as [Elast|Nlast].
      * rewrite Elast, <- inv_block0. left.
        Z.div_mod_to_equations. lia.
      * pose proof (inv_Ds_distinct0 (4 * x / 1024) ltac:(lia)) as Hd.
        destruct (inv_map0 (4 * x / 1024) Hwi) as (A & _).
        Z.div_mod_to_equations. lia.
  - intros B c Hin. destruct (inv_data0 B c Hin) as (A & B' & C & D & E).
    split; [lia | split; [exact B' | split; [exact C | split; [exact D|]]]].
    apply Hfr; [exact E | lia].
Qed.

(** Writing a data block at a fresh block and returning to the
    directory. *)
Lemma dir_inv_write_data (B : Z) (buf : list byte) :
  4 <= B < d_num_blocks st -> ~ reserved_slot B -> zlen buf = 1024 ->
  (forall k, 0 <= k < zlen Ds -> znth Ds k <> B) ->
  (forall B' c, In (B', c) Data -> B' <> B) ->
  dir_inv f0 st
    (bfd_seek_set (bfd_bwrite (bfd_seek_set f (B * 1024)) buf) (where_ f))
    Ds Wd (Data ++ [(B, buf)]).
Proof.
  intros HB Hres Hbuf HDs HData.
  pose proof dir_inv_block_range as (Hblk & Hnb21).
  change (2 ^ 21) with 2097152 in Hnb21.
  pose proof dir_inv_word_index as Hwi.
  destruct I.
  set (f1 := bfd_bwrite (bfd_seek_set f (B * 1024)) buf).
  assert (Hfr : forall o l, has f o l ->
            o + zlen l <= B * 1024 \/ B * 1024 + 1024 <= o ->
            has (bfd_seek_set f1 (where_ f)) o l).
  { intros o l Hh Hd. apply has_seek_set. apply has_bwrite_frame;
      [apply has_seek_set; exact Hh|].
    cbn [bfd_seek_set where_]. rewrite Hbuf. exact Hd. }
  assert (Hfrw : forall o w, has_word f o w ->
            o + 4 <= B * 1024 \/ B * 1024 + 1024 <= o ->
            has_word (bfd_seek_set f1 (where_ f)) o w).
  { intros o w Hh Hd. apply (has_word_transfer f); [exact Hh|].
    intros l Hl Hl4. apply Hfr; [exact Hl | lia]. }
  constructor; try assumption.
  - intros o l Hh Hl. apply Hfr; [now apply inv_low0 | lia].
  - intros k Hk. destruct (inv_map0 k Hk) as (A & B' & C).
    split; [lia | split; [exact B'|]]. apply Hfrw; [exact C | lia].
  - intros x Hx. specialize (Hwi x Hx).
    destruct (inv_map0 (4 * x / 1024) Hwi) as (A & _).
    pose proof (HDs (4 * x / 1024) Hwi) as Hne.
    apply Hfrw; [now apply inv_words0|].
    Z.div_mod_to_equations. lia.
  - intros B' c Hin. apply in_app_or in Hin.
    destruct Hin as [Hin | [[= <- <-] | []]].
    + destruct (inv_data0 B' c Hin) as (A & B'' & C & D & E).
      pose proof (HData B' c Hin) as Hne.
      split; [lia | split; [exact B'' | split; [exact C | split; [exact D|]]]].
      apply Hfr; [exact E | lia].
    + split; [lia|]. split.
      { rewrite inv_block0. intros E. symmetry in E. revert E.
        apply HDs. lia. }
      split; [exact Hres | split; [exact Hbuf|]].
      apply has_seek_set.
      apply (has_bwrite_here (bfd_seek_set f (B * 1024)));
        [cbn [bfd_seek_set where_]; lia|].
      intros E. rewrite E in Hbuf. cbn in Hbuf. lia.
Qed.

End DirectorySteps.

(* ================================================================= *)
(** ** The writer's loops *)

Lemma u64_le z : 0 <= z -> 0 <= u64 z <= z.
Proof.
  intros H. unfold u64. split; [apply Z.mod_pos_bound; reflexivity|].
  apply Z.mod_le; [assumption | reflexivity].
Qed.

Lemma req_blocks_range p : 0 <= req_blocks p < 2 ^ 32.
Proof. unfold req_blocks, u32. apply Z.mod_pos_bound. reflexivity. Qed.

Lemma req_blocks_bound p :
  0 < req_blocks p -> 1024 * (req_blocks p - 1) < u64 (zlen p).
Proof.
  unfold req_blocks. pose proof (u64_le (zlen p) (zlen_nonneg p)) as H.
  set (L := u64 (zlen p)) in *. intros Hpos.
  assert (u32 (u64 (L + 1024 - 1) / 1024) <= u64 (L + 1024 - 1) / 1024).
  { unfold u32. apply Z.mod_le; [|reflexivity].
    apply Z.div_pos; [|lia]. unfold u64. apply Z.mod_pos_bound. reflexivity. }
  assert (u64 (L + 1024 - 1) <= L + 1024 - 1) by (apply u64_le; lia).
  assert (1024 * (u64 (L + 1024 - 1) / 1024) <= u64 (L + 1024 - 1))
    by (apply Z.mul_div_le; lia).
  lia.
Qed.

Lemma peek_of_bytes_at (l : list byte) (o : Z) (n : nat) :
  0 <= o -> o + Z.of_nat n <= zlen l ->
  peek (bfd_of_bytes l) o n = firstn n (skipn (Z.to_nat o) l).
Proof.
  intros Ho Hn. unfold zlen in Hn. apply (nth_ext _ _ x00 x00).
  - rewrite peek_length, length_firstn, length_skipn. lia.
  - intros k Hk. rewrite peek_length in Hk.
    rewrite nth_peek by assumption. cbn [bfd_of_bytes contents].
    rewrite nth_firstn. destruct (Nat.ltb_spec k n); [|lia].
    rewrite nth_skipn. f_equal. lia.
Qed.

Lemma wchunk_length p k :
  0 <= k -> 1024 * k < u64 (zlen p) -> zlen (wchunk p k) = 1024.
Proof.
  intros Hk Hlt. pose proof (u64_le (zlen p) (zlen_nonneg p)) as H.
  unfold wchunk, zlen in *.
  rewrite length_app, length_firstn, length_skipn, repeat_length. lia.
Qed.

Section Loops.

Variable f0 : bfd.

Lemma write_sizes_spec (arelts : list bfd) : forall st f Ds Wd Data,
  dir_inv f0 st f Ds Wd Data -> zlen Wd + zlen arelts <= 65536 ->
  exists st' f' Ds',
    write_sizes 1024 3 arelts st f = Done st' f'
    /\ dir_inv f0 st' f' Ds'
         (Wd ++ map (fun a => u32 (bfd_get_size a)) arelts) Data
    /\ d_num_blocks st <= d_num_blocks st'.
Proof.
  induction arelts as [|a rest IH]; intros st f Ds Wd Data I Hroom.
  - exists st, f, Ds. cbn [write_sizes map ret]. rewrite app_nil_r.
    split; [reflexivity | split; [exact I | lia]].
  - assert (Hz : zlen (a :: rest) = zlen rest + 1)
      by (unfold zlen; cbn [length]; lia).
    pose proof (zlen_nonneg rest).
    destruct (dir_inv_next_dir_block f0 st f Ds Wd Data I ltac:(lia))
      as (st1 & f1 & Ds1 & E1 & I1 & Hl1 & Hn1).
    cbn [write_sizes]. rewrite (bind_Done _ _ _ _ _ E1).
    unfold bind at 1. cbn [bwrite].
    pose proof (dir_inv_write_word f0 st1 f1 Ds1 Wd Data I1
                  (bfd_get_size a) (d_num_blocks st1) Hl1 ltac:(lia)
                  (proj2 (proj2 (inv_nb _ _ _ _ _ _ I1)))) as I2.
    destruct (IH _ _ _ _ _ I2) as (st' & f' & Ds' & E' & I' & Hn').
    { rewrite zlen_snoc. lia. }
    exists st', f', Ds'. split; [exact E'|].
    cbn [map]. rewrite <- app_assoc in I'. cbn [app] in I'.
    split; [exact I' | cbn [d_num_blocks] in Hn'; lia].
Qed.

Lemma wchunks_S p k n :
  wchunks p k (Datatypes.S n) = wchunk p k :: wchunks p (k + 1) n.
Proof.
  unfold wchunks. cbn [seq map]. rewrite Z.add_0_r. f_equal.
  rewrite <- seq_shift, map_map. apply map_ext. intros t. f_equal. lia.
Qed.

(** What a read of the next block of a payload returns. *)
Lemma bfd_bread_payload p arelt k :
  same_bytes (bfd_of_bytes p) arelt -> where_ arelt = 1024 * k -> 0 <= k ->
  1024 * k < u64 (zlen p) ->
  let to_read := Z.min 1024 (u64 (zlen p) - 1024 * k) in
  fst (bfd_bread arelt to_read)
  = firstn (Z.to_nat to_read) (skipn (Z.to_nat (1024 * k)) p)
  /\ zlen (fst (bfd_bread arelt to_read)) = to_read
  /\ same_bytes (bfd_of_bytes p) (snd (bfd_bread arelt to_read))
  /\ where_ (snd (bfd_bread arelt to_read)) = 1024 * k + to_read.
Proof.
  intros Sa Wa Hk Hlt to_read.
  pose proof (u64_le (zlen p) (zlen_nonneg p)) as HL.
  pose proof Sa as [Ec Es]. cbn [bfd_of_bytes size] in Es.
  assert (Hav : Z.max 0 (Z.min to_read (size arelt - where_ arelt))
                = to_read) by (unfold to_read; lia).
  unfold bfd_bread. cbn [fst snd where_]. rewrite Hav.
  split; [|split; [rewrite zlen_peek; unfold to_read; lia|split]].
  - rewrite <- (peek_same _ _ _ _ Sa), Wa.
    apply peek_of_bytes_at; unfold to_read; lia.
  - eapply same_bytes_trans; [exact Sa | split; reflexivity].
  - lia.
Qed.

(** Lines 510-601 for a payload [p], from its block [k] on. *)
Lemma write_file_blocks_spec (p : list byte) (n : nat) :
  forall k arelt st f Ds Wd Data,
    dir_inv f0 st f Ds Wd Data ->
    same_bytes (bfd_of_bytes p) arelt -> where_ arelt = 1024 * k ->
    0 <= k ->
    (n <> 0%nat -> 1024 * (k + Z.of_nat n - 1) < u64 (zlen p)) ->
    zlen Wd + Z.of_nat n <= 65536 ->
    exists st' f' Ds' Bl,
      write_file_blocks n 1024 3 arelt (u64 (zlen p) - 1024 * k) st f
      = Done st' f'
      /\ dir_inv f0 st' f' Ds' (Wd ++ Bl)
           (Data ++ combine Bl (wchunks p k n))
      /\ length Bl = n
      /\ d_num_blocks st <= d_num_blocks st'.
Proof.
  induction n as [|n IH];
    intros k arelt st f Ds Wd Data I Sa Wa Hk Hlt Hroom.
  - exists st, f, Ds, []. cbn [write_file_blocks ret combine wchunks].
    rewrite !app_nil_r.
    split; [reflexivity | split; [exact I | split; [reflexivity | lia]]].
  - specialize (Hlt ltac:(lia)).
    set (L := u64 (zlen p)) in *.
    destruct (dir_inv_next_dir_block f0 st f Ds Wd Data I ltac:(lia))
      as (st1 & f1 & Ds1 & E1 & I1 & Hl1 & Hn1).
    cbn [write_file_blocks]. rewrite (bind_Done _ _ _ _ _ E1).
    pose proof (dir_inv_block_range _ _ _ _ _ _ I1) as (Hblk1 & Hnb21).
    change (2 ^ 21) with 2097152 in Hnb21.
    pose proof (inv_nb _ _ _ _ _ _ I1) as (Hnb5 & _ & Hnbmod).
    pose proof (pdb_allocate_block_writer (d_num_blocks st1)) as Ha.
    destruct (pdb_allocate_block (d_num_blocks st1) 1024) as [B nb'].
    destruct Ha as (HB & Hnb' & Hmod & Hres);
      [change (2 ^ 22) with 4194304; lia | exact Hnbmod |].
    unfold bind at 1. cbn [bwrite].
    pose proof (dir_inv_write_word f0 st1 f1 Ds1 Wd Data I1 B nb' Hl1
                  ltac:(lia) Hmod) as I2.
    replace (u32 B) with B in I2 by u32_lia.
    set (st2 := {| d_block := d_block st1;
                   d_left := u32 (d_left st1 - 4);
                   d_block_map_off := d_block_map_off st1;
                   d_num_blocks := nb' |}) in *.
    set (f2 := bfd_bwrite f1 (bfd_putl32 B)) in *.
    (* Read file contents into buffer.  *)
    assert (Hk' : 1024 * k < L) by lia.
    assert (Htr : (if L - 1024 * k >? 1024 then 1024 else L - 1024 * k)
                  = Z.min 1024 (L - 1024 * k))
      by (destruct (Z.gtb_spec (L - 1024 * k) 1024); lia).
    rewrite Htr.
    destruct (bfd_bread_payload p arelt k Sa Wa Hk Hk')
      as (Edata & Hdlen & Sa' & Wa').
    fold L in Edata, Hdlen, Sa', Wa'.
    destruct (bfd_bread arelt (Z.min 1024 (L - 1024 * k)))
      as [data arelt'].
    cbn [fst snd] in Edata, Hdlen, Sa', Wa'.
    rewrite Hdlen, Z.eqb_refl. cbn [negb].
    set (buf := data ++ repeat x00
                  (Z.to_nat (1024 - Z.min 1024 (L - 1024 * k)))).
    assert (Ebuf : buf = wchunk p k).
    { unfold buf, wchunk. fold L. now rewrite Edata. }
    assert (Hbuf : zlen buf = 1024)
      by (rewrite Ebuf; apply wchunk_length; assumption).
    unfold bind at 1. cbn [seek_set].
    unfold bind at 1. cbn [bwrite].
    unfold bind at 1. cbn [seek_set].
    replace (u32 (B * 1024)) with (B * 1024) by u32_lia.
    pose proof (inv_pos _ _ _ _ _ _ I2) as Hpos2.
    pose proof (inv_left _ _ _ _ _ _ I2) as (Hleft2 & _).
    cbn [st2 d_block d_left] in Hpos2, Hleft2.
    replace (u32 (u32 (u32 (d_block st1 * 1024) + 1024)
                  - u32 (d_left st1 - 4)))
      with (where_ f2) by (rewrite Hpos2; u32_lia).
    assert (I3 : dir_inv f0 st2
                   (bfd_seek_set
                      (bfd_bwrite (bfd_seek_set f2 (B * 1024)) buf)
                      (where_ f2))
                   Ds1 (Wd ++ [B]) (Data ++ [(B, buf)])).
    { apply dir_inv_write_data; try assumption.
      - cbn [st2 d_num_blocks]. lia.
      - intros j Hj.
        destruct (inv_map _ _ _ _ _ _ I1 j Hj) as (A & _). lia.
      - intros B' c Hin.
        destruct (inv_data _ _ _ _ _ _ I1 B' c Hin) as (A & _). lia. }
    rewrite Ebuf in I3.
    destruct n as [|n'].
    + exists st2, (bfd_seek_set
                     (bfd_bwrite (bfd_seek_set f2 (B * 1024)) buf)
                     (where_ f2)), Ds1, [B].
      cbn [write_file_blocks ret]. rewrite Ebuf.
      split; [reflexivity|].
      split; [|split; [reflexivity | cbn [st2 d_num_blocks]; lia]].
      rewrite wchunks_S. cbn [wchunks seq map combine]. exact I3.
    + assert (Hmin : Z.min 1024 (L - 1024 * k) = 1024) by lia.
      rewrite Hmin in *.
      replace (L - 1024 * k - 1024) with (L - 1024 * (k + 1)) by lia.
      destruct (IH (k + 1) arelt' st2 _ Ds1 (Wd ++ [B])
                  (Data ++ [(B, wchunk p k)]) I3 Sa' ltac:(lia) ltac:(lia))
        as (st' & f' & Ds' & Bl & E' & I' & Hlen & Hn').
      * intros _. lia.
      * rewrite zlen_snoc. lia.
      * exists st', f', Ds', (B :: Bl). rewrite Ebuf.
        split; [exact E'|].
        split; [|split; [cbn [length]; lia
                        | cbn [st2 d_num_blocks] in Hn'; lia]].
        rewrite wchunks_S. cbn [combine].
        rewrite <- !app_assoc in I'. cbn [app] in I'. exact I'.
Qed.

Lemma blocks_before_cons p S i :
  blocks_before (p :: S) (Datatypes.S i) = req_blocks p + blocks_before S i.
Proof. reflexivity. Qed.

Lemma blocks_before_nonneg S i : 0 <= blocks_before S i.
Proof.
  revert i. induction S as [|p S IH]; intros [|i];
    try (cbn; lia).
  rewrite blocks_before_cons. pose proof (req_blocks_range p).
  specialize (IH i). lia.
Qed.

Lemma in_combine_wchunks p (Bl : list Z) t :
  0 <= t < zlen Bl ->
  In (znth Bl t, wchunk p t) (combine Bl (wchunks p 0 (length Bl))).
Proof.
  intros Ht. unfold zlen in Ht.
  assert (Hl : length (wchunks p 0 (length Bl)) = length Bl)
    by (unfold wchunks; now rewrite length_map, length_seq).
  replace (znth Bl t, wchunk p t)
    with (nth (Z.to_nat t) (combine Bl (wchunks p 0 (length Bl)))
              (0, wchunk p 0)).
  - apply nth_In. rewrite length_combine, Hl. lia.
  - rewrite combine_nth by (symmetry; exact Hl). unfold znth. f_equal.
    unfold wchunks.
    rewrite (nth_indep _ _ (wchunk p (0 + Z.of_nat 0)))
      by (rewrite length_map, length_seq; lia).
    rewrite (map_nth (fun t => wchunk p (0 + Z.of_nat t))).
    rewrite seq_nth by lia. f_equal. lia.
Qed.

(** Lines 498-604: the blocks of all the payloads. *)
Lemma write_blocks_spec (S : list (list byte)) : forall st f Ds Wd Data,
  dir_inv f0 st f Ds Wd Data ->
  zlen Wd + blocks_before S (length S) <= 65536 ->
  exists st' f' Ds' Bl Data',
    write_blocks 1024 3 (map bfd_of_bytes S) st f = Done st' f'
    /\ dir_inv f0 st' f' Ds' (Wd ++ Bl) Data'
    /\ zlen Bl = blocks_before S (length S)
    /\ (forall x, In x Data -> In x Data')
    /\ (forall i p t, nth_error S i = Some p -> 0 <= t < req_blocks p ->
          In (znth Bl (blocks_before S i + t), wchunk p t) Data')
    /\ (forall x, 0 <= x < zlen Bl -> exists c, In (znth Bl x, c) Data')
    /\ d_num_blocks st <= d_num_blocks st'.
Proof.
  induction S as [|p S IH]; intros st f Ds Wd Data I Hroom.
  - exists st, f, Ds, [], Data. cbn [map write_blocks ret].
    rewrite app_nil_r.
    split; [reflexivity | split; [exact I | split; [reflexivity|]]].
    split; [auto | split; [|split; [|lia]]].
    + intros [|i] p t Hn; discriminate Hn.
    + intros x Hx. change (zlen (@nil Z)) with 0 in Hx. lia.
  - cbn [length] in Hroom. rewrite blocks_before_cons in Hroom.
    pose proof (blocks_before_nonneg S (length S)) as Hbb.
    pose proof (req_blocks_range p) as Hreq.
    cbn [map write_blocks].
    change (bfd_get_size (bfd_of_bytes p)) with (u64 (zlen p)).
    change (u32 (u64 (u64 (zlen p) + 1024 - 1) / 1024))
      with (req_blocks p).
    destruct (write_file_blocks_spec p (Z.to_nat (req_blocks p)) 0
                (bfd_seek_set (bfd_of_bytes p) 0) st f Ds Wd Data I)
      as (st1 & f1 & Ds1 & Blp & E1 & I1 & Hlen1 & Hn1).
    + apply same_bytes_seek_set.
    + reflexivity.
    + lia.
    + intros Hne. pose proof (req_blocks_bound p ltac:(lia)). lia.
    + lia.
    + rewrite Z.mul_0_r, Z.sub_0_r in E1.
      rewrite (bind_Done _ _ _ _ _ E1).
      assert (Hzl : zlen Blp = req_blocks p) by (unfold zlen; lia).
      destruct (IH st1 f1 Ds1 (Wd ++ Blp)
                  (Data ++ combine Blp
                             (wchunks p 0 (Z.to_nat (req_blocks p)))) I1)
        as (st' & f' & Ds' & Bl & Data' & E' & I' & Hlen' & Hincl & Hin
            & Hall & Hn').
      { rewrite zlen_app. lia. }
      exists st', f', Ds', (Blp ++ Bl), Data'.
      split; [exact E'|]. rewrite app_assoc.
      split; [exact I'|].
      split; [rewrite zlen_app; cbn [length];
              rewrite blocks_before_cons; lia|].
      split; [intros x Hx; apply Hincl, in_or_app; left; exact Hx|].
      split; [|split; [|lia]].
      { intros [|i] q t Hq Ht.
        - injection Hq as <-. cbn [blocks_before firstn map fold_right].
          rewrite Z.add_0_l, znth_app_l by lia.
          apply Hincl, in_or_app. right. rewrite <- Hlen1.
          apply in_combine_wchunks. lia.
        - cbn [nth_error] in Hq. rewrite blocks_before_cons.
          pose proof (blocks_before_nonneg S i).
          rewrite znth_app_r by lia.
          replace (req_blocks p + blocks_before S i + t - zlen Blp)
            with (blocks_before S i + t) by lia.
          now apply Hin. }
      { intros x Hx. rewrite zlen_app in Hx.
        destruct (Z_lt_le_dec x (zlen Blp)) as [Hlt | Hge].
        - rewrite znth_app_l by lia. exists (wchunk p x).
          apply Hincl, in_or_app. right. rewrite <- Hlen1.
          apply in_combine_wchunks. lia.
        - rewrite znth_app_r by lia. apply Hall. lia. }
Qed.

End Loops.

(* ================================================================= *)
(** ** The directory once it is written *)

(** The facts survive every change of the stream that keeps the bytes of
    block 3 and of the blocks from 4 to [nb - 1] that are not slots of the
    free block map. *)
Lemma dir_facts_transfer f f' nb Ds Wd Data :
  dir_facts f nb Ds Wd Data ->
  (forall o l b, has f o l -> b * 1024 <= o -> o + zlen l <= b * 1024 + 1024 ->
     b = 3 \/ (4 <= b < nb /\ ~ reserved_slot b) -> has f' o l) ->
  dir_facts f' nb Ds Wd Data.
Proof.
  intros [] T.
  assert (Tw : forall o v b, has_word f o v -> b * 1024 <= o ->
            o + 4 <= b * 1024 + 1024 ->
            b = 3 \/ (4 <= b < nb /\ ~ reserved_slot b) -> has_word f' o v).
  { intros o v b Hw H1 H2 Hb. apply (has_word_transfer f); [exact Hw|].
    intros l Hl Hl4. apply (T o l b); try assumption. lia. }
  constructor; try assumption.
  - intros k Hk. destruct (fin_map0 k Hk) as (A & B & C).
    split; [exact A | split; [exact B|]].
    apply (Tw _ _ 3); [exact C | lia | lia | now left].
  - intros x Hx.
    assert (Hi : 0 <= 4 * x / 1024 < zlen Ds)
      by (Z.div_mod_to_equations; lia).
    destruct (fin_map0 _ Hi) as (A & B & _).
    apply (Tw _ _ (znth Ds (4 * x / 1024)));
      [now apply fin_words0 | | | right; split; assumption];
      Z.div_mod_to_equations; lia.
  - intros B c Hin. destruct (fin_data0 B c Hin) as (A & B' & C & D).
    split; [exact A | split; [exact B' | split; [exact C|]]].
    apply (T _ _ B); [exact D | lia | lia | right; split; assumption].
Qed.

Lemma zlen_map {A B} (g : A -> B) l : zlen (map g l) = zlen l.
Proof. unfold zlen. now rewrite length_map. Qed.

Lemma zlen_cons {A} (x : A) l : zlen (x :: l) = zlen l + 1.
Proof. unfold zlen. cbn [length]. lia. Qed.

Lemma zlen_repeat {A} (x : A) n : zlen (repeat x n) = Z.of_nat n.
Proof. unfold zlen. now rewrite repeat_length. Qed.

(** Line 606-612: the zero bytes that fill the last directory block. *)
Lemma dir_inv_pad f0 st f Ds Wd Data :
  dir_inv f0 st f Ds Wd Data ->
  dir_facts (bfd_bwrite f (repeat x00 (Z.to_nat (d_left st))))
    (d_num_blocks st) Ds Wd Data
  /\ (forall o l, has f0 o l -> o + zlen l <= 1024 ->
        has (bfd_bwrite f (repeat x00 (Z.to_nat (d_left st)))) o l).
Proof.
  intros I. pose proof (dir_inv_block_range _ _ _ _ _ _ I) as (Hblk & Hnb21).
  pose proof (dir_inv_word_index _ _ _ _ _ _ I) as Hwi.
  destruct I.
  set (p := d_block st * 1024 + 1024 - d_left st) in *.
  set (f' := bfd_bwrite f (repeat x00 (Z.to_nat (d_left st)))).
  assert (Hfr : forall o l, has f o l ->
            o + zlen l <= p \/ d_block st * 1024 + 1024 <= o ->
            has f' o l).
  { intros o l Hh Hd. apply has_bwrite_frame; [exact Hh|].
    rewrite inv_pos0, zlen_repeat. fold p. lia. }
  assert (Hfrw : forall o w, has_word f o w ->
            o + 4 <= p \/ d_block st * 1024 + 1024 <= o ->
            has_word f' o w).
  { intros o w Hh Hd. apply (has_word_transfer f); [exact Hh|].
    intros l Hl Hl4. apply Hfr; [exact Hl | lia]. }
  split; [constructor|].
  - assumption.
  - lia.
  - split; [lia | tauto].
  - intros k Hk. destruct (inv_map0 k Hk) as (A & B & C).
    split; [exact A | split; [exact B|]]. apply Hfrw; [exact C | lia].
  - intros x Hx. specialize (Hwi x Hx).
    apply Hfrw; [now apply inv_words0|].
    destruct (Z.eq_dec (4 * x / 1024) (zlen Ds - 1)) as [Elast|Nlast].
    + rewrite Elast, <- inv_block0. left. Z.div_mod_to_equations. lia.
    + pose proof (inv_Ds_distinct0 (4 * x / 1024) ltac:(lia)) as Hd.
      destruct (inv_map0 (4 * x / 1024) Hwi) as (A & _).
      Z.div_mod_to_equations. lia.
  - intros B c Hin. destruct (inv_data0 B c Hin) as (A & B' & C & D & E).
    split; [exact A | split; [exact C | split; [exact D|]]].
    apply Hfr; [exact E | lia].
  - intros o l Hh Hl. apply Hfr; [now apply inv_low0 | lia].
Qed.

(** [pdb_write_directory] as [pdb_write_contents] calls it: block size
    1024, block map at block 3, counter at 4. *)
Lemma pdb_write_directory_spec (S : list (list byte)) (num_files : Z)
    (f : bfd) :
  1 + zlen S + blocks_before S (length S) <= 65536 ->
  exists nb out Ds Bl Data,
    pdb_write_directory (map bfd_of_bytes S) 1024 num_files 3 4 f
    = Done nb out
    /\ dir_facts out nb Ds
         (u32 num_files :: map (fun p => u32 (u64 (zlen p))) S ++ Bl) Data
    /\ zlen Bl = blocks_before S (length S)
    /\ (forall i p t, nth_error S i = Some p -> 0 <= t < req_blocks p ->
          In (znth Bl (blocks_before S i + t), wchunk p t) Data)
    /\ (forall x, 0 <= x < zlen Bl -> exists c, In (znth Bl x, c) Data)
    /\ (forall o l, has f o l -> o + zlen l <= 1024 -> has out o l).
Proof.
  intros Hroom. pose proof (zlen_nonneg S) as HS.
  pose proof (blocks_before_nonneg S (length S)) as Hbb.
  unfold pdb_write_directory.
  change (pdb_allocate_block 4 1024) with (4, 5).
  unfold bind at 1. cbn [seek_set]. unfold bind at 1. cbn [bwrite].
  unfold bind at 1. cbn [seek_set]. unfold bind at 1. cbn [bwrite].
  change (u32 (3 * 1024)) with 3072. change (u32 (4 * 1024)) with 4096.
  change (u32 (1024 - 4)) with 1020.
  set (fa := bfd_bwrite (bfd_seek_set f 3072) (bfd_putl32 4)).
  set (fb := bfd_bwrite (bfd_seek_set fa 4096) (bfd_putl32 num_files)).
  assert (Ha : has_word fa 3072 4).
  { change (has_word fa 3072 (u32 4)). apply has_word_of_has.
    apply (has_bwrite_here (bfd_seek_set f 3072));
      [cbn [bfd_seek_set where_]; lia | discriminate]. }
  assert (I0 : dir_inv f
                 {| d_block := 4; d_left := 1020; d_block_map_off := 4;
                    d_num_blocks := 5 |} fb [4] [u32 num_files] []).
  { constructor; cbn [d_block d_left d_block_map_off d_num_blocks].
    - intros o l Hh Hl. apply has_bwrite_frame;
        [apply has_seek_set, has_bwrite_frame;
           [apply has_seek_set; exact Hh|] |];
        cbn [bfd_seek_set where_]; rewrite zlen_putl32; lia.
    - cbn. lia.
    - reflexivity.
    - cbn. lia.
    - reflexivity.
    - unfold fb. rewrite where_bwrite. cbn [bfd_seek_set where_].
      rewrite zlen_putl32. lia.
    - cbn. split; [lia | split; [lia | discriminate]].
    - intros k Hk. assert (k = 0) by (cbn in Hk; lia). subst k.
      change (znth [4] 0) with 4.
      split; [lia | split].
      + unfold reserved_slot. cbn. lia.
      + apply (has_word_transfer fa); [exact Ha|].
        intros l Hl Hl4. apply has_bwrite_frame;
          [apply has_seek_set; exact Hl|].
        cbn [bfd_seek_set where_]. lia.
    - intros k Hk. cbn in Hk. lia.
    - intros x Hx. assert (x = 0) by (cbn in Hx; lia). subst x.
      change (znth [4] (4 * 0 / 1024) * 1024 + (4 * 0) mod 1024) with 4096.
      change (znth [u32 num_files] 0) with (u32 num_files).
      apply has_word_of_has.
      apply (has_bwrite_here (bfd_seek_set fa 4096));
        [cbn [bfd_seek_set where_]; lia | discriminate].
    - intros B c []. }
  destruct (write_sizes_spec f (map bfd_of_bytes S) _ _ _ _ _ I0)
    as (st1 & f1 & Ds1 & E1 & I1 & Hn1).
  { rewrite zlen_map, zlen_cons. change (zlen (@nil Z)) with 0. lia. }
  rewrite (bind_Done _ _ _ _ _ E1).
  rewrite map_map in I1. cbn [app] in I1.
  destruct (write_blocks_spec f S _ _ _ _ _ I1)
    as (st2 & f2 & Ds2 & Bl & Data & E2 & I2 & Hlen & _ & Hin & Hall & Hn2).
  { rewrite zlen_cons, zlen_map. lia. }
  rewrite (bind_Done _ _ _ _ _ E2).
  unfold bind at 1. cbn [bwrite ret].
  destruct (dir_inv_pad _ _ _ _ _ _ I2) as (F & Hlow).
  exists (d_num_blocks st2),
    (bfd_bwrite f2 (repeat x00 (Z.to_nat (d_left st2)))), Ds2, Bl, Data.
  split; [reflexivity|].
  split; [|split; [exact Hlen
                  | split; [exact Hin | split; [exact Hall | exact Hlow]]]].
  cbn [app] in F. exact F.
Qed.

(* ================================================================= *)
(** ** The whole archive as [pdb_write_contents] leaves it *)

Lemma u32_add_idemp_l a b : u32 (u32 a + b) = u32 (a + b).
Proof. unfold u32. apply Zplus_mod_idemp_l. Qed.

Lemma u32_small z : 0 <= z < 2 ^ 32 -> u32 z = z.
Proof. intros H. unfold u32. now apply Z.mod_small. Qed.

(** Lines 699-712 compute the stream count and the directory size modulo
    [2 ^ 32]. *)
Lemma count_directory_spec (S : list (list byte)) : forall nf ndb,
  count_directory (map bfd_of_bytes S) 1024 nf ndb
  = (u32 (u32 nf + zlen S),
     u32 (u32 ndb + 4 * zlen S + 4 * blocks_before S (length S)))
  \/ S = [] /\ count_directory (map bfd_of_bytes S) 1024 nf ndb = (nf, ndb).
Proof.
  induction S as [|p S IH]; intros nf ndb; [right; split; reflexivity|].
  left. cbn [map count_directory length].
  change (bfd_get_size (bfd_of_bytes p)) with (u64 (zlen p)).
  change (u32 (u64 (u64 (zlen p) + 1024 - 1) / 1024)) with (req_blocks p).
  rewrite blocks_before_cons, zlen_cons.
  destruct (IH (u32 (nf + 1)) (u32 (u32 (ndb + 4) + req_blocks p * 4)))
    as [E | [-> E]]; rewrite E; clear E.
  - f_equal.
    + clear. generalize (zlen S). intros n. u32_lia.
    + clear. generalize (zlen S) (blocks_before S (length S)) (req_blocks p).
      intros n b r. u32_lia.
  - change (zlen (@nil (list byte))) with 0.
    change (blocks_before [] (length (@nil (list byte)))) with 0.
    f_equal.
    + clear. u32_lia.
    + clear. generalize (req_blocks p). intros r. u32_lia.
Qed.

Lemma count_directory_eq (S : list (list byte)) :
  count_directory (map bfd_of_bytes S) 1024 0 4
  = (u32 (zlen S), u32 (4 + 4 * zlen S + 4 * blocks_before S (length S))).
Proof.
  destruct (count_directory_spec S 0 4) as [E | [-> E]]; rewrite E;
    reflexivity.
Qed.

Lemma has_bwrite_at f d o :
  where_ f = o -> 0 <= o -> d <> [] -> has (bfd_bwrite f d) o d.
Proof. intros <- H0 Hd. now apply has_bwrite_here. Qed.

Lemma has_bwrite_away f d o l p :
  has f o l -> where_ f = p -> o + zlen l <= p \/ p + zlen d <= o ->
  has (bfd_bwrite f d) o l.
Proof. intros H <- Hd. now apply has_bwrite_frame. Qed.

Lemma has_seek_cur f p o l : has f o l -> has (bfd_seek_cur f p) o l.
Proof. apply has_same. apply same_bytes_seek_cur. Qed.

Lemma has_putl32_word f o x :
  has f o (bfd_putl32 x) -> 0 <= x < 2 ^ 32 -> has_word f o x.
Proof.
  intros H Hx. rewrite <- (u32_small x Hx). now apply has_word_of_has.
Qed.

Lemma fpm_offset_disjoint (b j o len : Z) :
  0 <= j -> b * 1024 <= o -> o + len <= b * 1024 + 1024 ->
  b <> j * 1024 + 1 ->
  o + len <= fpm_offset 1024 j \/ fpm_offset 1024 j + 1024 <= o.
Proof. unfold fpm_offset. lia. Qed.

Lemma not_reserved_not_fpm (b j : Z) :
  0 <= j -> b = 3 \/ (4 <= b /\ ~ reserved_slot b) -> b <> j * 1024 + 1.
Proof.
  unfold reserved_slot. intros Hj [-> | [Hb Hres]] E.
  - lia.
  - apply Hres. subst b. split; [lia|]. left.
    rewrite Z.add_comm, Z.mod_add by lia. reflexivity.
Qed.

Theorem pdb_write_contents_spec (junk : buffer) (S : list (list byte))
    (f : bfd) :
  where_ f = 0 ->
  1 + zlen S + blocks_before S (length S) <= 65536 ->
  exists out nb Ds Bl Data,
    pdb_write_contents junk (map bfd_of_bytes S) f = Done tt out
    /\ archive_facts out S nb Ds Bl Data.
Proof.
  intros Hw0 Hroom. pose proof (zlen_nonneg S) as HS.
  pose proof (blocks_before_nonneg S (length S)) as Hbb.
  unfold pdb_write_contents.
  rewrite count_directory_eq.
  set (ndb := u32 (4 + 4 * zlen S + 4 * blocks_before S (length S))).
  assert (Hndb : 0 <= ndb < 2 ^ 32)
    by (unfold ndb, u32; apply Z.mod_pos_bound; reflexivity).
  change (pdb_allocate_block 3 1024) with (3, 4).
  unfold bind at 1. cbn [bwrite]. unfold bind at 1. cbn [bwrite].
  unfold bind at 1. cbn [bwrite]. unfold bind at 1. cbn [seek_cur].
  unfold bind at 1. cbn [bwrite]. unfold bind at 1. cbn [seek_cur].
  unfold bind at 1. cbn [bwrite].
  set (f1 := bfd_bwrite f pdb_magic).
  set (f2 := bfd_bwrite f1 (bfd_putl32 1024)).
  set (f3 := bfd_bwrite f2 (bfd_putl32 1)).
  set (f4 := bfd_bwrite (bfd_seek_cur f3 4) (bfd_putl32 ndb)).
  set (f5 := bfd_bwrite (bfd_seek_cur f4 4) (bfd_putl32 3)).
  assert (W1 : where_ f1 = 32) by (unfold f1; rewrite where_bwrite, Hw0;
                                   reflexivity).
  assert (W2 : where_ f2 = 36) by (unfold f2; rewrite where_bwrite, W1;
                                   reflexivity).
  assert (W3 : where_ f3 = 40) by (unfold f3; rewrite where_bwrite, W2;
                                   reflexivity).
  assert (W3' : where_ (bfd_seek_cur f3 4) = 44)
    by (cbn [bfd_seek_cur bfd_seek_set where_]; lia).
  assert (W4 : where_ f4 = 48) by (unfold f4; rewrite where_bwrite, W3';
                                   reflexivity).
  assert (W4' : where_ (bfd_seek_cur f4 4) = 52)
    by (cbn [bfd_seek_cur bfd_seek_set where_]; lia).
  (* the superblock fields, before the directory is written *)
  assert (M5 : has f5 0 pdb_magic).
  { apply (has_bwrite_away _ _ _ _ 52); [|exact W4' | left; cbn; lia].
    apply has_seek_cur.
    apply (has_bwrite_away _ _ _ _ 44); [|exact W3' | left; cbn; lia].
    apply has_seek_cur.
    apply (has_bwrite_away _ _ _ _ 36); [|exact W2 | left; cbn; lia].
    apply (has_bwrite_away _ _ _ _ 32); [|exact W1 | left; cbn; lia].
    apply has_bwrite_at; [exact Hw0 | lia | discriminate]. }
  assert (B5 : has f5 32 (bfd_putl32 1024)).
  { apply (has_bwrite_away _ _ _ _ 52); [|exact W4' | left; cbn; lia].
    apply has_seek_cur.
    apply (has_bwrite_away _ _ _ _ 44); [|exact W3' | left; cbn; lia].
    apply has_seek_cur.
    apply (has_bwrite_away _ _ _ _ 36); [|exact W2 | left; cbn; lia].
    apply has_bwrite_at; [exact W1 | lia | discriminate]. }
  assert (F5 : has f5 36 (bfd_putl32 1)).
  { apply (has_bwrite_away _ _ _ _ 52); [|exact W4' | left; cbn; lia].
    apply has_seek_cur.
    apply (has_bwrite_away _ _ _ _ 44); [|exact W3' | left; cbn; lia].
    apply has_seek_cur.
    apply has_bwrite_at; [exact W2 | lia | discriminate]. }
  assert (N5 : has f5 44 (bfd_putl32 ndb)).
  { apply (has_bwrite_away _ _ _ _ 52); [|exact W4' | left; cbn; lia].
    apply has_seek_cur.
    apply has_bwrite_at; [exact W3' | lia | discriminate]. }
  assert (A5 : has f5 52 (bfd_putl32 3))
    by (apply has_bwrite_at; [exact W4' | lia | discriminate]).
  clearbody f5. clear f1 f2 f3 f4 W1 W2 W3 W3' W4 W4'.
  (* the directory *)
  destruct (pdb_write_directory_spec S (u32 (zlen S)) f5 Hroom)
    as (nb & out1 & Ds & Bl & Data & E1 & F1 & Hlen & Hin & Hall & Hlow).
  rewrite (bind_Done _ _ _ _ _ E1).
  rewrite (u32_small (u32 (zlen S))) in F1
    by (unfold u32; apply Z.mod_pos_bound; reflexivity).
  pose proof (fin_nb _ _ _ _ _ F1) as (Hnb & Hnbmod).
  change (2 ^ 21) with 2097152 in Hnb.
  (* the free block map *)
  unfold pdb_write_bitmap.
  rewrite (u32_small (nb + 1024 - 1))
    by (change (2 ^ 32) with 4294967296; lia).
  rewrite (u32_small (nb - 1)) by (change (2 ^ 32) with 4294967296; lia).
  set (n := Z.to_nat ((nb + 1024 - 1) / 1024)).
  assert (Hn : Z.of_nat n <= 2049)
    by (unfold n; Z.div_mod_to_equations; lia).
  destruct (write_bitmap_blocks_spec 1024 ltac:(lia) ltac:(reflexivity) n 0
              junk (nb - 1) out1)
    as (out2 & E2 & _ & _ & Hframe & _).
  { lia. }
  { change (2 ^ 32) with 4294967296. lia. }
  { intros j Hj. unfold fpm_offset. change (2 ^ 32) with 4294967296. lia. }
  unfold bind at 1. rewrite E2.
  unfold bind at 1. cbn [seek_set]. cbn [bwrite].
  (* what the free block map and the final header field leave in place *)
  assert (T : forall o l b, has out1 o l -> b * 1024 <= o ->
            o + zlen l <= b * 1024 + 1024 ->
            b = 0 \/ b = 3 \/ (4 <= b /\ ~ reserved_slot b) ->
            (b = 0 -> o + zlen l <= 40 \/ 44 <= o) ->
            has (bfd_bwrite (bfd_seek_set out2 40) (bfd_putl32 nb)) o l).
  { intros o l b Hh H1 H2 Hb Hb0.
    apply (has_bwrite_away _ _ _ _ 40); [|reflexivity|].
    - apply has_seek_set. apply Hframe; [exact Hh|].
      intros j Hj. rewrite Z.add_0_l.
      destruct Hb as [-> | Hb].
      + left. unfold fpm_offset. lia.
      + apply (fpm_offset_disjoint b); try lia.
        apply not_reserved_not_fpm; [lia | exact Hb].
    - rewrite zlen_putl32. destruct Hb as [-> | Hb]; [apply Hb0; reflexivity|].
      right. pose proof (zlen_nonneg l). lia. }
  set (out := bfd_bwrite (bfd_seek_set out2 40) (bfd_putl32 nb)) in *.
  exists out, nb, Ds, Bl, Data. split; [reflexivity|].
  constructor.
  - apply (T _ _ 0); [apply Hlow; [exact M5 | cbn; lia] | | | | ];
      cbn; try lia; try (now left).
  - apply has_putl32_word; [|change (2 ^ 32) with 4294967296; lia].
    apply (T _ _ 0); [apply Hlow; [exact B5 | cbn; lia] | | | | ];
      cbn; try lia; try (now left).
  - apply has_putl32_word; [|change (2 ^ 32) with 4294967296; lia].
    apply (T _ _ 0); [apply Hlow; [exact F5 | cbn; lia] | | | | ];
      cbn; try lia; try (now left).
  - apply has_putl32_word; [|change (2 ^ 32) with 4294967296; lia].
    apply (has_bwrite_at (bfd_seek_set out2 40));
      [reflexivity | lia | discriminate].
  - apply has_putl32_word; [|exact Hndb].
    apply (T _ _ 0); [apply Hlow; [exact N5 | cbn; lia] | | | | ];
      cbn; try lia; try (now left).
  - apply has_putl32_word; [|change (2 ^ 32) with 4294967296; lia].
    apply (T _ _ 0); [apply Hlow; [exact A5 | cbn; lia] | | | | ];
      cbn; try lia; try (now left).
  - apply (dir_facts_transfer out1); [exact F1|].
    intros o l b Hh H1 H2 Hb. apply (T o l b Hh H1 H2); [|lia].
    right. destruct Hb as [-> | [Hb Hres]]; [now left | right].
    split; [lia | exact Hres].
  - exact Hlen.
  - exact Hin.
  - exact Hall.
Qed.

(* ================================================================= *)
(** ** Round trip *)

Lemma req_blocks_small s :
  zlen s < 2 ^ 32 -> req_blocks s = ceil_div (zlen s) 1024.
Proof.
  intros H. pose proof (zlen_nonneg s). unfold req_blocks, ceil_div.
  change (2 ^ 32) with 4294967296 in H.
  unfold u64. rewrite (Z.mod_small (zlen s))
    by (change (2 ^ 64) with 18446744073709551616; lia).
  rewrite (Z.mod_small (zlen s + 1024 - 1))
    by (change (2 ^ 64) with 18446744073709551616; lia).
  apply u32_small. change (2 ^ 32) with 4294967296.
  Z.div_mod_to_equations. lia.
Qed.

Lemma blocks_before_small S i :
  Forall (fun s => zlen s < 2 ^ 32) S ->
  blocks_before S i
  = fold_right Z.add 0 (map (fun s => ceil_div (zlen s) 1024) (firstn i S)).
Proof.
  intros HF. revert i. induction HF as [|s S Hs HF IH]; intros [|i];
    try reflexivity.
  rewrite blocks_before_cons, IH, req_blocks_small by assumption.
  reflexivity.
Qed.

Lemma blocks_before_step S i p :
  nth_error S i = Some p ->
  blocks_before S i + req_blocks p <= blocks_before S (length S).
Proof.
  revert i. induction S as [|q S IH]; intros [|i] Hn; try discriminate.
  - injection Hn as ->. cbn [length]. rewrite blocks_before_cons.
    pose proof (blocks_before_nonneg S (length S)).
    change (blocks_before (p :: S) 0) with 0. lia.
  - cbn [nth_error] in Hn. cbn [length]. rewrite !blocks_before_cons.
    specialize (IH i Hn). lia.
Qed.

Lemma firstn_same_min {A} (l : list A) (a b : nat) :
  Nat.min a (length l) = Nat.min b (length l) -> firstn a l = firstn b l.
Proof.
  revert a b. induction l as [|x l IH]; intros a b H.
  - now rewrite !firstn_nil.
  - destruct a, b; cbn [length] in H; try reflexivity; try lia.
    cbn [firstn]. f_equal. apply IH. lia.
Qed.

Lemma map_seq_nth {A B} (g : nat -> B) (h : A -> B) (d : A) (l : list A) :
  (forall i, (i < length l)%nat -> g i = h (nth i l d)) ->
  map g (seq 0 (length l)) = map h l.
Proof.
  revert g. induction l as [|x l IH]; intros g Hg; [reflexivity|].
  cbn [length seq map]. rewrite (Hg 0%nat) by (cbn; lia). f_equal.
  rewrite <- seq_shift, map_map. apply IH.
  intros i Hi. rewrite (Hg (Datatypes.S i)) by (cbn; lia). reflexivity.
Qed.

(** The sizes the reader adds up for the streams before [i] are the block
    counts the writer used. *)
Lemma sum_blocks_written (S : list (list byte)) :
  Forall (fun s => zlen s + 1024 < 2 ^ 32) S ->
  sum_blocks 1024 (map (fun p => u32 (u64 (zlen p))) S)
  = fold_right Z.add 0 (map req_blocks S).
Proof.
  induction 1 as [|s S Hs HF IH]; [reflexivity|].
  cbn [map]. change (sum_blocks 1024 (?x :: ?l))
    with (reader_blocks 1024 (norm_size x) + sum_blocks 1024 l).
  cbn [fold_right]. rewrite IH. f_equal.
  pose proof (zlen_nonneg s). change (2 ^ 32) with 4294967296 in Hs.
  rewrite req_blocks_small by (change (2 ^ 32) with 4294967296; lia).
  unfold u64. rewrite (Z.mod_small (zlen s))
    by (change (2 ^ 64) with 18446744073709551616; lia).
  rewrite (u32_small (zlen s)) by (change (2 ^ 32) with 4294967296; lia).
  unfold norm_size.
  destruct (Z.eqb_spec (zlen s) 4294967295); [lia|].
  unfold reader_blocks, ceil_div.
  rewrite u32_small by (change (2 ^ 32) with 4294967296; lia).
  reflexivity.
Qed.

Lemma znth_cons_succ (x : Z) (l : list Z) (k : Z) :
  0 <= k -> znth (x :: l) (k + 1) = znth l k.
Proof.
  intros Hk. unfold znth.
  replace (Z.to_nat (k + 1)) with (Datatypes.S (Z.to_nat k)) by lia.
  reflexivity.
Qed.

Lemma Forall_firstn_of {A} (P : A -> Prop) (l : list A) (i : nat) :
  Forall P l -> Forall P (firstn i l).
Proof.
  intros H. revert i. induction H as [|x l Hx H IH]; intros [|i];
    cbn [firstn]; auto.
Qed.

(** Every stream of a written archive is read back as it was given. *)
Lemma archive_read out S nb Ds Bl Data :
  archive_facts out S nb Ds Bl Data ->
  1 + zlen S + blocks_before S (length S) <= 65536 ->
  Forall (fun s => zlen s + 1024 < 2 ^ 32) S ->
  forall i p, nth_error S i = Some p ->
  forall g, same_bytes out g ->
  exists file g',
    pdb_get_elt_at_index (Z.of_nat i) g = Done file g'
    /\ same_bytes out g'
    /\ bfd_bytes file = p
    /\ arelt_data file
       = Some {| parsed_size := zlen p; key := Z.of_nat i |}
    /\ filename file = sprintf_04lx (Z.of_nat i).
Proof.
  intros [] Hroom Hsmall i p Hnth g Sg.
  pose proof (zlen_nonneg S) as HS.
  pose proof (blocks_before_nonneg S (length S)) as Hbb.
  pose proof (blocks_before_nonneg S i) as Hbi.
  pose proof (blocks_before_step S i p Hnth) as Hstep.
  pose proof (req_blocks_range p) as Hreq.
  assert (Hi : (i < length S)%nat) by (apply nth_error_Some; congruence).
  assert (Hp : zlen p + 1024 < 2 ^ 32)
    by (rewrite Forall_forall in Hsmall; apply Hsmall;
        eapply nth_error_In; exact Hnth).
  change (2 ^ 32) with 4294967296 in Hp.
  pose proof (zlen_nonneg p) as Hp0.
  set (sz := fun q : list byte => u32 (u64 (zlen q))) in *.
  set (W := u32 (zlen S) :: map sz S ++ Bl) in *.
  assert (Hn : u32 (zlen S) = zlen S)
    by (apply u32_small; change (2 ^ 32) with 4294967296; lia).
  assert (HW : zlen W = 1 + zlen S + zlen Bl)
    by (unfold W; rewrite zlen_cons, zlen_app, zlen_map; lia).
  assert (Hszp : sz p = zlen p).
  { unfold sz, u64. rewrite (Z.mod_small (zlen p))
      by (change (2 ^ 64) with 18446744073709551616; lia).
    apply u32_small. change (2 ^ 32) with 4294967296. lia. }
  assert (L : dir_layout out 1024 3 Ds W).
  { destruct arc_dir0. constructor.
    - exact arc_block_size0.
    - apply valid4_spec. reflexivity.
    - exact arc_map_addr0.
    - change (2 ^ 32) with 4294967296. lia.
    - lia.
    - exact fin_cap0.
    - intros k Hk. destruct (fin_map0 k Hk) as (A & _ & C).
      change (2 ^ 21) with 2097152 in fin_nb0.
      change (2 ^ 32) with 4294967296.
      split; [lia | split; [lia | exact C]].
    - exact fin_words0. }
  assert (HW0 : znth W 0 = zlen S) by (unfold W; exact Hn).
  assert (HWi : znth W (Z.of_nat i + 1) = zlen p).
  { unfold W. rewrite znth_cons_succ by lia.
    rewrite znth_app_l by (rewrite zlen_map; unfold zlen; lia).
    unfold znth. rewrite Nat2Z.id.
    rewrite (nth_error_nth _ _ 0 (map_nth_error sz i S Hnth)).
    exact Hszp. }
  assert (Hfirst : firstn (Z.to_nat (Z.of_nat i)) (tl W)
                   = map sz (firstn i S)).
  { rewrite Nat2Z.id. unfold W. cbn [tl].
    rewrite firstn_app, length_map.
    replace (i - length S)%nat with 0%nat by lia.
    cbn [firstn]. rewrite app_nil_r. apply firstn_map. }
  assert (Hsum : sum_blocks 1024 (firstn (Z.to_nat (Z.of_nat i)) (tl W))
                 = blocks_before S i).
  { rewrite Hfirst. unfold sz. rewrite sum_blocks_written;
      [reflexivity | now apply Forall_firstn_of]. }
  destruct (pdb_get_elt_at_index_ok out 1024 3 Ds W L (Z.of_nat i) p)
    with (g := g) as (file & g' & E & Sg' & Hbytes & Had & Hfn).
  - rewrite HW0. unfold zlen. lia.
  - rewrite HW. unfold zlen at 1. pose proof (zlen_nonneg Bl). lia.
  - rewrite HWi. unfold norm_size.
    destruct (Z.eqb_spec (zlen p) 4294967295); [lia | reflexivity].
  - rewrite HW0, Hsum. intros k Hk Hklt.
    assert (Hkreq : 0 <= k < req_blocks p).
    { rewrite req_blocks_small by (change (2 ^ 32) with 4294967296; lia).
      unfold ceil_div. Z.div_mod_to_equations. lia. }
    pose proof (arc_blocks0 i p k Hnth Hkreq) as Hin.
    assert (HWk : znth W (zlen S + 1 + blocks_before S i + k)
                  = znth Bl (blocks_before S i + k)).
    { unfold W.
      replace (zlen S + 1 + blocks_before S i + k)
        with (zlen S + blocks_before S i + k + 1) by lia.
      rewrite znth_cons_succ by lia.
      rewrite znth_app_r by (rewrite zlen_map; lia).
      rewrite zlen_map. f_equal. lia. }
    rewrite HWk.
    destruct (fin_data _ _ _ _ _ arc_dir0 _ _ Hin) as (A & _ & _ & Hhas).
    pose proof (fin_nb _ _ _ _ _ arc_dir0) as (Hnb & _).
    change (2 ^ 21) with 2097152 in Hnb.
    split; [rewrite HW; lia|].
    split; [lia|]. split; [change (2 ^ 32) with 4294967296; lia|].
    unfold wchunk in Hhas. apply has_app in Hhas. destruct Hhas as [Hhas _].
    replace (Z.to_nat (k * 1024)) with (Z.to_nat (1024 * k)) by lia.
    erewrite firstn_same_min; [exact Hhas|].
    rewrite length_skipn. unfold u64.
    rewrite (Z.mod_small (zlen p))
      by (change (2 ^ 64) with 18446744073709551616; lia).
    unfold zlen in *. lia.
  - exact Sg.
  - exists file, g'. auto.
Qed.

Lemma fits_block_map_page_iff D : fits_block_map_page D <-> D <= 262144.
Proof.
  unfold fits_block_map_page, ceil_div. split; intros H;
    Z.div_mod_to_equations; lia.
Qed.

Lemma ceil_div_nonneg a : 0 <= a -> 0 <= ceil_div a 1024.
Proof. intros H. unfold ceil_div. apply Z.div_pos; lia. Qed.

Lemma ceil_sum_nonneg (S : list (list byte)) :
  0 <= fold_right Z.add 0 (map (fun s => ceil_div (zlen s) 1024) S).
Proof.
  induction S as [|s S IH]; cbn [map fold_right]; [lia|].
  pose proof (ceil_div_nonneg (zlen s) (zlen_nonneg s)). lia.
Qed.

Lemma ceil_sum_bounds_each (S : list (list byte)) (b : Z) :
  fold_right Z.add 0 (map (fun s => ceil_div (zlen s) 1024) S) <= b ->
  Forall (fun s => ceil_div (zlen s) 1024 <= b) S.
Proof.
  induction S as [|s S IH]; cbn [map fold_right]; intros H;
    constructor.
  - pose proof (ceil_sum_nonneg S). lia.
  - apply IH. pose proof (ceil_div_nonneg (zlen s) (zlen_nonneg s)). lia.
Qed.

(** What the hypotheses of the round trip give the writer and the reader. *)
Lemma round_trip_bounds (S : list (list byte)) :
  Forall (fun s => zlen s < 2 ^ 32) S ->
  fits_block_map_page (directory_size S) ->
  1 + zlen S + blocks_before S (length S) <= 65536
  /\ Forall (fun s => zlen s + 1024 < 2 ^ 32) S.
Proof.
  intros Hsmall Hfit. apply fits_block_map_page_iff in Hfit.
  unfold directory_size in Hfit.
  pose proof (zlen_nonneg S) as HS.
  split.
  - rewrite blocks_before_small, firstn_all by assumption. lia.
  - pose proof (ceil_sum_bounds_each S 65536 ltac:(lia)) as Hb.
    rewrite Forall_forall in *. intros s Hs. specialize (Hb s Hs).
    cbv beta in Hb. unfold ceil_div in Hb.
    change (2 ^ 32) with 4294967296.
    Z.div_mod_to_equations. lia.
Qed.

Lemma skipn_nth_error {A} (l : list A) (i : nat) (x : A) :
  nth_error l i = Some x -> skipn i l = x :: skipn (Datatypes.S i) l.
Proof.
  revert i. induction l as [|y l IH]; intros [|i] H; try discriminate.
  - injection H as ->. reflexivity.
  - cbn [nth_error] in H. cbn [skipn]. rewrite (IH i H). reflexivity.
Qed.

(** Indexed access at [i], [i + 1], ... on a written archive. *)
Lemma get_from_written out S nb Ds Bl Data :
  archive_facts out S nb Ds Bl Data ->
  1 + zlen S + blocks_before S (length S) <= 65536 ->
  Forall (fun s => zlen s + 1024 < 2 ^ 32) S ->
  forall m i g, same_bytes out g -> (i + m <= length S)%nat ->
    map bfd_bytes (fst (get_from m (Z.of_nat i) g)) = firstn m (skipn i S).
Proof.
  intros F Hroom Hsmall. induction m as [|m IH]; intros i g Sg Hi;
    [reflexivity|].
  destruct (nth_error S i) as [p|] eqn:Hnth;
    [|apply nth_error_None in Hnth; lia].
  destruct (archive_read out S nb Ds Bl Data F Hroom Hsmall i p Hnth g Sg)
    as (file & g' & E & Sg' & Hbytes & _).
  cbn [get_from]. rewrite E.
  replace (Z.of_nat i + 1) with (Z.of_nat (Datatypes.S i)) by lia.
  specialize (IH (Datatypes.S i) g' Sg' ltac:(lia)).
  destruct (get_from m (Z.of_nat (Datatypes.S i)) g') as [l e].
  cbn [fst map] in *. rewrite IH, Hbytes.
  rewrite (skipn_nth_error S i p Hnth). reflexivity.
Qed.

(** C1.  Round trip: for payloads shorter than [2 ^ 32] bytes whose
    directory fits one block-map page, [pdb_write_contents] succeeds, and
    [pdb_get_elt_at_index] at the indices 0, 1, ..., [n - 1], in this order
    on the archive written, delivers exactly the payloads, byte for byte;
    the same holds for each index taken alone. *)
Theorem round_trip (junk : buffer) (S : list (list byte)) (f : bfd) :
  where_ f = 0 ->
  Forall (fun s => zlen s < 2 ^ 32) S ->
  fits_block_map_page (directory_size S) ->
  exists out,
    pdb_write_contents junk (map bfd_of_bytes S) f = Done tt out
    /\ map bfd_bytes (fst (get_from (length S) 0 out)) = S
    /\ extract_all out (length S) = map Some S.
Proof.
  intros Hw Hlt Hfit.
  destruct (round_trip_bounds S Hlt Hfit) as (Hroom & Hsmall).
  destruct (pdb_write_contents_spec junk S f Hw Hroom)
    as (out & nb & Ds & Bl & Data & E & F).
  exists out. split; [exact E | split].
  - change 0 with (Z.of_nat 0).
    rewrite (get_from_written out S nb Ds Bl Data F Hroom Hsmall
               (length S) 0%nat out (same_bytes_refl out)) by lia.
    cbn [skipn]. apply firstn_all.
  - unfold extract_all. apply (map_seq_nth _ _ []).
    intros i Hi.
    destruct (nth_error S i) as [p|] eqn:Hnth;
      [|apply nth_error_None in Hnth; lia].
    destruct (archive_read out S nb Ds Bl Data F Hroom Hsmall i p Hnth out
                (same_bytes_refl out))
      as (file & g' & Eg & _ & Hbytes & _).
    unfold stream_payload. rewrite Eg, Hbytes.
    now rewrite (nth_error_nth _ _ [] Hnth).
Qed.

Lemma round_trip_witness :
  where_ empty_bfd = 0
  /\ Forall (fun s => zlen s < 2 ^ 32) sample_payloads
  /\ fits_block_map_page (directory_size sample_payloads)
  /\ exists out,
       pdb_write_contents (fun _ => xcc) (map bfd_of_bytes sample_payloads)
         empty_bfd = Done tt out
       /\ map bfd_bytes (fst (get_from (length sample_payloads) 0 out))
          = sample_payloads
       /\ extract_all out (length sample_payloads)
          = map Some sample_payloads.
Proof.
  assert (H1 : where_ empty_bfd = 0) by reflexivity.
  assert (H2 : Forall (fun s => zlen s < 2 ^ 32) sample_payloads)
    by (repeat constructor).
  assert (H3 : fits_block_map_page (directory_size sample_payloads))
    by (apply fits_block_map_page_iff; vm_compute; discriminate).
  split; [exact H1 | split; [exact H2 | split; [exact H3|]]].
  exact (round_trip (fun _ => xcc) sample_payloads empty_bfd H1 H2 H3).
Defined.

(* ================================================================= *)
(** ** Where the writer puts its blocks *)

(** C5.  With [block_size = 1024] and the counter starting at 3, no block
    that [pdb_allocate_block] returns is at an index [b >= 1] with
    [b mod 1024] equal to 1 or 2; hence, in an archive that
    [pdb_write_contents] writes, neither the block map, nor a block of the
    directory, nor a data block of a stream is at such an index. *)
Theorem allocator_stride :
  (forall n b, In b (alloc_seq n 3 1024) -> ~ reserved_slot b)
  /\ (forall junk S f,
        where_ f = 0 ->
        Forall (fun s => zlen s < 2 ^ 32) S ->
        fits_block_map_page (directory_size S) ->
        exists out nb Ds Bl Data,
          pdb_write_contents junk (map bfd_of_bytes S) f = Done tt out
          /\ archive_facts out S nb Ds Bl Data
          /\ ~ reserved_slot 3
          /\ (forall k, 0 <= k < zlen Ds -> ~ reserved_slot (znth Ds k))
          /\ (forall x, 0 <= x < zlen Bl -> ~ reserved_slot (znth Bl x))).
Proof.
  split.
  - intros n b. apply alloc_seq_not_reserved;
      [change (2 ^ 32) with 4294967296; lia | discriminate].
  - intros junk S f Hw Hlt Hfit.
    destruct (round_trip_bounds S Hlt Hfit) as (Hroom & _).
    destruct (pdb_write_contents_spec junk S f Hw Hroom)
      as (out & nb & Ds & Bl & Data & E & F).
    exists out, nb, Ds, Bl, Data.
    split; [exact E | split; [exact F | split; [|split]]].
    + unfold reserved_slot. cbn. lia.
    + intros k Hk.
      destruct (fin_map _ _ _ _ _ (arc_dir _ _ _ _ _ _ F) k Hk)
        as (_ & Hres & _).
      exact Hres.
    + intros x Hx.
      destruct (arc_blocks_data _ _ _ _ _ _ F x Hx) as (c & Hin).
      destruct (fin_data _ _ _ _ _ (arc_dir _ _ _ _ _ _ F) _ _ Hin)
        as (_ & Hres & _).
      exact Hres.
Qed.

Lemma allocator_stride_witness :
  In 1027 (alloc_seq 1030 3 1024)
  /\ ~ reserved_slot 1027
  /\ exists out nb Ds Bl Data,
       pdb_write_contents (fun _ => xcc) (map bfd_of_bytes sample_payloads)
         empty_bfd = Done tt out
       /\ archive_facts out sample_payloads nb Ds Bl Data
       /\ ~ reserved_slot 3
       /\ (forall k, 0 <= k < zlen Ds -> ~ reserved_slot (znth Ds k))
       /\ (forall x, 0 <= x < zlen Bl -> ~ reserved_slot (znth Bl x)).
Proof.
  assert (H : In 1027 (alloc_seq 1030 3 1024)).
  { replace 1027 with (nth 1022 (alloc_seq 1030 3 1024) 0)
      by (vm_compute; reflexivity).
    apply nth_In. apply Nat.ltb_lt. vm_compute. reflexivity. }
  split; [exact H | split].
  - exact (proj1 allocator_stride 1030%nat 1027 H).
  - apply (proj2 allocator_stride (fun _ => xcc) sample_payloads empty_bfd).
    + reflexivity.
    + repeat constructor.
    + apply fits_block_map_page_iff. vm_compute. discriminate.
Defined.

(* ================================================================= *)
(** ** The directory size in the superblock *)

Lemma req_blocks_exact s :
  zlen s + 1024 <= 2 ^ 42 -> req_blocks s = ceil_div (zlen s) 1024.
Proof.
  intros H. pose proof (zlen_nonneg s). unfold req_blocks, ceil_div.
  change (2 ^ 42) with 4398046511104 in H.
  unfold u64. rewrite (Z.mod_small (zlen s))
    by (change (2 ^ 64) with 18446744073709551616; lia).
  rewrite (Z.mod_small (zlen s + 1024 - 1))
    by (change (2 ^ 64) with 18446744073709551616; lia).
  apply u32_small. change (2 ^ 32) with 4294967296.
  Z.div_mod_to_equations. lia.
Qed.

Lemma blocks_before_exact S :
  Forall (fun s => zlen s + 1024 <= 2 ^ 42) S ->
  blocks_before S (length S)
  = fold_right Z.add 0 (map (fun s => ceil_div (zlen s) 1024) S).
Proof.
  induction 1 as [|s S Hs HF IH]; [reflexivity|].
  cbn [length]. rewrite blocks_before_cons, IH, req_blocks_exact
    by assumption.
  reflexivity.
Qed.

(** The value computed at lines 699-712, when the exact directory size is
    below [2 ^ 32]. *)
Lemma count_directory_exact (S : list (list byte)) :
  directory_size S < 2 ^ 32 ->
  snd (count_directory (map bfd_of_bytes S) 1024 0 4) = directory_size S.
Proof.
  intros Hlt. unfold directory_size in *.
  pose proof (zlen_nonneg S) as HS.
  pose proof (ceil_sum_nonneg S) as Hsum.
  change (2 ^ 32) with 4294967296 in Hlt.
  assert (Hsmall : Forall (fun s => zlen s + 1024 <= 2 ^ 42) S).
  { pose proof (ceil_sum_bounds_each S 1073741824 ltac:(lia)) as Hb.
    rewrite Forall_forall in *. intros s Hs. specialize (Hb s Hs).
    cbv beta in Hb. unfold ceil_div in Hb.
    change (2 ^ 42) with 4398046511104.
    Z.div_mod_to_equations. lia. }
  rewrite count_directory_eq. cbn [snd].
  rewrite (blocks_before_exact S Hsmall).
  apply u32_small. change (2 ^ 32) with 4294967296. lia.
Qed.

(* ================================================================= *)
(** ** A directory that does not fit one block-map page *)

Lemma dir_inv_words_bound f0 st f Ds Wd Data :
  dir_inv f0 st f Ds Wd Data -> zlen Wd <= 65536.
Proof.
  intros I. pose proof (inv_left _ _ _ _ _ _ I) as (Hl & Hw).
  pose proof (inv_Ds_len _ _ _ _ _ _ I). lia.
Qed.

(** Lines 458-462 and 516-521: with 256 directory blocks entered in the
    block map and the last one full, the next word is refused. *)
Lemma next_dir_block_full f0 st f Ds Wd Data :
  dir_inv f0 st f Ds Wd Data -> zlen Wd = 65536 ->
  next_dir_block 1024 3 st f = Fail bfd_error_invalid_operation f.
Proof.
  intros I Hfull. pose proof (inv_left _ _ _ _ _ _ I) as (Hl & Hw).
  pose proof (inv_Ds_len _ _ _ _ _ _ I) as HD.
  pose proof (inv_bmo _ _ _ _ _ _ I) as Hb.
  assert (E0 : d_left st = 0) by lia.
  assert (E1 : d_block_map_off st = 1024) by lia.
  unfold next_dir_block. rewrite E0, E1. reflexivity.
Qed.

Lemma write_sizes_over f0 (arelts : list bfd) : forall st f Ds Wd Data,
  dir_inv f0 st f Ds Wd Data -> 65536 < zlen Wd + zlen arelts ->
  exists f',
    write_sizes 1024 3 arelts st f = Fail bfd_error_invalid_operation f'
    /\ (forall o l, has f0 o l -> o + zlen l <= 1024 -> has f' o l).
Proof.
  induction arelts as [|a rest IH]; intros st f Ds Wd Data I Hover.
  - pose proof (dir_inv_words_bound _ _ _ _ _ _ I).
    change (zlen (@nil bfd)) with 0 in Hover. lia.
  - rewrite zlen_cons in Hover. cbn [write_sizes].
    destruct (Z.eq_dec (zlen Wd) 65536) as [Hfull|Hnot].
    + exists f.
      rewrite (bind_Fail _ _ _ _ _ (next_dir_block_full _ _ _ _ _ _ I Hfull)).
      split; [reflexivity | exact (inv_low _ _ _ _ _ _ I)].
    + pose proof (dir_inv_words_bound _ _ _ _ _ _ I).
      destruct (dir_inv_next_dir_block f0 st f Ds Wd Data I ltac:(lia))
        as (st1 & f1 & Ds1 & E1 & I1 & Hl1 & Hn1).
      rewrite (bind_Done _ _ _ _ _ E1).
      unfold bind at 1. cbn [bwrite].
      pose proof (dir_inv_write_word f0 st1 f1 Ds1 Wd Data I1
                    (bfd_get_size a) (d_num_blocks st1) Hl1 ltac:(lia)
                    (proj2 (proj2 (inv_nb _ _ _ _ _ _ I1)))) as I2.
      apply (IH _ _ _ _ _ I2). rewrite zlen_snoc. lia.
Qed.

Lemma write_file_blocks_over f0 (p : list byte) (n : nat) :
  forall k arelt st f Ds Wd Data,
    dir_inv f0 st f Ds Wd Data ->
    same_bytes (bfd_of_bytes p) arelt -> where_ arelt = 1024 * k ->
    0 <= k ->
    (n <> 0%nat -> 1024 * (k + Z.of_nat n - 1) < u64 (zlen p)) ->
    65536 < zlen Wd + Z.of_nat n ->
    exists f',
      write_file_blocks n 1024 3 arelt (u64 (zlen p) - 1024 * k) st f
      = Fail bfd_error_invalid_operation f'
      /\ (forall o l, has f0 o l -> o + zlen l <= 1024 -> has f' o l).
Proof.
  induction n as [|n IH];
    intros k arelt st f Ds Wd Data I Sa Wa Hk Hlt Hover.
  - pose proof (dir_inv_words_bound _ _ _ _ _ _ I). lia.
  - specialize (Hlt ltac:(lia)).
    set (L := u64 (zlen p)) in *.
    cbn [write_file_blocks].
    destruct (Z.eq_dec (zlen Wd) 65536) as [Hfull|Hnot].
    { exists f.
      rewrite (bind_Fail _ _ _ _ _ (next_dir_block_full _ _ _ _ _ _ I Hfull)).
      split; [reflexivity | exact (inv_low _ _ _ _ _ _ I)]. }
    pose proof (dir_inv_words_bound _ _ _ _ _ _ I) as HWd.
    destruct (dir_inv_next_dir_block f0 st f Ds Wd Data I ltac:(lia))
      as (st1 & f1 & Ds1 & E1 & I1 & Hl1 & Hn1).
    rewrite (bind_Done _ _ _ _ _ E1).
    pose proof (dir_inv_block_range _ _ _ _ _ _ I1) as (Hblk1 & Hnb21).
    change (2 ^ 21) with 2097152 in Hnb21.
    pose proof (inv_nb _ _ _ _ _ _ I1) as (Hnb5 & _ & Hnbmod).
    pose proof (pdb_allocate_block_writer (d_num_blocks st1)) as Ha.
    destruct (pdb_allocate_block (d_num_blocks st1) 1024) as [B nb'].
    destruct Ha as (HB & Hnb' & Hmod & Hres);
      [change (2 ^ 22) with 4194304; lia | exact Hnbmod |].
    unfold bind at 1. cbn [bwrite].
    pose proof (dir_inv_write_word f0 st1 f1 Ds1 Wd Data I1 B nb' Hl1
                  ltac:(lia) Hmod) as I2.
    replace (u32 B) with B in I2 by u32_lia.
    set (st2 := {| d_block := d_block st1;
                   d_left := u32 (d_left st1 - 4);
                   d_block_map_off := d_block_map_off st1;
                   d_num_blocks := nb' |}) in *.
    set (f2 := bfd_bwrite f1 (bfd_putl32 B)) in *.
    assert (Hk' : 1024 * k < L) by lia.
    assert (Htr : (if L - 1024 * k >? 1024 then 1024 else L - 1024 * k)
                  = Z.min 1024 (L - 1024 * k))
      by (destruct (Z.gtb_spec (L - 1024 * k) 1024); lia).
    rewrite Htr.
    destruct (bfd_bread_payload p arelt k Sa Wa Hk Hk')
      as (Edata & Hdlen & Sa' & Wa').
    fold L in Edata, Hdlen, Sa', Wa'.
    destruct (bfd_bread arelt (Z.min 1024 (L - 1024 * k)))
      as [data arelt'].
    cbn [fst snd] in Edata, Hdlen, Sa', Wa'.
    rewrite Hdlen, Z.eqb_refl. cbn [negb].
    set (buf := data ++ repeat x00
                  (Z.to_nat (1024 - Z.min 1024 (L - 1024 * k)))).
    assert (Ebuf : buf = wchunk p k).
    { unfold buf, wchunk. fold L. now rewrite Edata. }
    assert (Hbuf : zlen buf = 1024)
      by (rewrite Ebuf; apply wchunk_length; assumption).
    unfold bind at 1. cbn [seek_set].
    unfold bind at 1. cbn [bwrite].
    unfold bind at 1. cbn [seek_set].
    replace (u32 (B * 1024)) with (B * 1024) by u32_lia.
    pose proof (inv_pos _ _ _ _ _ _ I2) as Hpos2.
    pose proof (inv_left _ _ _ _ _ _ I2) as (Hleft2 & _).
    cbn [st2 d_block d_left] in Hpos2, Hleft2.
    replace (u32 (u32 (u32 (d_block st1 * 1024) + 1024)
                  - u32 (d_left st1 - 4)))
      with (where_ f2) by (rewrite Hpos2; u32_lia).
    assert (I3 : dir_inv f0 st2
                   (bfd_seek_set
                      (bfd_bwrite (bfd_seek_set f2 (B * 1024)) buf)
                      (where_ f2))
                   Ds1 (Wd ++ [B]) (Data ++ [(B, buf)])).
    { apply dir_inv_write_data; try assumption.
      - cbn [st2 d_num_blocks]. lia.
      - intros j Hj.
        destruct (inv_map _ _ _ _ _ _ I1 j Hj) as (A & _). lia.
      - intros B' c Hin.
        destruct (inv_data _ _ _ _ _ _ I1 B' c Hin) as (A & _). lia. }
    destruct n as [|n'].
    + exfalso. lia.
    + assert (Hmin : Z.min 1024 (L - 1024 * k) = 1024) by lia.
      rewrite Hmin in *.
      replace (L - 1024 * k - 1024) with (L - 1024 * (k + 1)) by lia.
      apply (IH (k + 1) arelt' st2 _ Ds1 (Wd ++ [B])
               (Data ++ [(B, buf)]) I3 Sa' ltac:(lia) ltac:(lia)).
      * intros _. lia.
      * rewrite zlen_snoc. lia.
Qed.

Lemma write_blocks_over f0 (S : list (list byte)) : forall st f Ds Wd Data,
  dir_inv f0 st f Ds Wd Data ->
  65536 < zlen Wd + blocks_before S (length S) ->
  exists f',
    write_blocks 1024 3 (map bfd_of_bytes S) st f
    = Fail bfd_error_invalid_operation f'
    /\ (forall o l, has f0 o l -> o + zlen l <= 1024 -> has f' o l).
Proof.
  induction S as [|p S IH]; intros st f Ds Wd Data I Hover.
  - pose proof (dir_inv_words_bound _ _ _ _ _ _ I).
    change (blocks_before [] (length (@nil (list byte)))) with 0 in Hover.
    lia.
  - cbn [length] in Hover. rewrite blocks_before_cons in Hover.
    pose proof (req_blocks_range p) as Hreq.
    cbn [map write_blocks].
    change (bfd_get_size (bfd_of_bytes p)) with (u64 (zlen p)).
    change (u32 (u64 (u64 (zlen p) + 1024 - 1) / 1024))
      with (req_blocks p).
    assert (Hb : Z.to_nat (req_blocks p) <> 0%nat ->
                 1024 * (0 + Z.of_nat (Z.to_nat (req_blocks p)) - 1)
                 < u64 (zlen p)).
    { intros Hne. pose proof (req_blocks_bound p ltac:(lia)). lia. }
    destruct (Z_le_gt_dec (zlen Wd + req_blocks p) 65536) as [Hfit|Hno].
    + destruct (write_file_blocks_spec f0 p (Z.to_nat (req_blocks p)) 0
                  (bfd_seek_set (bfd_of_bytes p) 0) st f Ds Wd Data I
                  (same_bytes_seek_set _ _) eq_refl ltac:(lia) Hb
                  ltac:(lia))
        as (st1 & f1 & Ds1 & Blp & E1 & I1 & Hlen1 & Hn1).
      rewrite Z.mul_0_r, Z.sub_0_r in E1.
      rewrite (bind_Done _ _ _ _ _ E1).
      apply (IH _ _ _ _ _ I1).
      rewrite zlen_app. unfold zlen at 2. lia.
    + destruct (write_file_blocks_over f0 p (Z.to_nat (req_blocks p)) 0
                  (bfd_seek_set (bfd_of_bytes p) 0) st f Ds Wd Data I
                  (same_bytes_seek_set _ _) eq_refl ltac:(lia) Hb
                  ltac:(lia))
        as (f' & E1 & Hlow).
      rewrite Z.mul_0_r, Z.sub_0_r in E1.
      exists f'. rewrite (bind_Fail _ _ _ _ _ E1).
      split; [reflexivity | exact Hlow].
Qed.

Lemma dir_inv_start (f : bfd) (num_files : Z) :
  dir_inv f
    {| d_block := 4; d_left := 1020; d_block_map_off := 4;
       d_num_blocks := 5 |}
    (bfd_bwrite
       (bfd_seek_set (bfd_bwrite (bfd_seek_set f 3072) (bfd_putl32 4)) 4096)
       (bfd_putl32 num_files))
    [4] [u32 num_files] [].
Proof.
  set (fa := bfd_bwrite (bfd_seek_set f 3072) (bfd_putl32 4)).
  set (fb := bfd_bwrite (bfd_seek_set fa 4096) (bfd_putl32 num_files)).
  assert (Ha : has_word fa 3072 4).
  { change (has_word fa 3072 (u32 4)). apply has_word_of_has.
    apply (has_bwrite_here (bfd_seek_set f 3072));
      [cbn [bfd_seek_set where_]; lia | discriminate]. }
  constructor; cbn [d_block d_left d_block_map_off d_num_blocks].
  - intros o l Hh Hl. apply has_bwrite_frame;
      [apply has_seek_set, has_bwrite_frame;
         [apply has_seek_set; exact Hh|] |];
      cbn [bfd_seek_set where_]; rewrite zlen_putl32; lia.
  - cbn. lia.
  - reflexivity.
  - cbn. lia.
  - reflexivity.
  - unfold fb. rewrite where_bwrite. cbn [bfd_seek_set where_].
    rewrite zlen_putl32. lia.
  - cbn. split; [lia | split; [lia | discriminate]].
  - intros k Hk. assert (k = 0) by (cbn in Hk; lia). subst k.
    change (znth [4] 0) with 4.
    split; [lia | split].
    + unfold reserved_slot. cbn. lia.
    + apply (has_word_transfer fa); [exact Ha|].
      intros l Hl Hl4. apply has_bwrite_frame;
        [apply has_seek_set; exact Hl|].
      cbn [bfd_seek_set where_]. lia.
  - intros k Hk. cbn in Hk. lia.
  - intros x Hx. assert (x = 0) by (cbn in Hx; lia). subst x.
    change (znth [4] (4 * 0 / 1024) * 1024 + (4 * 0) mod 1024) with 4096.
    change (znth [u32 num_files] 0) with (u32 num_files).
    apply has_word_of_has.
    apply (has_bwrite_here (bfd_seek_set fa 4096));
      [cbn [bfd_seek_set where_]; lia | discriminate].
  - intros B c [].
Qed.

(** When the directory needs more than the 65536 words that 256 blocks
    hold, [pdb_write_directory] stops at the test of line 458 or 516; what
    the first block of the file held is still there. *)
Lemma pdb_write_directory_over (S : list (list byte)) (num_files : Z)
    (f : bfd) :
  65536 < 1 + zlen S + blocks_before S (length S) ->
  exists out,
    pdb_write_directory (map bfd_of_bytes S) 1024 num_files 3 4 f
    = Fail bfd_error_invalid_operation out
    /\ (forall o l, has f o l -> o + zlen l <= 1024 -> has out o l).
Proof.
  intros Hover. pose proof (zlen_nonneg S) as HS.
  unfold pdb_write_directory.
  change (pdb_allocate_block 4 1024) with (4, 5).
  unfold bind at 1. cbn [seek_set]. unfold bind at 1. cbn [bwrite].
  unfold bind at 1. cbn [seek_set]. unfold bind at 1. cbn [bwrite].
  change (u32 (3 * 1024)) with 3072. change (u32 (4 * 1024)) with 4096.
  change (u32 (1024 - 4)) with 1020.
  pose proof (dir_inv_start f num_files) as I0.
  destruct (Z_le_gt_dec (1 + zlen S) 65536) as [Hfit|Hno].
  - destruct (write_sizes_spec f (map bfd_of_bytes S) _ _ _ _ _ I0)
      as (st1 & f1 & Ds1 & E1 & I1 & Hn1).
    { rewrite zlen_map, zlen_cons. change (zlen (@nil Z)) with 0. lia. }
    rewrite (bind_Done _ _ _ _ _ E1).
    rewrite map_map in I1. cbn [app] in I1.
    destruct (write_blocks_over f S _ _ _ _ _ I1) as (f' & E2 & Hlow).
    { rewrite zlen_cons, zlen_map. lia. }
    exists f'. rewrite (bind_Fail _ _ _ _ _ E2).
    split; [reflexivity | exact Hlow].
  - destruct (write_sizes_over f (map bfd_of_bytes S) _ _ _ _ _ I0)
      as (f' & E1 & Hlow).
    { rewrite zlen_map, zlen_cons. change (zlen (@nil Z)) with 0. lia. }
    exists f'. rewrite (bind_Fail _ _ _ _ _ E1).
    split; [reflexivity | exact Hlow].
Qed.

(** In that case [pdb_write_contents] fails too, after lines 686-735 have
    written the fields of the superblock. *)
Lemma pdb_write_contents_over (junk : buffer) (S : list (list byte))
    (f : bfd) :
  where_ f = 0 ->
  65536 < 1 + zlen S + blocks_before S (length S) ->
  exists out,
    pdb_write_contents junk (map bfd_of_bytes S) f
    = Fail bfd_error_invalid_operation out
    /\ has out 0 pdb_magic
    /\ has_word out 32 1024
    /\ has_word out 36 1
    /\ has_word out 44
         (u32 (4 + 4 * zlen S + 4 * blocks_before S (length S)))
    /\ has_word out 52 3.
Proof.
  intros Hw0 Hover.
  unfold pdb_write_contents.
  rewrite count_directory_eq.
  set (ndb := u32 (4 + 4 * zlen S + 4 * blocks_before S (length S))).
  assert (Hndb : 0 <= ndb < 2 ^ 32)
    by (unfold ndb, u32; apply Z.mod_pos_bound; reflexivity).
  change (pdb_allocate_block 3 1024) with (3, 4).
  unfold bind at 1. cbn [bwrite]. unfold bind at 1. cbn [bwrite].
  unfold bind at 1. cbn [bwrite]. unfold bind at 1. cbn [seek_cur].
  unfold bind at 1. cbn [bwrite]. unfold bind at 1. cbn [seek_cur].
  unfold bind at 1. cbn [bwrite].
  set (f1 := bfd_bwrite f pdb_magic).
  set (f2 := bfd_bwrite f1 (bfd_putl32 1024)).
  set (f3 := bfd_bwrite f2 (bfd_putl32 1)).
  set (f4 := bfd_bwrite (bfd_seek_cur f3 4) (bfd_putl32 ndb)).
  set (f5 := bfd_bwrite (bfd_seek_cur f4 4) (bfd_putl32 3)).
  assert (W1 : where_ f1 = 32) by (unfold f1; rewrite where_bwrite, Hw0;
                                   reflexivity).
  assert (W2 : where_ f2 = 36) by (unfold f2; rewrite where_bwrite, W1;
                                   reflexivity).
  assert (W3 : where_ f3 = 40) by (unfold f3; rewrite where_bwrite, W2;
                                   reflexivity).
  assert (W3' : where_ (bfd_seek_cur f3 4) = 44)
    by (cbn [bfd_seek_cur bfd_seek_set where_]; lia).
  assert (W4 : where_ f4 = 48) by (unfold f4; rewrite where_bwrite, W3';
                                   reflexivity).
  assert (W4' : where_ (bfd_seek_cur f4 4) = 52)
    by (cbn [bfd_seek_cur bfd_seek_set where_]; lia).
  assert (M5 : has f5 0 pdb_magic).
  { apply (has_bwrite_away _ _ _ _ 52); [|exact W4' | left; cbn; lia].
    apply has_seek_cur.
    apply (has_bwrite_away _ _ _ _ 44); [|exact W3' | left; cbn; lia].
    apply has_seek_cur.
    apply (has_bwrite_away _ _ _ _ 36); [|exact W2 | left; cbn; lia].
    apply (has_bwrite_away _ _ _ _ 32); [|exact W1 | left; cbn; lia].
    apply has_bwrite_at; [exact Hw0 | lia | discriminate]. }
  assert (B5 : has f5 32 (bfd_putl32 1024)).
  { apply (has_bwrite_away _ _ _ _ 52); [|exact W4' | left; cbn; lia].
    apply has_seek_cur.
    apply (has_bwrite_away _ _ _ _ 44); [|exact W3' | left; cbn; lia].
    apply has_seek_cur.
    apply (has_bwrite_away _ _ _ _ 36); [|exact W2 | left; cbn; lia].
    apply has_bwrite_at; [exact W1 | lia | discriminate]. }
  assert (F5 : has f5 36 (bfd_putl32 1)).
  { apply (has_bwrite_away _ _ _ _ 52); [|exact W4' | left; cbn; lia].
    apply has_seek_cur.
    apply (has_bwrite_away _ _ _ _ 44); [|exact W3' | left; cbn; lia].
    apply has_seek_cur.
    apply has_bwrite_at; [exact W2 | lia | discriminate]. }
  assert (N5 : has f5 44 (bfd_putl32 ndb)).
  { apply (has_bwrite_away _ _ _ _ 52); [|exact W4' | left; cbn; lia].
    apply has_seek_cur.
    apply has_bwrite_at; [exact W3' | lia | discriminate]. }
  assert (A5 : has f5 52 (bfd_putl32 3))
    by (apply has_bwrite_at; [exact W4' | lia | discriminate]).
  clearbody f5. clear f1 f2 f3 f4 W1 W2 W3 W3' W4 W4'.
  destruct (pdb_write_directory_over S (u32 (zlen S)) f5 Hover)
    as (out & E1 & Hlow).
  exists out. rewrite (bind_Fail _ _ _ _ _ E1).
  split; [reflexivity|].
  split; [apply Hlow; [exact M5 | cbn; lia]|].
  split; [apply has_putl32_word;
            [apply Hlow; [exact B5 | cbn; lia]
            | change (2 ^ 32) with 4294967296; lia]|].
  split; [apply has_putl32_word;
            [apply Hlow; [exact F5 | cbn; lia]
            | change (2 ^ 32) with 4294967296; lia]|].
  split; [apply has_putl32_word;
            [apply Hlow; [exact N5 | cbn; lia] | exact Hndb]|].
  apply has_putl32_word;
    [apply Hlow; [exact A5 | cbn; lia]
    | change (2 ^ 32) with 4294967296; lia].
Qed.

Lemma directory_size_words (S : list (list byte)) :
  directory_size S < 2 ^ 32 ->
  directory_size S
  = 4 * (1 + zlen S + blocks_before S (length S)).
Proof.
  intros Hlt. unfold directory_size in *.
  pose proof (zlen_nonneg S) as HS.
  pose proof (ceil_sum_nonneg S) as Hsum.
  change (2 ^ 32) with 4294967296 in Hlt.
  assert (Hsmall : Forall (fun s => zlen s + 1024 <= 2 ^ 42) S).
  { pose proof (ceil_sum_bounds_each S 1073741824 ltac:(lia)) as Hb.
    rewrite Forall_forall in *. intros s Hs. specialize (Hb s Hs).
    cbv beta in Hb. unfold ceil_div in Hb.
    change (2 ^ 42) with 4398046511104.
    Z.div_mod_to_equations. lia. }
  rewrite (blocks_before_exact S Hsmall). lia.
Qed.

(** C8, as amended.  When [4 + 4 * n + 4 * sum of ceil (size_i / 1024)] is
    below [2 ^ 32], it is the value the writer computes for
    [num_directory_bytes] and the value the file holds at offset 44 of the
    superblock when [pdb_write_contents] returns: with [true] when the
    directory fits one block-map page, and with [false] and
    [bfd_error_invalid_operation] when it does not, since lines 721-724
    store the value before the directory is written. *)
Theorem directory_size_stored (junk : buffer) (S : list (list byte))
    (f : bfd) :
  where_ f = 0 -> directory_size S < 2 ^ 32 ->
  snd (count_directory (map bfd_of_bytes S) 1024 0 4) = directory_size S
  /\ exists out,
       (pdb_write_contents junk (map bfd_of_bytes S) f = Done tt out
        /\ fits_block_map_page (directory_size S)
        \/ pdb_write_contents junk (map bfd_of_bytes S) f
           = Fail bfd_error_invalid_operation out
           /\ ~ fits_block_map_page (directory_size S))
       /\ has_word out 44 (directory_size S).
Proof.
  intros Hw Hlt. pose proof (count_directory_exact S Hlt) as Hc.
  split; [exact Hc|].
  rewrite count_directory_eq in Hc. cbn [snd] in Hc.
  pose proof (directory_size_words S Hlt) as Hwords.
  destruct (Z_le_gt_dec (1 + zlen S + blocks_before S (length S)) 65536)
    as [Hroom|Hover].
  - destruct (pdb_write_contents_spec junk S f Hw Hroom)
      as (out & nb & Ds & Bl & Data & E & F).
    exists out. pose proof (arc_dir_bytes _ _ _ _ _ _ F) as H44.
    rewrite Hc in H44.
    split; [left; split; [exact E|] | exact H44].
    apply fits_block_map_page_iff. lia.
  - destruct (pdb_write_contents_over junk S f Hw ltac:(lia))
      as (out & E & _ & _ & _ & H44 & _).
    exists out. rewrite Hc in H44.
    split; [right; split; [exact E|] | exact H44].
    intros Hfit. apply fits_block_map_page_iff in Hfit. lia.
Qed.

Lemma directory_size_stored_witness :
  where_ empty_bfd = 0
  /\ directory_size sample_payloads < 2 ^ 32
  /\ directory_size (repeat [] (Z.to_nat 65536)) < 2 ^ 32
  /\ directory_size (repeat [] (Z.to_nat 65536)) = 262148
  /\ (snd (count_directory (map bfd_of_bytes sample_payloads) 1024 0 4)
      = directory_size sample_payloads
      /\ exists out,
           (pdb_write_contents (fun _ => xcc)
              (map bfd_of_bytes sample_payloads) empty_bfd = Done tt out
            /\ fits_block_map_page (directory_size sample_payloads)
            \/ pdb_write_contents (fun _ => xcc)
                 (map bfd_of_bytes sample_payloads) empty_bfd
               = Fail bfd_error_invalid_operation out
               /\ ~ fits_block_map_page (directory_size sample_payloads))
           /\ has_word out 44 (directory_size sample_payloads))
  /\ (snd (count_directory
             (map bfd_of_bytes (repeat [] (Z.to_nat 65536))) 1024 0 4)
      = directory_size (repeat [] (Z.to_nat 65536))
      /\ exists out,
           (pdb_write_contents (fun _ => xcc)
              (map bfd_of_bytes (repeat [] (Z.to_nat 65536))) empty_bfd
            = Done tt out
            /\ fits_block_map_page
                 (directory_size (repeat [] (Z.to_nat 65536)))
            \/ pdb_write_contents (fun _ => xcc)
                 (map bfd_of_bytes (repeat [] (Z.to_nat 65536))) empty_bfd
               = Fail bfd_error_invalid_operation out
               /\ ~ fits_block_map_page
                      (directory_size (repeat [] (Z.to_nat 65536))))
           /\ has_word out 44
                (directory_size (repeat [] (Z.to_nat 65536)))).
Proof.
  assert (H1 : where_ empty_bfd = 0) by reflexivity.
  assert (H2 : directory_size sample_payloads < 2 ^ 32)
    by (vm_compute; reflexivity).
  assert (H3 : directory_size (repeat [] (Z.to_nat 65536)) < 2 ^ 32)
    by (vm_compute; reflexivity).
  assert (H4 : directory_size (repeat [] (Z.to_nat 65536)) = 262148)
    by (vm_compute; reflexivity).
  split; [exact H1 | split; [exact H2 | split; [exact H3|]]].
  split; [exact H4 | split].
  - exact (directory_size_stored (fun _ => xcc) sample_payloads empty_bfd
             H1 H2).
  - exact (directory_size_stored (fun _ => xcc)
             (repeat [] (Z.to_nat 65536)) empty_bfd H1 H3).
Defined.

Lemma huge_payload_written (junk : buffer) (p : list byte) :
  zlen p = 2 ^ 42 ->
  exists out,
    pdb_write_contents junk (map bfd_of_bytes [p]) empty_bfd = Done tt out
    /\ word_at out 44 = 8
    /\ directory_size [p] = 8 + 4 * 2 ^ 32.
Proof.
  intros Hp.
  assert (Hreq : req_blocks p = 0) by (unfold req_blocks; rewrite Hp;
                                       reflexivity).
  assert (Hbb : blocks_before [p] (length [p]) = 0).
  { cbn [length]. rewrite blocks_before_cons, Hreq. reflexivity. }
  assert (Hz : zlen [p] = 1) by reflexivity.
  destruct (pdb_write_contents_spec junk [p] empty_bfd eq_refl)
    as (out & nb & Ds & Bl & Data & E & F).
  { rewrite Hbb, Hz. lia. }
  exists out. split; [exact E | split].
  - pose proof (arc_dir_bytes _ _ _ _ _ _ F) as (_ & _ & H44).
    rewrite Hbb, Hz in H44. exact H44.
  - unfold directory_size. cbn [map fold_right]. rewrite Hz, Hp.
    reflexivity.
Qed.

(** C8, counterexample.  For one payload of [2 ^ 42] bytes the write
    succeeds and the superblock holds 8, not [4 + 4 + 4 * 2 ^ 32]. *)
Lemma directory_size_wraps :
  exists out,
    pdb_write_contents (fun _ => x00) (map bfd_of_bytes huge_payloads)
      empty_bfd = Done tt out
    /\ word_at out 44 = 8
    /\ directory_size huge_payloads = 8 + 4 * 2 ^ 32
    /\ word_at out 44 <> directory_size huge_payloads.
Proof.
  assert (Hp : zlen (repeat x00 (Z.to_nat (2 ^ 42))) = 2 ^ 42).
  { rewrite zlen_repeat. apply Z2Nat.id. discriminate. }
  destruct (huge_payload_written (fun _ => x00) _ Hp) as (out & E & H44 & Hd).
  exists out. split; [exact E | split; [exact H44 | split; [exact Hd|]]].
  unfold huge_payloads. rewrite H44, Hd. discriminate.
Qed.

(* ================================================================= *)
(** ** The block count in the superblock *)

(** C6, at the failing input.  For 1013 payloads of one byte the last
    block allocated is block 1024, so the counter ends at 1025 and that is
    the [num_blocks] written at offset 40; the free block map of the second
    interval is then written at block 1025, and the stream ends with it:
    the archive has 1026 blocks, one more than its superblock says. *)
Theorem num_blocks_misses_free_map_block :
  match write_msf (fun _ => x00) (repeat [x41] 1013) with
  | Done _ out =>
      word_at out 40 = 1025
      /\ size out = 1026 * 1024
      /\ (size out - 1) / 1024 + 1 <> word_at out 40
      /\ contents out (1025 * 1024) = xff
  | _ => False
  end.
Proof.
  vm_compute. repeat split; discriminate.
Qed.

(* ================================================================= *)
(** ** The size entry [0xffffffff] *)

Lemma sum_blocks_norm bs l :
  sum_blocks bs l = plain_blocks bs (map norm_size l).
Proof.
  unfold sum_blocks, plain_blocks.
  induction l as [|s l IH]; cbn [map fold_right]; [reflexivity|].
  now rewrite IH.
Qed.

Lemma reader_blocks_zero bs :
  valid_block_size bs -> reader_blocks bs 0 = 0.
Proof.
  intros H. unfold reader_blocks.
  destruct (valid_block_size_cases bs H) as [-> | [-> | [-> | ->]]];
    reflexivity.
Qed.

Section Sentinel.

Variables (f : bfd) (bs bma : Z) (Ds W : list Z).
Hypothesis L : dir_layout f bs bma Ds W.

(** A stream whose size entry is 0 or [0xffffffff]: the reader stops after
    the size entry and hands out an empty element. *)
Lemma pdb_get_elt_at_index_empty (i : Z) (g : bfd) :
  same_bytes f g -> 0 <= i < znth W 0 -> i + 1 < zlen W ->
  norm_size (znth W (i + 1)) = 0 ->
  exists g',
    pdb_get_elt_at_index i g = Done (new_element (sprintf_04lx i) 0 i) g'
    /\ reads g' = reads g ++ size_entry_reads bs bma Ds i
    /\ same_bytes f g'.
Proof.
  intros Sg Hi Hi1 Hzero.
  pose proof (layout_W_small f bs bma Ds W L) as Hsm.
  change (2 ^ 22) with 4194304 in Hsm.
  pose proof (lay_bma_range _ _ _ _ _ L) as [Hb0 Hb1].
  pose proof (lay_fit _ _ _ _ _ L) as Hfit.
  pose proof (lay_cap _ _ _ _ _ L) as Hcap.
  assert (Hbs : 0 < bs)
    by (destruct (layout_bs_cases f bs bma Ds W L)
          as [-> | [-> | [-> | ->]]]; lia).
  assert (HDs : 0 <= 0 < zlen Ds) by (split; [lia | nia]).
  destruct (lay_Ds _ _ _ _ _ L 0 HDs) as (D0 & D1 & Hmw0).
  assert (Hnf : has_word f (znth Ds 0 * bs) (znth W 0)).
  { pose proof (lay_W _ _ _ _ _ L 0 ltac:(lia)) as H.
    replace (4 * 0 / bs) with 0 in H by reflexivity.
    replace ((4 * 0) mod bs) with 0 in H by reflexivity.
    now rewrite Z.add_0_r in H. }
  pose proof (has_word_range _ _ _ Hnf) as Rnf.
  set (nf := znth W 0) in *.
  unfold pdb_get_elt_at_index.
  rewrite (run_seek_read f g 32 32 bs _ (lay_bs _ _ _ _ _ L) Sg eq_refl).
  destruct (seek_read_state f g 32 bs (lay_bs _ _ _ _ _ L) Sg)
    as (_ & S1 & W1).
  assert (R1 : reads (snd (bfd_bread (bfd_seek_set g 32) 4))
               = reads g ++ [(32, 4)]) by reflexivity.
  set (g1 := snd (bfd_bread (bfd_seek_set g 32) 4)) in *. clearbody g1.
  rewrite (proj2 (block_size_invalid_spec bs) (lay_valid _ _ _ _ _ L)).
  unfold bind at 1. cbn [seek_cur].
  assert (S1' : same_bytes f (bfd_seek_cur g1 (4 * 4)))
    by (eapply same_bytes_trans; [exact S1 | apply same_bytes_seek_cur]).
  assert (W1' : where_ (bfd_seek_cur g1 (4 * 4)) = 52)
    by (cbn [bfd_seek_cur bfd_seek_set where_]; lia).
  rewrite (bind_read_u32 _ (bfd_seek_cur g1 (4 * 4)) bma)
    by (rewrite W1'; exact (has_word_same _ _ _ _ S1' (lay_bma _ _ _ _ _ L))).
  assert (S2 : same_bytes f (snd (bfd_bread (bfd_seek_cur g1 (4 * 4)) 4)))
    by (eapply same_bytes_trans; [exact S1' | apply same_bytes_bread]).
  assert (R2 : reads (snd (bfd_bread (bfd_seek_cur g1 (4 * 4)) 4))
               = reads g1 ++ [(52, 4)]).
  { unfold bfd_bread. cbn [snd reads]. rewrite W1'. reflexivity. }
  set (g2 := snd (bfd_bread (bfd_seek_cur g1 (4 * 4)) 4)) in *.
  clearbody g2. clear S1' W1 W1' S1.
  rewrite (run_seek_read f g2 (bma * bs + 4 * 0) _ (znth Ds 0) _ Hmw0 S2)
    by (unfold u32; rewrite Z.mod_small; lia).
  destruct (seek_read_state f g2 _ _ Hmw0 S2) as (_ & S3 & _).
  assert (R3 : reads (snd (bfd_bread (bfd_seek_set g2 (bma * bs + 4 * 0)) 4))
               = reads g2 ++ [(bma * bs, 4)]).
  { unfold bfd_bread. cbn [snd reads bfd_seek_set where_].
    do 3 f_equal. lia. }
  set (g3 := snd (bfd_bread (bfd_seek_set g2 (bma * bs + 4 * 0)) 4)) in *.
  clearbody g3. clear S2.
  rewrite (run_seek_read f g3 (znth Ds 0 * bs) _ nf _ Hnf S3)
    by (unfold u32; rewrite Z.mod_small; lia).
  destruct (seek_read_state f g3 _ _ Hnf S3) as (_ & S4 & _).
  assert (R4 : reads (snd (bfd_bread (bfd_seek_set g3 (znth Ds 0 * bs)) 4))
               = reads g3 ++ [(znth Ds 0 * bs, 4)]) by reflexivity.
  set (g4 := snd (bfd_bread (bfd_seek_set g3 (znth Ds 0 * bs)) 4)) in *.
  clearbody g4. clear S3.
  destruct (Z.geb_spec i nf) as [Ge|_]; [lia|].
  replace (u32 (4 * u64 (i + 1))) with (4 * (i + 1))
    by (unfold u32, u64;
        rewrite (Z.mod_small (i + 1))
          by (change (2 ^ 64) with 18446744073709551616; lia);
        rewrite Z.mod_small; lia).
  destruct (run_locate_dir_block f bs bma Ds W L (i + 1) g4 ltac:(lia) S4)
    as (g5 & S5 & R5 & Erun).
  rewrite Erun. clear Erun S4.
  destruct (run_read_dir_word f bs bma Ds W L (i + 1) g5 ltac:(lia) S5)
    as (g6 & S6 & _ & R6 & Erun).
  rewrite Erun. clear Erun S5.
  fold (norm_size (znth W (i + 1))). rewrite Hzero.
  exists g6. split; [reflexivity | split; [|exact S6]].
  rewrite R6, R5, R4, R3, R2, R1. unfold size_entry_reads.
  rewrite <- !app_assoc. reflexivity.
Qed.

(** C4.  On a laid-out archive, for every stream index [i]: a size entry
    [0xffffffff] counts as 0 and as no block; a stream whose own entry is
    0 or [0xffffffff] is delivered as an empty element, the reads made
    being those of the superblock, the block map and the directory up to
    its size entry, none of a data block; and a stream is found and
    delivered whole when its block list starts where the entries before
    it, with [0xffffffff] replaced by 0, say it does. *)
Theorem size_sentinel (i : Z) (payload : list byte) (g : bfd) :
  same_bytes f g -> 0 <= i < znth W 0 -> i + 1 < zlen W ->
  norm_size 0xffffffff = 0
  /\ reader_blocks bs (norm_size 0xffffffff) = 0
  /\ (znth W (i + 1) = 0xffffffff \/ znth W (i + 1) = 0 ->
      exists g',
        pdb_get_elt_at_index i g
        = Done (new_element (sprintf_04lx i) 0 i) g'
        /\ bfd_bytes (new_element (sprintf_04lx i) 0 i) = []
        /\ parsed_size (arch_eltdata (new_element (sprintf_04lx i) 0 i)) = 0
        /\ reads g' = reads g ++ size_entry_reads bs bma Ds i)
  /\ (zlen payload = norm_size (znth W (i + 1)) ->
      stream_data f bs W
        (znth W 0 + 1
         + plain_blocks bs (map norm_size (firstn (Z.to_nat i) (tl W))))
        payload ->
      exists file g',
        pdb_get_elt_at_index i g = Done file g'
        /\ bfd_bytes file = payload
        /\ arelt_data file
           = Some {| parsed_size := zlen payload; key := i |}).
Proof.
  intros Sg Hi Hi1.
  split; [reflexivity|].
  split; [apply reader_blocks_zero, (lay_valid _ _ _ _ _ L)|].
  split.
  - intros Hraw.
    assert (Hzero : norm_size (znth W (i + 1)) = 0)
      by (destruct Hraw as [-> | ->]; reflexivity).
    destruct (pdb_get_elt_at_index_empty i g Sg Hi Hi1 Hzero)
      as (g' & E & R & _).
    exists g'. split; [exact E|].
    split; [reflexivity | split; [reflexivity | exact R]].
  - intros Hlen SD. rewrite <- sum_blocks_norm in SD.
    destruct (pdb_get_elt_at_index_ok f bs bma Ds W L i payload Hi Hi1 Hlen
                SD g Sg)
      as (file & g' & E & _ & Hb & Had & _).
    exists file, g'. split; [exact E | split; [exact Hb | exact Had]].
Qed.

End Sentinel.

Ltac has_word_compute :=
  split; [vm_compute; discriminate
         | split; [vm_compute; discriminate | vm_compute; reflexivity]].

Lemma sentinel_archive_layout :
  dir_layout sentinel_archive 1024 3 [4] sentinel_words.
Proof.
  constructor.
  - has_word_compute.
  - apply valid4_spec. reflexivity.
  - has_word_compute.
  - split; [lia | vm_compute; discriminate].
  - vm_compute. discriminate.
  - vm_compute. discriminate.
  - intros k Hk. assert (k = 0) by (change (zlen [4]) with 1 in Hk; lia).
    subst k. split; [vm_compute; discriminate|].
    split; [vm_compute; discriminate | has_word_compute].
  - intros x Hx. change (zlen sentinel_words) with 6 in Hx.
    assert (C : x = 0 \/ x = 1 \/ x = 2 \/ x = 3 \/ x = 4 \/ x = 5) by lia.
    destruct C as [-> | [-> | [-> | [-> | [-> | ->]]]]]; has_word_compute.
Qed.

Example sentinel_archive_streams :
  extract_all sentinel_archive 3 = [Some [x41]; Some []; Some [x42; x43]].
Proof. vm_compute. reflexivity. Qed.

Lemma size_sentinel_witness :
  dir_layout sentinel_archive 1024 3 [4] sentinel_words
  /\ same_bytes sentinel_archive sentinel_archive
  /\ 0 <= 1 < znth sentinel_words 0
  /\ 1 + 1 < zlen sentinel_words
  /\ norm_size 0xffffffff = 0
  /\ reader_blocks 1024 (norm_size 0xffffffff) = 0
  /\ (znth sentinel_words (1 + 1) = 0xffffffff
      \/ znth sentinel_words (1 + 1) = 0 ->
      exists g',
        pdb_get_elt_at_index 1 sentinel_archive
        = Done (new_element (sprintf_04lx 1) 0 1) g'
        /\ bfd_bytes (new_element (sprintf_04lx 1) 0 1) = []
        /\ parsed_size (arch_eltdata (new_element (sprintf_04lx 1) 0 1)) = 0
        /\ reads g'
           = reads sentinel_archive ++ size_entry_reads 1024 3 [4] 1)
  /\ (zlen (@nil byte) = norm_size (znth sentinel_words (1 + 1)) ->
      stream_data sentinel_archive 1024 sentinel_words
        (znth sentinel_words 0 + 1
         + plain_blocks 1024
             (map norm_size (firstn (Z.to_nat 1) (tl sentinel_words))))
        [] ->
      exists file g',
        pdb_get_elt_at_index 1 sentinel_archive = Done file g'
        /\ bfd_bytes file = []
        /\ arelt_data file
           = Some {| parsed_size := zlen (@nil byte); key := 1 |}).
Proof.
  assert (H1 : same_bytes sentinel_archive sentinel_archive)
    by apply same_bytes_refl.
  assert (H2 : 0 <= 1 < znth sentinel_words 0) by (vm_compute; split;
                                                   [discriminate | reflexivity]).
  assert (H3 : 1 + 1 < zlen sentinel_words) by reflexivity.
  split; [exact sentinel_archive_layout|].
  split; [exact H1 | split; [exact H2 | split; [exact H3|]]].
  exact (size_sentinel sentinel_archive 1024 3 [4] sentinel_words
           sentinel_archive_layout 1 [] sentinel_archive H1 H2 H3).
Defined.

(* ================================================================= *)
(** * Further properties of the reader and the writer *)

(* ================================================================= *)
(** ** The size of an extracted element *)

Lemma post_conj {A} (c : io A) (P Q : A -> Prop) :
  post c P -> post c Q -> post c (fun a => P a /\ Q a).
Proof. intros HP HQ f a f' E. split; [eapply HP | eapply HQ]; exact E. Qed.

Lemma bwrite_at_end f d :
  where_ f = size f ->
  size (bfd_bwrite f d) = size f + zlen d
  /\ where_ (bfd_bwrite f d) = size f + zlen d.
Proof.
  intros H. destruct d as [|b d].
  { cbn [bfd_bwrite]. change (zlen (@nil byte)) with 0. lia. }
  cbn [bfd_bwrite size where_]. pose proof (zlen_nonneg (b :: d)). lia.
Qed.

Lemma post_read_blocks_size (fuel : nat) :
  forall bs bma fsz left d blk file,
    0 < bs -> 0 < left < 2 ^ 32 ->
    where_ file = size file ->
    post (read_blocks fuel bs bma fsz left d blk file)
         (fun r => size r = size file + left /\ where_ r = size r).
Proof.
  induction fuel as [|fuel IH]; intros bs bma fsz left d blk file Hbs Hl Hw.
  - intros f a f' E. discriminate E.
  - cbn [read_blocks].
    eapply post_bind; [apply post_any|]. intros blk' _.
    eapply post_bind; [apply post_any|]. intros _ _.
    eapply post_bind; [apply post_any|]. intros fb _.
    eapply post_bind; [apply post_any|]. intros _ _.
    intros f r f' E.
    destruct (bfd_bread f (if left >? bs then bs else left)) as [buf g].
    destruct (Z.eqb_spec (zlen buf) (if left >? bs then bs else left))
      as [Hb|Hb]; cbn [negb] in E; [|discriminate].
    destruct (bwrite_at_end file buf Hw) as [Hs Hp].
    destruct (Z.gtb_spec left bs) as [G|G].
    + apply IH in E; [| assumption | rewrite u32_small; lia | lia].
      rewrite u32_small in E by lia. lia.
    + injection E as <- _. lia.
Qed.

(** Whenever indexed access succeeds, the element holds exactly as many
    bytes as its [parsed_size] says, fewer than [2 ^ 32], and its position is
    at its end. *)
Lemma post_pdb_get_elt_at_index_size (i : Z) :
  post (pdb_get_elt_at_index i)
       (fun file => size file = parsed_size (arch_eltdata file)
                    /\ where_ file = size file
                    /\ 0 <= size file < 2 ^ 32).
Proof.
  unfold pdb_get_elt_at_index.
  eapply post_bind; [apply post_any|]. intros _ _.
  eapply post_bind; [apply post_any|]. intros bs _.
  destruct (block_size_invalid bs) eqn:V; [apply post_fail|].
  apply block_size_invalid_spec in V. destruct V as [_ Hbs].
  eapply post_bind; [apply post_any|]. intros _ _.
  eapply post_bind; [apply post_any|]. intros bma _.
  eapply post_bind; [apply post_any|]. intros _ _.
  eapply post_bind; [apply post_any|]. intros fdb _.
  eapply post_bind; [apply post_any|]. intros _ _.
  eapply post_bind; [apply post_any|]. intros nf _.
  destruct (i >=? nf); [apply post_fail|].
  eapply post_bind; [apply post_any|]. intros blk _.
  eapply post_bind; [apply post_any|]. intros _ _.
  eapply post_bind; [apply post_read_u32|]. intros fs Hfs. cbv beta in Hfs.
  cbv zeta.
  set (fs' := if fs =? 4294967295 then 0 else fs).
  assert (Hfs' : 0 <= fs' < 2 ^ 32).
  { subst fs'. destruct (fs =? 4294967295); [|assumption].
    change (2 ^ 32) with 4294967296. lia. }
  destruct (Z.eqb_spec fs' 0) as [Z0|NZ].
  - apply post_ret. rewrite Z0. cbn. lia.
  - eapply post_bind; [apply post_any|]. intros boff _.
    eapply post_bind; [apply post_any|]. intros blk2 _.
    intros f r f' E.
    pose proof (post_read_blocks _ _ _ _ _ _ _ _ _ _ _ E) as [Ea _].
    apply post_read_blocks_size in E; [| lia | lia | reflexivity].
    cbn [new_element size] in E. unfold arch_eltdata. rewrite Ea.
    cbn [new_element arelt_data parsed_size]. lia.
Qed.

Lemma zlen_bfd_bytes f : 0 <= size f -> zlen (bfd_bytes f) = size f.
Proof. intros H. unfold bfd_bytes. rewrite zlen_peek. lia. Qed.

(** X1.  For an element that [pdb_get_elt_at_index] has extracted, from any
    archive, [pdb_generic_stat_arch_elt] returns 0 and fills in the size as
    the number of bytes the element holds, the mode as octal 0644, and the
    owner, the group and the modification time as 0. *)
Theorem stat_of_extracted_element (i : Z) (archive archive' file : bfd)
    (buf : stat) :
  pdb_get_elt_at_index i archive = Done file archive' ->
  pdb_generic_stat_arch_elt file buf
  = (0, {| st_mtime := 0; st_uid := 0; st_gid := 0; st_mode := 420;
           st_size := zlen (bfd_bytes file) |}).
Proof.
  intros E. apply post_pdb_get_elt_at_index_size in E.
  destruct E as (Hs & _ & Hr).
  rewrite zlen_bfd_bytes by lia. rewrite Hs. reflexivity.
Qed.

Lemma stream_payload_Done archive i p :
  stream_payload archive i = Some p ->
  exists file archive',
    pdb_get_elt_at_index i archive = Done file archive'
    /\ bfd_bytes file = p.
Proof.
  unfold stream_payload. intros H.
  destruct (pdb_get_elt_at_index i archive) as [file a'| |];
    [| discriminate H | discriminate H].
  injection H as Hb. exists file, a'. split; [reflexivity | exact Hb].
Qed.

Lemma stat_of_extracted_element_witness :
  exists file archive',
    pdb_get_elt_at_index 2 sentinel_archive = Done file archive'
    /\ bfd_bytes file = [x42; x43]
    /\ pdb_generic_stat_arch_elt file
         {| st_mtime := 7; st_uid := 7; st_gid := 7; st_mode := 7;
            st_size := 7 |}
       = (0, {| st_mtime := 0; st_uid := 0; st_gid := 0; st_mode := 420;
                st_size := 2 |}).
Proof.
  assert (H : stream_payload sentinel_archive 2 = Some [x42; x43])
    by (vm_compute; reflexivity).
  destruct (stream_payload_Done _ _ _ H) as (file & a' & E & Hb).
  exists file, a'. split; [exact E | split; [exact Hb|]].
  rewrite (stat_of_extracted_element 2 sentinel_archive a' file _ E).
  rewrite Hb. reflexivity.
Defined.

(* ================================================================= *)
(** ** What the reader leaves alone *)

Lemma quiet_bind {A B} (c : io A) (k : A -> io B) E :
  quiet c E -> (forall a, quiet (k a) E) -> quiet (bind c k) E.
Proof.
  intros Hc Hk f. unfold bind. specialize (Hc f).
  destruct (c f) as [a f1|e f1|]; [|exact Hc | exact Hc].
  specialize (Hk a f1).
  destruct (k a f1) as [b f2|e f2|]; [| |exact Hk].
  - exact (same_bytes_trans _ _ _ Hc Hk).
  - destruct Hk as [Hs He]. split; [|exact He].
    exact (same_bytes_trans _ _ _ Hc Hs).
Qed.

Lemma quiet_ret {A} (a : A) E : quiet (ret a) E.
Proof. intros f. apply same_bytes_refl. Qed.

Lemma quiet_fail {A} e (E : bfd_error -> Prop) : E e -> quiet (@fail A e) E.
Proof. intros He f. split; [apply same_bytes_refl | exact He]. Qed.

Lemma quiet_seek_set p E : quiet (seek_set p) E.
Proof. intros f. apply same_bytes_seek_set. Qed.

Lemma quiet_seek_cur p E : quiet (seek_cur p) E.
Proof. intros f. apply same_bytes_seek_cur. Qed.

Lemma quiet_read_u32 : quiet read_u32 reader_error.
Proof.
  intros f. unfold read_u32.
  pose proof (same_bytes_bread f 4) as Hs.
  destruct (bfd_bread f 4) as [b f']. cbn [snd] in Hs.
  destruct (zlen b =? 4); [exact Hs | split; [exact Hs | now left]].
Qed.

Lemma quiet_locate_dir_block bs bma fdb d :
  quiet (locate_dir_block bs bma fdb d) reader_error.
Proof.
  unfold locate_dir_block. destruct (d >=? bs); [|apply quiet_ret].
  apply quiet_bind; [apply quiet_seek_set|]. intros _.
  apply quiet_read_u32.
Qed.

Lemma quiet_sum_prev_blocks n : forall bs bma d off,
  quiet (sum_prev_blocks n bs bma d off) reader_error.
Proof.
  induction n as [|n IH]; intros bs bma d off; cbn [sum_prev_blocks];
    [apply quiet_ret|].
  apply quiet_bind.
  - destruct (d mod bs =? 0); [|apply quiet_ret].
    apply quiet_bind; [apply quiet_seek_set|]. intros _.
    apply quiet_bind; [apply quiet_read_u32|]. intros b.
    apply quiet_seek_set.
  - intros _. apply quiet_bind; [apply quiet_read_u32|]. intros s.
    apply IH.
Qed.

Lemma quiet_read_blocks fuel : forall bs bma fs left d block file,
  0 < bs -> 0 <= left < 2 ^ 32 -> left / bs < Z.of_nat fuel ->
  quiet (read_blocks fuel bs bma fs left d block file) reader_error.
Proof.
  induction fuel as [|fuel IH]; intros bs bma fs left d block file Hbs Hl Hf.
  - pose proof (Z.div_pos left bs). lia.
  - cbn [read_blocks].
    apply quiet_bind.
    { destruct ((d mod bs =? 0) && negb (left =? fs)); [|apply quiet_ret].
      apply quiet_bind; [apply quiet_seek_set|]. intros _.
      apply quiet_read_u32. }
    intros b.
    apply quiet_bind; [apply quiet_seek_set|]. intros _.
    apply quiet_bind; [apply quiet_read_u32|]. intros fb.
    apply quiet_bind; [apply quiet_seek_set|]. intros _.
    intros f.
    pose proof (same_bytes_bread f (if left >? bs then bs else left)) as Hs.
    destruct (bfd_bread f (if left >? bs then bs else left)) as [buf f'].
    cbn [snd] in Hs.
    destruct (negb (zlen buf =? (if left >? bs then bs else left)));
      [split; [exact Hs | now left]|].
    destruct (Z.gtb_spec left bs) as [G|G]; [|exact Hs].
    assert (U : u32 (left - bs) = left - bs) by (apply u32_small; lia).
    rewrite U.
    assert (Hq : quiet (read_blocks fuel bs bma fs (left - bs)
                          (u32 (d + 4)) b (bfd_bwrite file buf))
                   reader_error).
    { apply IH; [lia | lia |].
      replace left with ((left - bs) + 1 * bs) in Hf by lia.
      rewrite Z.div_add in Hf by lia. lia. }
    specialize (Hq f').
    destruct (read_blocks fuel bs bma fs (left - bs) (u32 (d + 4)) b
                (bfd_bwrite file buf) f') as [r f2|e f2|]; [| |exact Hq].
    + exact (same_bytes_trans _ _ _ Hs Hq).
    + destruct Hq as [Hq He]. split; [|exact He].
      exact (same_bytes_trans _ _ _ Hs Hq).
Qed.

Lemma quiet_bind_post {A B} (c : io A) (k : A -> io B) E
    (P : A -> Prop) :
  quiet c E -> post c P -> (forall a, P a -> quiet (k a) E) ->
  quiet (bind c k) E.
Proof.
  intros Hc HP Hk f. unfold bind. specialize (Hc f).
  destruct (c f) as [a f1|e f1|] eqn:Ec; [|exact Hc | exact Hc].
  specialize (Hk a (HP f a f1 Ec) f1).
  destruct (k a f1) as [b f2|e f2|]; [| |exact Hk].
  - exact (same_bytes_trans _ _ _ Hc Hk).
  - destruct Hk as [Hs He]. split; [|exact He].
    exact (same_bytes_trans _ _ _ Hc Hs).
Qed.

Lemma quiet_pdb_get_elt_at_index i :
  quiet (pdb_get_elt_at_index i) reader_error.
Proof.
  unfold pdb_get_elt_at_index.
  apply quiet_bind; [apply quiet_seek_set|]. intros _.
  apply quiet_bind; [apply quiet_read_u32|]. intros bs.
  destruct (block_size_invalid bs) eqn:V; [apply quiet_fail; now left|].
  apply block_size_invalid_spec in V. destruct V as [_ Hbs].
  apply quiet_bind; [apply quiet_seek_cur|]. intros _.
  apply quiet_bind; [apply quiet_read_u32|]. intros bma.
  apply quiet_bind; [apply quiet_seek_set|]. intros _.
  apply quiet_bind; [apply quiet_read_u32|]. intros fdb.
  apply quiet_bind; [apply quiet_seek_set|]. intros _.
  apply quiet_bind; [apply quiet_read_u32|]. intros nf.
  destruct (i >=? nf); [apply quiet_fail; now right|].
  apply quiet_bind; [apply quiet_locate_dir_block|]. intros b.
  apply quiet_bind; [apply quiet_seek_set|]. intros _.
  apply (quiet_bind_post _ _ _ _ quiet_read_u32 post_read_u32).
  intros fs Hfs. cbv zeta.
  set (fs' := if fs =? 4294967295 then 0 else fs).
  assert (Hfs' : 0 <= fs' < 2 ^ 32).
  { subst fs'. destruct (fs =? 4294967295); [|assumption].
    change (2 ^ 32) with 4294967296. lia. }
  destruct (fs' =? 0); [apply quiet_ret|].
  apply quiet_bind.
  { destruct (negb (i =? 0)); [|apply quiet_ret].
    apply quiet_bind; [apply quiet_seek_set|]. intros _.
    apply quiet_sum_prev_blocks. }
  intros off.
  apply quiet_bind; [apply quiet_locate_dir_block|]. intros b'.
  apply quiet_read_blocks; [lia | assumption |].
  assert (0 <= fs' / bs) by (apply Z.div_pos; lia).
  rewrite Nat2Z.inj_succ, Z2Nat.id by assumption. lia.
Qed.


(* ================================================================= *)
(** ** The ends of the archive *)

(** The reader up to the test of the index against the stream count. *)
Lemma pdb_get_elt_at_index_past_end (f : bfd) (bs bma fdb n i : Z) :
  has_word f 32 bs -> valid_block_size bs ->
  has_word f 52 bma ->
  has_word f (u32 (bma * bs)) fdb ->
  has_word f (u32 (fdb * bs)) n ->
  n <= i ->
  exists f',
    pdb_get_elt_at_index i f = Fail bfd_error_no_more_archived_files f'
    /\ same_bytes f f'
    /\ reads f'
       = reads f ++ [(32, 4); (52, 4); (u32 (bma * bs), 4);
                     (u32 (fdb * bs), 4)].
Proof.
  intros Hbs Hv Hbma Hfdb Hn Hi.
  apply block_size_invalid_spec in Hv.
  assert (Hw : forall g o v, has_word f o v -> same_bytes f g ->
                 where_ g = o -> has_word g (where_ g) v).
  { intros g o v H S <-. exact (has_word_same _ _ _ _ S H). }
  unfold pdb_get_elt_at_index.
  unfold bind at 1. cbn [seek_set].
  set (g0 := bfd_seek_set f 32).
  assert (S0 : same_bytes f g0) by apply same_bytes_seek_set.
  rewrite (bind_read_u32 _ g0 bs) by (apply (Hw g0 32); auto).
  rewrite Hv.
  set (g1 := snd (bfd_bread g0 4)).
  assert (S1 : same_bytes f g1)
    by (eapply same_bytes_trans; [exact S0 | apply same_bytes_bread]).
  unfold bind at 1. cbn [seek_cur].
  set (g2 := bfd_seek_cur g1 (4 * 4)).
  assert (S2 : same_bytes f g2)
    by (eapply same_bytes_trans; [exact S1 | apply same_bytes_seek_cur]).
  assert (W2 : where_ g2 = 52).
  { destruct Hbs as (_ & Hsz & _).
    cbn [g2 g1 g0 bfd_seek_cur bfd_seek_set bfd_bread snd where_ size].
    lia. }
  rewrite (bind_read_u32 _ g2 bma) by (apply (Hw g2 52); auto).
  set (g3 := snd (bfd_bread g2 4)).
  assert (S3 : same_bytes f g3)
    by (eapply same_bytes_trans; [exact S2 | apply same_bytes_bread]).
  unfold bind at 1. cbn [seek_set].
  set (g4 := bfd_seek_set g3 (u32 (bma * bs))).
  assert (S4 : same_bytes f g4)
    by (eapply same_bytes_trans; [exact S3 | apply same_bytes_seek_set]).
  rewrite (bind_read_u32 _ g4 fdb) by (apply (Hw g4 (u32 (bma * bs))); auto).
  set (g5 := snd (bfd_bread g4 4)).
  assert (S5 : same_bytes f g5)
    by (eapply same_bytes_trans; [exact S4 | apply same_bytes_bread]).
  unfold bind at 1. cbn [seek_set].
  set (g6 := bfd_seek_set g5 (u32 (fdb * bs))).
  assert (S6 : same_bytes f g6)
    by (eapply same_bytes_trans; [exact S5 | apply same_bytes_seek_set]).
  rewrite (bind_read_u32 _ g6 n) by (apply (Hw g6 (u32 (fdb * bs))); auto).
  destruct (Z.geb_spec i n) as [_|Hlt]; [|lia].
  exists (snd (bfd_bread g6 4)).
  split; [reflexivity | split].
  - eapply same_bytes_trans; [exact S6 | apply same_bytes_bread].
  - assert (R2 : reads g2 = reads f ++ [(32, 4)]) by reflexivity.
    assert (R4 : reads g4 = reads g2 ++ [(where_ g2, 4)]) by reflexivity.
    assert (R6 : reads g6 = reads g4 ++ [(u32 (bma * bs), 4)])
      by reflexivity.
    assert (R7 : reads (snd (bfd_bread g6 4))
                 = reads g6 ++ [(u32 (fdb * bs), 4)]) by reflexivity.
    rewrite R7, R6, R4, R2, W2, <- !app_assoc. reflexivity.
Qed.

(** X3.  When the superblock gives an allowed block size [bs] and the
    address [bma] of the block map, the first entry of the block map the
    directory block [fdb], and the first word of that block the stream
    count [n], then for every index [i >= n], [pdb_get_elt_at_index] fails
    with [bfd_error_no_more_archived_files], after four reads and with the
    archive's bytes as they were. *)
Theorem index_past_the_end (f : bfd) (bs bma fdb n i : Z) :
  has_word f 32 bs -> valid_block_size bs ->
  has_word f 52 bma ->
  has_word f (u32 (bma * bs)) fdb ->
  has_word f (u32 (fdb * bs)) n ->
  n <= i ->
  exists f',
    pdb_get_elt_at_index i f = Fail bfd_error_no_more_archived_files f'
    /\ same_bytes f f'
    /\ reads f'
       = reads f ++ [(32, 4); (52, 4); (u32 (bma * bs), 4);
                     (u32 (fdb * bs), 4)].
Proof. apply pdb_get_elt_at_index_past_end. Qed.

Lemma index_past_the_end_witness :
  exists f',
    pdb_get_elt_at_index 3 sentinel_archive
    = Fail bfd_error_no_more_archived_files f'
    /\ same_bytes sentinel_archive f'
    /\ reads f'
       = reads sentinel_archive
         ++ [(32, 4); (52, 4); (u32 (3 * 1024), 4); (u32 (4 * 1024), 4)].
Proof.
  apply (index_past_the_end sentinel_archive 1024 3 4 3 3).
  - has_word_compute.
  - apply valid4_spec. reflexivity.
  - has_word_compute.
  - has_word_compute.
  - has_word_compute.
  - lia.
Defined.

Lemma read_u32_short f :
  size f - where_ f < 4 ->
  read_u32 f = Fail bfd_error_malformed_archive (snd (bfd_bread f 4)).
Proof.
  intros H. unfold read_u32.
  pose proof (bfd_bread_length f 4) as Hl.
  destruct (bfd_bread f 4) as [b g]. cbn [fst snd] in *.
  destruct (Z.eqb_spec (zlen b) 4) as [E|E]; [lia | reflexivity].
Qed.

(** X4.  An archive with fewer than 36 bytes has no complete block size
    field: for every index, [pdb_get_elt_at_index] fails with
    [bfd_error_malformed_archive] at its first read. *)
Theorem truncated_superblock (i : Z) (f : bfd) :
  size f < 36 ->
  pdb_get_elt_at_index i f
  = Fail bfd_error_malformed_archive (snd (bfd_bread (bfd_seek_set f 32) 4)).
Proof.
  intros H. unfold pdb_get_elt_at_index.
  unfold bind at 1. cbn [seek_set].
  apply bind_Fail. apply read_u32_short.
  cbn [bfd_seek_set size where_]. lia.
Qed.

Lemma truncated_superblock_witness :
  size (bfd_of_bytes (pdb_magic ++ [x00; x04; x00])) < 36
  /\ pdb_get_elt_at_index 0 (bfd_of_bytes (pdb_magic ++ [x00; x04; x00]))
     = Fail bfd_error_malformed_archive
         (snd (bfd_bread
                 (bfd_seek_set (bfd_of_bytes (pdb_magic ++ [x00; x04; x00]))
                    32) 4)).
Proof.
  assert (H : size (bfd_of_bytes (pdb_magic ++ [x00; x04; x00])) < 36)
    by reflexivity.
  split; [exact H|].
  exact (truncated_superblock 0 _ H).
Defined.

(* ================================================================= *)
(** ** Enumerating a written archive *)

Lemma enumerate_None_get_from (fuel : nat) (archive : bfd) :
  enumerate fuel None archive = get_from fuel 0 archive.
Proof.
  destruct fuel as [|fuel]; [reflexivity|].
  cbn [enumerate get_from pdb_openr_next_archived_file].
  destruct (pdb_get_elt_at_index 0 archive) as [file a'| |] eqn:E;
    try reflexivity.
  apply post_pdb_get_elt_at_index in E. destruct E as (Ek & _ & Elt).
  now rewrite (enumerate_get_from fuel 0 file a') by lia.
Qed.

(** Indexed access at the stream count of a written archive. *)
Lemma archive_read_end out S nb Ds Bl Data :
  archive_facts out S nb Ds Bl Data ->
  1 + zlen S + blocks_before S (length S) <= 65536 ->
  forall g, same_bytes out g ->
  exists g',
    pdb_get_elt_at_index (zlen S) g
    = Fail bfd_error_no_more_archived_files g'
    /\ same_bytes out g'.
Proof.
  intros F Hroom g Sg.
  pose proof (zlen_nonneg S) as HS.
  pose proof (blocks_before_nonneg S (length S)) as Hbb.
  pose proof (arc_dir _ _ _ _ _ _ F) as D.
  pose proof (fin_nb _ _ _ _ _ D) as (Hnb & _).
  change (2 ^ 21) with 2097152 in Hnb.
  pose proof (fin_Ds_len _ _ _ _ _ D) as HDs.
  destruct (fin_map _ _ _ _ _ D 0 ltac:(lia)) as (Hd0 & _ & Hm0).
  pose proof (fin_words _ _ _ _ _ D 0) as Hw0.
  rewrite zlen_cons in Hw0.
  specialize (Hw0 ltac:(pose proof (zlen_nonneg
    (map (fun p => u32 (u64 (zlen p))) S ++ Bl)); lia)).
  change (4 * 0 / 1024) with 0 in Hw0. change ((4 * 0) mod 1024) with 0 in Hw0.
  change (znth (u32 (zlen S) :: map (fun p => u32 (u64 (zlen p))) S ++ Bl) 0)
    with (u32 (zlen S)) in Hw0.
  rewrite u32_small in Hw0 by (change (2 ^ 32) with 4294967296; lia).
  rewrite Z.add_0_r in Hw0. change (3072 + 4 * 0) with 3072 in Hm0.
  destruct (pdb_get_elt_at_index_past_end g 1024 3 (znth Ds 0) (zlen S)
              (zlen S)) as (g' & E & Sg' & _).
  - exact (has_word_same _ _ _ _ Sg (arc_block_size _ _ _ _ _ _ F)).
  - apply valid4_spec. reflexivity.
  - exact (has_word_same _ _ _ _ Sg (arc_map_addr _ _ _ _ _ _ F)).
  - change (u32 (3 * 1024)) with 3072.
    exact (has_word_same _ _ _ _ Sg Hm0).
  - rewrite u32_small by (change (2 ^ 32) with 4294967296; lia).
    exact (has_word_same _ _ _ _ Sg Hw0).
  - lia.
  - exists g'. split; [exact E|].
    exact (same_bytes_trans _ _ _ Sg Sg').
Qed.

Lemma get_from_written_end out S nb Ds Bl Data :
  archive_facts out S nb Ds Bl Data ->
  1 + zlen S + blocks_before S (length S) <= 65536 ->
  Forall (fun s => zlen s + 1024 < 2 ^ 32) S ->
  forall m i g, same_bytes out g -> (i + m = length S)%nat ->
    exists files,
      get_from (Datatypes.S m) (Z.of_nat i) g
      = (files, Some bfd_error_no_more_archived_files)
      /\ map bfd_bytes files = skipn i S
      /\ map filename files
         = map (fun j => sprintf_04lx (Z.of_nat j)) (seq i m).
Proof.
  intros F Hroom Hsmall. induction m as [|m IH]; intros i g Sg Hi.
  - destruct (archive_read_end out S nb Ds Bl Data F Hroom g Sg)
      as (g' & E & _).
    exists []. cbn [get_from].
    replace (Z.of_nat i) with (zlen S) by (unfold zlen; lia).
    rewrite E. split; [reflexivity | split; [|reflexivity]].
    cbn [map]. symmetry. apply skipn_all2. lia.
  - destruct (nth_error S i) as [p|] eqn:Hnth;
      [|apply nth_error_None in Hnth; lia].
    destruct (archive_read out S nb Ds Bl Data F Hroom Hsmall i p Hnth g Sg)
      as (file & g' & E & Sg' & Hbytes & _ & Hname).
    destruct (IH (Datatypes.S i) g' Sg' ltac:(lia))
      as (files & E' & Hb' & Hn').
    exists (file :: files).
    change (get_from (Datatypes.S (Datatypes.S m)) (Z.of_nat i) g)
      with (match pdb_get_elt_at_index (Z.of_nat i) g with
            | Done file archive' =>
                let '(l, e) :=
                  get_from (Datatypes.S m) (Z.of_nat i + 1) archive' in
                (file :: l, e)
            | Fail e _ => ([], Some e)
            | Diverge => ([], None)
            end).
    rewrite E.
    replace (Z.of_nat i + 1) with (Z.of_nat (Datatypes.S i)) by lia.
    rewrite E'. split; [reflexivity|].
    cbn [map seq]. rewrite Hb', Hbytes, Hn', Hname.
    split; [|reflexivity].
    symmetry. apply skipn_nth_error. exact Hnth.
Qed.

(** X5.  For payloads shorter than [2 ^ 32] bytes whose directory fits one
    block-map page: on the archive that [pdb_write_contents] writes,
    [pdb_openr_next_archived_file], started from no element and fed each
    element it returns, returns one element per payload, in order, each
    holding the bytes of its payload and named by its index in hexadecimal,
    and then fails with [bfd_error_no_more_archived_files]. *)
Theorem enumeration_of_written_archive (junk : buffer)
    (S : list (list byte)) (f : bfd) :
  where_ f = 0 ->
  Forall (fun s => zlen s < 2 ^ 32) S ->
  fits_block_map_page (directory_size S) ->
  exists out files,
    pdb_write_contents junk (map bfd_of_bytes S) f = Done tt out
    /\ enumerate (Datatypes.S (length S)) None out
       = (files, Some bfd_error_no_more_archived_files)
    /\ map bfd_bytes files = S
    /\ map filename files
       = map (fun j => sprintf_04lx (Z.of_nat j)) (seq 0 (length S)).
Proof.
  intros Hw Hlt Hfit.
  destruct (round_trip_bounds S Hlt Hfit) as (Hroom & Hsmall).
  destruct (pdb_write_contents_spec junk S f Hw Hroom)
    as (out & nb & Ds & Bl & Data & E & F).
  destruct (get_from_written_end out S nb Ds Bl Data F Hroom Hsmall
              (length S) 0%nat out (same_bytes_refl out) eq_refl)
    as (files & Eg & Hb & Hn).
  exists out, files. split; [exact E|].
  rewrite enumerate_None_get_from.
  split; [exact Eg | split; [exact Hb | exact Hn]].
Qed.

Lemma enumeration_of_written_archive_witness :
  exists out files,
    pdb_write_contents (fun _ => xcc) (map bfd_of_bytes sample_payloads)
      empty_bfd = Done tt out
    /\ enumerate (Datatypes.S (length sample_payloads)) None out
       = (files, Some bfd_error_no_more_archived_files)
    /\ map bfd_bytes files = sample_payloads
    /\ map filename files
       = map (fun j => sprintf_04lx (Z.of_nat j))
           (seq 0 (length sample_payloads)).
Proof.
  apply (enumeration_of_written_archive (fun _ => xcc) sample_payloads
           empty_bfd).
  - reflexivity.
  - repeat constructor.
  - apply fits_block_map_page_iff. vm_compute. discriminate.
Defined.

(* ================================================================= *)
(** ** The probe on a stream that starts with the magic *)

Lemma pdb_archive_p_has (f : bfd) :
  has f (where_ f) pdb_magic ->
  pdb_archive_p f = Done tt (snd (bfd_bread f 32)).
Proof.
  intros (H0 & Hsz & Hp). unfold pdb_archive_p.
  change (zlen pdb_magic) with 32 in Hsz.
  change (length pdb_magic) with 32%nat in Hp.
  assert (Hb : fst (bfd_bread f 32) = pdb_magic).
  { unfold bfd_bread. cbn [fst].
    replace (Z.to_nat (Z.max 0 (Z.min 32 (size f - where_ f))))
      with 32%nat by lia.
    exact Hp. }
  destruct (bfd_bread f 32) as [magic f']. cbn [fst snd] in *.
  rewrite Hb. reflexivity.
Qed.

(** X6.  On a stream whose next 32 bytes are the magic, [pdb_archive_p]
    succeeds; it has made one read request, for 32 bytes at the position of
    the stream, it leaves the position 32 bytes further, and the bytes of
    the stream as they were. *)
Theorem probe_accepts_magic (f : bfd) :
  has f (where_ f) pdb_magic ->
  exists f',
    pdb_archive_p f = Done tt f'
    /\ reads f' = reads f ++ [(where_ f, 32)]
    /\ where_ f' = where_ f + 32
    /\ same_bytes f f'.
Proof.
  intros H. exists (snd (bfd_bread f 32)).
  split; [exact (pdb_archive_p_has f H)|].
  destruct H as (H0 & Hsz & _). change (zlen pdb_magic) with 32 in Hsz.
  split; [reflexivity | split; [|apply same_bytes_bread]].
  cbn [bfd_bread snd where_]. lia.
Qed.

Lemma probe_accepts_magic_witness :
  exists f',
    pdb_archive_p (bfd_of_bytes (pdb_magic ++ [x00; x04; x00; x00]))
    = Done tt f'
    /\ reads f'
       = reads (bfd_of_bytes (pdb_magic ++ [x00; x04; x00; x00]))
         ++ [(where_ (bfd_of_bytes (pdb_magic ++ [x00; x04; x00; x00])), 32)]
    /\ where_ f'
       = where_ (bfd_of_bytes (pdb_magic ++ [x00; x04; x00; x00])) + 32
    /\ same_bytes (bfd_of_bytes (pdb_magic ++ [x00; x04; x00; x00])) f'.
Proof.
  apply (probe_accepts_magic
           (bfd_of_bytes (pdb_magic ++ [x00; x04; x00; x00]))).
  split; [cbn; lia | split; [cbn; lia | reflexivity]].
Defined.

(* ================================================================= *)
(** ** The outcome of a write and the superblock it leaves *)



(* ================================================================= *)
(** ** The order of the blocks the allocator returns *)

Lemma pdb_allocate_block_next (c bs : Z) :
  0 < bs -> 0 <= c -> c + 3 < 2 ^ 32 ->
  c <= fst (pdb_allocate_block c bs)
  /\ snd (pdb_allocate_block c bs) = fst (pdb_allocate_block c bs) + 1
  /\ snd (pdb_allocate_block c bs) <= c + 3.
Proof.
  intros Hbs Hc Hlt. unfold pdb_allocate_block.
  change (2 ^ 32) with 4294967296 in Hlt.
  assert (U : forall z, 0 <= z < 4294967296 -> u32 z = z)
    by (intros z Hz; apply u32_small; change (2 ^ 32) with 4294967296; lia).
  destruct (c mod bs =? 1); cbn [fst snd];
    rewrite ?(U (c + 1)), ?(U (c + 2)), ?(U (c + 1 + 2)) by lia; lia.
Qed.

Lemma alloc_seq_bounds (n : nat) : forall c bs b,
  0 < bs -> 0 <= c -> c + 3 * Z.of_nat n < 2 ^ 32 ->
  In b (alloc_seq n c bs) -> c <= b < c + 3 * Z.of_nat n.
Proof.
  induction n as [|n IH]; intros c bs b Hbs Hc Hlt Hin; [contradiction|].
  cbn [alloc_seq] in Hin.
  pose proof (pdb_allocate_block_next c bs Hbs Hc ltac:(lia)) as (A & B & C).
  destruct (pdb_allocate_block c bs) as [blk c']. cbn [fst snd] in *.
  destruct Hin as [<- | Hin]; [lia|].
  apply IH in Hin; lia.
Qed.

Lemma alloc_seq_length (n : nat) : forall c bs,
  length (alloc_seq n c bs) = n.
Proof.
  induction n as [|n IH]; intros c bs; [reflexivity|].
  cbn [alloc_seq]. destruct (pdb_allocate_block c bs) as [blk c'].
  cbn [length]. now rewrite IH.
Qed.

Lemma alloc_seq_increasing (n : nat) : forall c bs i j,
  0 < bs -> 0 <= c -> c + 3 * Z.of_nat n < 2 ^ 32 ->
  (i < j < n)%nat ->
  nth i (alloc_seq n c bs) 0 < nth j (alloc_seq n c bs) 0.
Proof.
  induction n as [|n IH]; intros c bs i j Hbs Hc Hlt Hij; [lia|].
  cbn [alloc_seq].
  pose proof (pdb_allocate_block_next c bs Hbs Hc ltac:(lia)) as (A & B & C).
  pose proof (alloc_seq_bounds n (snd (pdb_allocate_block c bs)) bs) as Hb.
  pose proof (alloc_seq_length n (snd (pdb_allocate_block c bs)) bs) as Hlen.
  pose proof (IH (snd (pdb_allocate_block c bs)) bs) as IH'.
  destruct (pdb_allocate_block c bs) as [blk c']. cbn [fst snd] in *.
  destruct j as [|j]; [lia|].
  destruct i as [|i]; cbn [nth].
  - assert (Hin : In (nth j (alloc_seq n c' bs) 0) (alloc_seq n c' bs))
      by (apply nth_In; lia).
    apply Hb in Hin; lia.
  - apply IH'; lia.
Qed.

(** X8.  As long as the counter cannot reach [2 ^ 32], the blocks that
    [n] successive calls of [pdb_allocate_block] return, for any block
    size, are strictly increasing, so that no block is handed out twice;
    each is at or after the initial value [c] of the counter and before
    [c + 3 * n]. *)
Theorem allocator_increasing (n : nat) (c bs : Z) :
  0 < bs -> 0 <= c -> c + 3 * Z.of_nat n < 2 ^ 32 ->
  (forall i j, (i < j < n)%nat ->
     nth i (alloc_seq n c bs) 0 < nth j (alloc_seq n c bs) 0)
  /\ NoDup (alloc_seq n c bs)
  /\ (forall b, In b (alloc_seq n c bs) -> c <= b < c + 3 * Z.of_nat n).
Proof.
  intros Hbs Hc Hlt.
  assert (Hinc : forall i j, (i < j < n)%nat ->
            nth i (alloc_seq n c bs) 0 < nth j (alloc_seq n c bs) 0)
    by (intros i j Hij; now apply alloc_seq_increasing).
  split; [exact Hinc | split].
  - apply (NoDup_nth _ 0). rewrite alloc_seq_length. intros i j Hi Hj E.
    destruct (Nat.lt_trichotomy i j) as [L | [L | L]]; [|exact L|].
    + pose proof (Hinc i j ltac:(lia)). lia.
    + pose proof (Hinc j i ltac:(lia)). lia.
  - intros b. now apply alloc_seq_bounds.
Qed.

Lemma allocator_increasing_witness :
  (forall i j, (i < j < 1030)%nat ->
     nth i (alloc_seq 1030 3 1024) 0 < nth j (alloc_seq 1030 3 1024) 0)
  /\ NoDup (alloc_seq 1030 3 1024)
  /\ (forall b, In b (alloc_seq 1030 3 1024) ->
        3 <= b < 3 + 3 * Z.of_nat 1030).
Proof.
  apply (allocator_increasing 1030 3 1024); [lia | lia |].
  vm_compute. reflexivity.
Defined.

(* ================================================================= *)
(** ** Where a written archive keeps each stream *)

Lemma nth_wchunk (p : list byte) (t o : Z) :
  zlen p < 2 ^ 32 -> 0 <= t -> 1024 * t < zlen p -> 0 <= o < 1024 ->
  nth (Z.to_nat o) (wchunk p t) x00 = nth (Z.to_nat (1024 * t + o)) p x00.
Proof.
  intros Hp Ht Hlt Ho. unfold wchunk.
  change (2 ^ 32) with 4294967296 in Hp.
  assert (U : u64 (zlen p) = zlen p)
    by (unfold u64; apply Z.mod_small;
        change (2 ^ 64) with 18446744073709551616; lia).
  rewrite U.
  set (r := Z.min 1024 (zlen p - 1024 * t)).
  assert (Hlen : length (firstn (Z.to_nat r) (skipn (Z.to_nat (1024 * t)) p))
                 = Z.to_nat r).
  { rewrite length_firstn, length_skipn. unfold zlen in *. lia. }
  destruct (Z_lt_le_dec o r) as [Hin|Hout].
  - rewrite app_nth1 by lia.
    rewrite nth_firstn.
    destruct (Nat.ltb_spec (Z.to_nat o) (Z.to_nat r)) as [_|C]; [|lia].
    rewrite nth_skipn. f_equal. lia.
  - rewrite app_nth2 by lia.
    rewrite nth_repeat.
    symmetry. apply nth_overflow. unfold zlen in *. lia.
Qed.

(** X9.  For payloads shorter than [2 ^ 32] bytes whose directory fits one
    block-map page, the archive that [pdb_write_contents] writes has: in the
    block map at block 3 the directory blocks [Ds]; as word 0 of the
    directory the stream count; as word [1 + i] the size of stream [i]; as
    word [1 + n + b], where [b] counts the blocks of the streams before [i]
    plus [t], the block [B] that holds bytes [1024 * t] and following of
    stream [i], padded with zeros after the end of the stream.  All these
    blocks are at index 4 or more and below the [num_blocks] of the
    superblock. *)
Theorem written_archive_layout (junk : buffer) (S : list (list byte))
    (f : bfd) :
  where_ f = 0 ->
  Forall (fun s => zlen s < 2 ^ 32) S ->
  fits_block_map_page (directory_size S) ->
  exists out nb Ds Bl,
    pdb_write_contents junk (map bfd_of_bytes S) f = Done tt out
    /\ has_word out 40 nb
    /\ (forall k, 0 <= k < zlen Ds ->
          4 <= znth Ds k < nb /\ has_word out (3072 + 4 * k) (znth Ds k))
    /\ has_word out (dir_word_offset Ds 0) (zlen S)
    /\ (forall i p, nth_error S i = Some p ->
          has_word out (dir_word_offset Ds (1 + Z.of_nat i)) (zlen p)
          /\ forall t, 0 <= t -> 1024 * t < zlen p ->
               has_word out
                 (dir_word_offset Ds (1 + zlen S + blocks_before S i + t))
                 (znth Bl (blocks_before S i + t))
               /\ 4 <= znth Bl (blocks_before S i + t) < nb
               /\ forall o, 0 <= o < 1024 ->
                    contents out (znth Bl (blocks_before S i + t) * 1024 + o)
                    = nth (Z.to_nat (1024 * t + o)) p x00).
Proof.
  intros Hw Hlt Hfit.
  destruct (round_trip_bounds S Hlt Hfit) as (Hroom & Hsmall).
  destruct (pdb_write_contents_spec junk S f Hw Hroom)
    as (out & nb & Ds & Bl & Data & E & F).
  exists out, nb, Ds, Bl. split; [exact E|].
  destruct F as [_ _ _ Hnb _ _ D HBl Hblocks _].
  split; [exact Hnb|].
  pose proof (zlen_nonneg S) as HS.
  pose proof (blocks_before_nonneg S (length S)) as Hbb.
  set (sz := fun q : list byte => u32 (u64 (zlen q))) in *.
  set (W := u32 (zlen S) :: map sz S ++ Bl) in *.
  assert (Hn : u32 (zlen S) = zlen S)
    by (apply u32_small; change (2 ^ 32) with 4294967296; lia).
  assert (HW : zlen W = 1 + zlen S + zlen Bl)
    by (unfold W; rewrite zlen_cons, zlen_app, zlen_map; lia).
  split.
  { intros k Hk. destruct (fin_map _ _ _ _ _ D k Hk) as (A & _ & C).
    split; [exact A | exact C]. }
  split.
  { pose proof (fin_words _ _ _ _ _ D 0 ltac:(lia)) as H0.
    unfold dir_word_offset. unfold W in H0.
    change (znth (u32 (zlen S) :: map sz S ++ Bl) 0) with (u32 (zlen S))
      in H0.
    rewrite Hn in H0. exact H0. }
  intros i p Hnth.
  pose proof (blocks_before_nonneg S i) as Hbi.
  pose proof (blocks_before_step S i p Hnth) as Hstep.
  pose proof (req_blocks_range p) as Hreq.
  assert (Hi : (i < length S)%nat) by (apply nth_error_Some; congruence).
  assert (Hp : zlen p < 2 ^ 32)
    by (rewrite Forall_forall in Hlt; apply Hlt;
        eapply nth_error_In; exact Hnth).
  pose proof (zlen_nonneg p) as Hp0.
  assert (Hszp : sz p = zlen p).
  { unfold sz, u64. change (2 ^ 32) with 4294967296 in Hp.
    rewrite (Z.mod_small (zlen p))
      by (change (2 ^ 64) with 18446744073709551616; lia).
    apply u32_small. change (2 ^ 32) with 4294967296. lia. }
  split.
  { pose proof (fin_words _ _ _ _ _ D (1 + Z.of_nat i)
                  ltac:(rewrite HW; unfold zlen; lia)) as H1.
    unfold dir_word_offset.
    replace (znth W (1 + Z.of_nat i)) with (zlen p) in H1; [exact H1|].
    unfold W. replace (1 + Z.of_nat i) with (Z.of_nat i + 1) by lia.
    rewrite znth_cons_succ by lia.
    rewrite znth_app_l by (rewrite zlen_map; unfold zlen; lia).
    unfold znth. rewrite Nat2Z.id.
    rewrite (nth_error_nth _ _ 0 (map_nth_error sz i S Hnth)).
    symmetry. exact Hszp. }
  intros t Ht Htlt.
  assert (Hkreq : 0 <= t < req_blocks p).
  { rewrite req_blocks_small by assumption.
    unfold ceil_div. Z.div_mod_to_equations. lia. }
  pose proof (Hblocks i p t Hnth Hkreq) as Hin.
  destruct (fin_data _ _ _ _ _ D _ _ Hin) as (A & _ & Hc & Hhas).
  split.
  { pose proof (fin_words _ _ _ _ _ D
                  (1 + zlen S + blocks_before S i + t)
                  ltac:(rewrite HW; lia)) as H2.
    unfold dir_word_offset.
    replace (znth W (1 + zlen S + blocks_before S i + t))
      with (znth Bl (blocks_before S i + t)) in H2; [exact H2|].
    unfold W.
    replace (1 + zlen S + blocks_before S i + t)
      with (zlen S + blocks_before S i + t + 1) by lia.
    rewrite znth_cons_succ by lia.
    rewrite znth_app_r by (rewrite zlen_map; lia).
    rewrite zlen_map. f_equal. lia. }
  split; [exact A|].
  intros o Ho.
  rewrite (has_nth _ _ _ o Hhas) by lia.
  apply nth_wchunk; assumption.
Qed.

Lemma written_archive_layout_witness :
  exists out nb Ds Bl,
    pdb_write_contents (fun _ => xcc) (map bfd_of_bytes sample_payloads)
      empty_bfd = Done tt out
    /\ has_word out 40 nb
    /\ (forall k, 0 <= k < zlen Ds ->
          4 <= znth Ds k < nb /\ has_word out (3072 + 4 * k) (znth Ds k))
    /\ has_word out (dir_word_offset Ds 0) (zlen sample_payloads)
    /\ (forall i p, nth_error sample_payloads i = Some p ->
          has_word out (dir_word_offset Ds (1 + Z.of_nat i)) (zlen p)
          /\ forall t, 0 <= t -> 1024 * t < zlen p ->
               has_word out
                 (dir_word_offset Ds
                    (1 + zlen sample_payloads
                     + blocks_before sample_payloads i + t))
                 (znth Bl (blocks_before sample_payloads i + t))
               /\ 4 <= znth Bl (blocks_before sample_payloads i + t) < nb
               /\ forall o, 0 <= o < 1024 ->
                    contents out
                      (znth Bl (blocks_before sample_payloads i + t) * 1024
                       + o)
                    = nth (Z.to_nat (1024 * t + o)) p x00).
Proof.
  apply (written_archive_layout (fun _ => xcc) sample_payloads empty_bfd).
  - reflexivity.
  - repeat constructor.
  - apply fits_block_map_page_iff. vm_compute. discriminate.
Defined.

(* ================================================================= *)
(** ** What the free block map leaves in place *)

(** X10.  [pdb_write_bitmap] writes nothing but the first free-map block of
    each interval, the blocks [i * block_size + 1]: bytes of the file that
    lie outside these blocks are as they were, and the file does not
    shrink. *)
Theorem free_map_frame (junk : buffer) (f : bfd) (bs nb : Z) :
  0 < bs -> 8 * bs < 2 ^ 32 -> 1 <= nb -> nb + bs - 1 < 2 ^ 32 ->
  fpm_offset bs ((nb + bs - 1) / bs - 1) + bs <= 2 ^ 32 ->
  exists out,
    pdb_write_bitmap junk bs nb f = Done tt out
    /\ size f <= size out
    /\ (forall o l, has f o l ->
          (forall i, 0 <= i < (nb + bs - 1) / bs ->
             o + zlen l <= fpm_offset bs i \/ fpm_offset bs i + bs <= o) ->
          has out o l).
Proof.
  intros Hbs H8 Hnb Hwrap Hlast.
  unfold pdb_write_bitmap.
  assert (U1 : u32 (nb + bs - 1) = nb + bs - 1)
    by (unfold u32; apply Z.mod_small; lia).
  assert (U2 : u32 (nb - 1) = nb - 1)
    by (unfold u32; apply Z.mod_small; lia).
  rewrite U1, U2.
  set (n := (nb + bs - 1) / bs) in *.
  assert (Hn : 1 <= n).
  { unfold n. apply Z.div_le_lower_bound; lia. }
  destruct (write_bitmap_blocks_spec bs Hbs H8 (Z.to_nat n) 0 junk (nb - 1) f)
    as (out & Erun & _ & _ & Hframe & Hsz); [lia | lia | |].
  { intros j Hj. rewrite Z.add_0_l.
    destruct (Z.eq_dec (Z.of_nat j) (n - 1)) as [E|E]; [now rewrite E|].
    pose proof (fpm_offset_mono bs Hbs (Z.of_nat j) (n - 1) ltac:(lia)).
    assert (0 < bs * 1) by lia. lia. }
  exists out. split; [exact Erun | split; [exact Hsz|]].
  intros o l Hh Hout. apply Hframe; [exact Hh|].
  intros j Hj. rewrite Z.add_0_l. apply Hout. lia.
Qed.

Lemma free_map_frame_witness :
  exists out,
    pdb_write_bitmap (fun _ => xaa) 1024 1025
      (bfd_of_bytes (repeat x55 4096)) = Done tt out
    /\ size (bfd_of_bytes (repeat x55 4096)) <= size out
    /\ (forall o l, has (bfd_of_bytes (repeat x55 4096)) o l ->
          (forall i, 0 <= i < (1025 + 1024 - 1) / 1024 ->
             o + zlen l <= fpm_offset 1024 i
             \/ fpm_offset 1024 i + 1024 <= o) ->
          has out o l).
Proof.
  apply (free_map_frame (fun _ => xaa) (bfd_of_bytes (repeat x55 4096))
           1024 1025).
  - lia.
  - reflexivity.
  - lia.
  - reflexivity.
  - vm_compute. discriminate.
Defined.

(* ================================================================= *)
(** ** The name of an extracted element *)

Lemma hex_digit_value_digit (d : Z) :
  0 <= d < 16 -> hex_digit_value (hex_digit d) = d.
Proof.
  intros H.
  assert (C : d = 0 \/ d = 1 \/ d = 2 \/ d = 3 \/ d = 4 \/ d = 5 \/ d = 6
              \/ d = 7 \/ d = 8 \/ d = 9 \/ d = 10 \/ d = 11 \/ d = 12
              \/ d = 13 \/ d = 14 \/ d = 15) by lia.
  repeat (destruct C as [-> | C]; [reflexivity|]). subst d. reflexivity.
Qed.

Lemma hex_digits_value (fuel : nat) : forall z acc a,
  0 <= z < 16 ^ Z.of_nat fuel ->
  exists k : nat,
    hex_value_from a (hex_digits fuel z acc)
    = hex_value_from (a * 16 ^ Z.of_nat k + z) acc
    /\ String.length (hex_digits fuel z acc) = (k + String.length acc)%nat
    /\ (k = 0%nat \/ 16 ^ (Z.of_nat k - 1) <= z).
Proof.
  induction fuel as [|fuel IH]; intros z acc a Hz.
  - change (16 ^ Z.of_nat 0) with 1 in Hz. assert (z = 0) by lia. subst z.
    exists 0%nat. cbn [hex_digits]. change (16 ^ Z.of_nat 0) with 1.
    split; [f_equal; lia | split; [reflexivity | now left]].
  - cbn [hex_digits]. destruct (Z.eqb_spec z 0) as [E|E].
    + subst z. exists 0%nat. change (16 ^ Z.of_nat 0) with 1.
      split; [f_equal; lia | split; [reflexivity | now left]].
    + rewrite Nat2Z.inj_succ, Z.pow_succ_r in Hz by lia.
      destruct (IH (z / 16) (String (hex_digit (z mod 16)) acc) a)
        as (k & Hv & Hl & Hm).
      { Z.div_mod_to_equations. lia. }
      exists (Datatypes.S k). rewrite Hv, Hl. cbn [hex_value_from].
      rewrite hex_digit_value_digit by (apply Z.mod_pos_bound; lia).
      rewrite Nat2Z.inj_succ, Z.pow_succ_r by lia.
      split; [f_equal; Z.div_mod_to_equations; lia|].
      split; [cbn [String.length]; lia | right].
      replace (Z.succ (Z.of_nat k) - 1) with (Z.of_nat k) by lia.
      destruct k as [|k]; [change (16 ^ Z.of_nat 0) with 1; lia|].
      destruct Hm as [Hm | Hm]; [discriminate Hm|].
      replace (Z.of_nat (Datatypes.S k) - 1) with (Z.of_nat k) in Hm by lia.
      rewrite Nat2Z.inj_succ, Z.pow_succ_r by lia.
      Z.div_mod_to_equations. lia.
Qed.

Lemma pad_zeros_value (n : nat) (s : string) :
  hex_value (pad_zeros n s) = hex_value s
  /\ String.length (pad_zeros n s) = (n + String.length s)%nat.
Proof.
  unfold hex_value. induction n as [|n [IHv IHl]]; [split; reflexivity|].
  cbn [pad_zeros hex_value_from String.length].
  change (16 * 0 + hex_digit_value "0") with 0.
  split; [exact IHv | now rewrite IHl].
Qed.

(** [sprintf (name, "%04lx", v)] writes [v] in hexadecimal, with at least
    four digits and no more than the value needs beyond them. *)
Lemma sprintf_04lx_value (v : Z) :
  0 <= v < 2 ^ 64 ->
  hex_value (sprintf_04lx v) = v
  /\ (4 <= String.length (sprintf_04lx v) <= 16)%nat
  /\ (v < 2 ^ 32 -> (String.length (sprintf_04lx v) <= 8)%nat).
Proof.
  intros Hv. unfold sprintf_04lx.
  destruct (hex_digits_value 16 v EmptyString 0 Hv) as (k & Hval & Hlen & Hmin).
  cbn [hex_value_from String.length] in Hval, Hlen.
  rewrite Z.mul_0_l, Z.add_0_l in Hval. rewrite Nat.add_0_r in Hlen.
  cbv zeta.
  destruct (pad_zeros_value (4 - String.length (hex_digits 16 v "")) 
              (hex_digits 16 v "")) as [Pv Pl].
  rewrite Pv, Pl, Hlen. unfold hex_value. rewrite Hval.
  assert (Hk : (k <= 16)%nat).
  { destruct Hmin as [-> | Hmin]; [lia|].
    destruct (Nat.le_gt_cases k 16) as [L|G]; [exact L|].
    assert (16 ^ 16 <= 16 ^ (Z.of_nat k - 1))
      by (apply Z.pow_le_mono_r; lia).
    change (16 ^ 16) with (2 ^ 64) in *. lia. }
  split; [reflexivity | split; [lia|]].
  intros H32.
  assert (Hk8 : (k <= 8)%nat).
  { destruct Hmin as [-> | Hmin]; [lia|].
    destruct (Nat.le_gt_cases k 8) as [L|G]; [exact L|].
    assert (16 ^ 8 <= 16 ^ (Z.of_nat k - 1))
      by (apply Z.pow_le_mono_r; lia).
    change (16 ^ 8) with (2 ^ 32) in *. lia. }
  lia.
Qed.



(* ================================================================= *)
(** ** What the writer takes from the elements *)

Lemma bfd_bread_same_data a a' n :
  same_data a a' -> where_ a = where_ a' -> 0 <= where_ a ->
  fst (bfd_bread a n) = fst (bfd_bread a' n)
  /\ same_data (snd (bfd_bread a n)) (snd (bfd_bread a' n))
  /\ where_ (snd (bfd_bread a n)) = where_ (snd (bfd_bread a' n))
  /\ 0 <= where_ (snd (bfd_bread a n)).
Proof.
  intros [Hs Hc] Hw H0. unfold bfd_bread. cbn [fst snd where_].
  rewrite <- Hs, <- Hw.
  split; [|split; [split; [reflexivity | exact Hc]
                  | split; [reflexivity | lia]]].
  apply peek_ext. intros k Hk. apply Hc. lia.
Qed.

Lemma bind_cong {A B} (c c' : io A) (k k' : A -> io B) f :
  c f = c' f -> (forall a f', k a f' = k' a f') ->
  bind c k f = bind c' k' f.
Proof.
  intros Hc Hk. unfold bind. rewrite Hc.
  destruct (c' f) as [a f'| |]; [apply Hk | reflexivity | reflexivity].
Qed.

Lemma write_sizes_same_data bs bma (arelts arelts' : list bfd) :
  Forall2 same_data arelts arelts' ->
  forall st f, write_sizes bs bma arelts st f = write_sizes bs bma arelts' st f.
Proof.
  induction 1 as [|a a' l l' [Hs _] _ IH]; intros st f; [reflexivity|].
  cbn [write_sizes].
  apply bind_cong; [reflexivity|]. intros st1 f1.
  unfold bfd_get_size. rewrite Hs.
  apply bind_cong; [reflexivity|]. intros _ f2. apply IH.
Qed.

Lemma write_file_blocks_same_data (n : nat) bs bma :
  forall a a' sz st f,
    same_data a a' -> where_ a = where_ a' -> 0 <= where_ a ->
    write_file_blocks n bs bma a sz st f
    = write_file_blocks n bs bma a' sz st f.
Proof.
  induction n as [|n IH]; intros a a' sz st f Hd Hw H0; [reflexivity|].
  cbn [write_file_blocks].
  apply bind_cong; [reflexivity|]. intros st1 f1.
  destruct (pdb_allocate_block (d_num_blocks st1) bs) as [B nb'].
  apply bind_cong; [reflexivity|]. intros _ f2.
  destruct (bfd_bread_same_data a a' (if sz >? bs then bs else sz) Hd Hw H0)
    as (E1 & Hd' & Hw' & H0').
  destruct (bfd_bread a (if sz >? bs then bs else sz)) as [data a1].
  destruct (bfd_bread a' (if sz >? bs then bs else sz)) as [data' a1'].
  cbn [fst snd] in *. subst data'.
  destruct (negb (zlen data =? (if sz >? bs then bs else sz)));
    [reflexivity|].
  apply bind_cong; [reflexivity|]. intros _ f3.
  apply bind_cong; [reflexivity|]. intros _ f4.
  apply bind_cong; [reflexivity|]. intros _ f5.
  apply IH; assumption.
Qed.

Lemma write_blocks_same_data bs bma (arelts arelts' : list bfd) :
  Forall2 same_data arelts arelts' ->
  forall st f,
    write_blocks bs bma arelts st f = write_blocks bs bma arelts' st f.
Proof.
  induction 1 as [|a a' l l' Hd _ IH]; intros st f; [reflexivity|].
  cbn [write_blocks]. unfold bfd_get_size.
  destruct Hd as [Hs Hc]. rewrite <- Hs.
  apply bind_cong; [|intros st1 f1; apply IH].
  apply write_file_blocks_same_data;
    [split; [exact Hs | exact Hc] | reflexivity
    | cbn [bfd_seek_set where_]; lia].
Qed.

Lemma count_directory_same_data bs (arelts arelts' : list bfd) :
  Forall2 same_data arelts arelts' ->
  forall nf ndb,
    count_directory arelts bs nf ndb = count_directory arelts' bs nf ndb.
Proof.
  induction 1 as [|a a' l l' [Hs _] _ IH]; intros nf ndb; [reflexivity|].
  cbn [count_directory]. unfold bfd_get_size. rewrite Hs. apply IH.
Qed.

Lemma pdb_write_contents_same_data (junk : buffer) (arelts arelts' : list bfd)
    (f : bfd) :
  Forall2 same_data arelts arelts' ->
  pdb_write_contents junk arelts f = pdb_write_contents junk arelts' f.
Proof.
  intros H. unfold pdb_write_contents.
  rewrite (count_directory_same_data _ _ _ H).
  destruct (count_directory arelts' 1024 0 4) as [nf ndb].
  destruct (pdb_allocate_block 3 1024) as [bma nb].
  apply bind_cong; [reflexivity|]. intros _ f1.
  apply bind_cong; [reflexivity|]. intros _ f2.
  apply bind_cong; [reflexivity|]. intros _ f3.
  apply bind_cong; [reflexivity|]. intros _ f4.
  apply bind_cong; [reflexivity|]. intros _ f5.
  apply bind_cong; [reflexivity|]. intros _ f6.
  apply bind_cong; [reflexivity|]. intros _ f7.
  apply bind_cong; [|reflexivity].
  unfold pdb_write_directory.
  destruct (pdb_allocate_block nb 1024) as [blk nb1].
  apply bind_cong; [reflexivity|]. intros _ g1.
  apply bind_cong; [reflexivity|]. intros _ g2.
  apply bind_cong; [reflexivity|]. intros _ g3.
  apply bind_cong; [reflexivity|]. intros _ g4.
  apply bind_cong; [apply write_sizes_same_data; exact H|]. intros st1 g5.
  apply bind_cong; [apply write_blocks_same_data; exact H|]. intros st2 g6.
  reflexivity.
Qed.

(** X12.  The file that [pdb_write_contents] writes, and its outcome,
    depend on the elements of the archive through their bytes only: two
    lists of elements that hold the same bytes, whatever their names,
    their positions (each element is rewound at line 504) and what was
    read from them before, give the same result. *)
Theorem writer_takes_bytes_only (junk : buffer) (arelts arelts' : list bfd)
    (f : bfd) :
  Forall2 same_data arelts arelts' ->
  pdb_write_contents junk arelts f = pdb_write_contents junk arelts' f.
Proof. apply pdb_write_contents_same_data. Qed.

Lemma writer_takes_bytes_only_witness :
  pdb_write_contents (fun _ => xcc)
    [ {| filename := "a"; contents := fun _ => x41; size := 1;
         where_ := 5; reads := [(0, 1)]; arelt_data := None |} ] empty_bfd
  = pdb_write_contents (fun _ => xcc) [bfd_of_bytes [x41]] empty_bfd.
Proof.
  apply (writer_takes_bytes_only (fun _ => xcc)).
  constructor; [|constructor].
  split; [reflexivity|].
  intros o Ho. cbn [size] in Ho. assert (o = 0) by lia. subst o.
  reflexivity.
Defined.

Lemma same_data_of_bytes (a : bfd) :
  0 <= size a -> same_data a (bfd_of_bytes (bfd_bytes a)).
Proof.
  intros H. split.
  - cbn [bfd_of_bytes size]. now rewrite zlen_bfd_bytes.
  - intros o Ho. cbn [bfd_of_bytes contents]. unfold bfd_bytes.
    rewrite nth_peek by lia. rewrite Z2Nat.id by lia. reflexivity.
Qed.

(** X13.  The round trip holds for elements of any kind: for elements of
    fewer than [2 ^ 32] bytes each, whatever their names and positions,
    whose directory fits one block-map page, [pdb_write_contents] succeeds
    and [pdb_get_elt_at_index] at 0, 1, ..., [n - 1] on the archive written
    delivers the bytes of each element, in order. *)
Theorem round_trip_of_elements (junk : buffer) (arelts : list bfd)
    (f : bfd) :
  where_ f = 0 ->
  Forall (fun a => 0 <= size a < 2 ^ 32) arelts ->
  fits_block_map_page (directory_size (map bfd_bytes arelts)) ->
  exists out,
    pdb_write_contents junk arelts f = Done tt out
    /\ map bfd_bytes (fst (get_from (length arelts) 0 out))
       = map bfd_bytes arelts.
Proof.
  intros Hw Hsz Hfit.
  set (S := map bfd_bytes arelts) in *.
  assert (Hlt : Forall (fun s => zlen s < 2 ^ 32) S).
  { unfold S. apply Forall_map. rewrite Forall_forall in *.
    intros a Ha. specialize (Hsz a Ha). cbv beta in Hsz.
    rewrite zlen_bfd_bytes; lia. }
  assert (Hsame : Forall2 same_data arelts (map bfd_of_bytes S)).
  { unfold S. clear -Hsz. induction arelts as [|a l IH]; [constructor|].
    inversion Hsz as [|? ? Ha Hl]; subst. cbn [map].
    constructor; [apply same_data_of_bytes; lia | exact (IH Hl)]. }
  rewrite (pdb_write_contents_same_data junk _ _ f Hsame).
  destruct (round_trip_bounds S Hlt Hfit) as (Hroom & Hsmall).
  destruct (pdb_write_contents_spec junk S f Hw Hroom)
    as (out & nb & Ds & Bl & Data & E & F).
  exists out. split; [exact E|].
  replace (length arelts) with (length S) by (unfold S; apply length_map).
  change 0 with (Z.of_nat 0).
  rewrite (get_from_written out S nb Ds Bl Data F Hroom Hsmall
             (length S) 0%nat out (same_bytes_refl out)) by lia.
  cbn [skipn]. apply firstn_all.
Qed.

Lemma round_trip_of_elements_witness :
  exists out,
    pdb_write_contents (fun _ => xcc)
      [ {| filename := "a"; contents := fun _ => x41; size := 1;
           where_ := 5; reads := [(0, 1)]; arelt_data := None |};
        bfd_seek_set (bfd_of_bytes (repeat x42 1500)) 700 ] empty_bfd
    = Done tt out
    /\ map bfd_bytes
         (fst (get_from
                 (length
                    [ {| filename := "a"; contents := fun _ => x41;
                         size := 1; where_ := 5; reads := [(0, 1)];
                         arelt_data := None |};
                      bfd_seek_set (bfd_of_bytes (repeat x42 1500)) 700 ])
                 0 out))
       = map bfd_bytes
           [ {| filename := "a"; contents := fun _ => x41; size := 1;
                where_ := 5; reads := [(0, 1)]; arelt_data := None |};
             bfd_seek_set (bfd_of_bytes (repeat x42 1500)) 700 ].
Proof.
  apply (round_trip_of_elements (fun _ => xcc)).
  - reflexivity.
  - repeat constructor; cbn; try lia; discriminate.
  - apply fits_block_map_page_iff. vm_compute. discriminate.
Defined.
